(** * FileOrganizer: the file organization engine of [file_organizer_standalone.py]

    A shallow embedding of the class [FileOrganizer]: the categorizer
    ([get_file_category]), the destination resolver ([get_destination_path]),
    the duplicate handler ([handle_duplicate]), the readiness detector
    ([_is_file_ready]) and the orchestrator ([organize_file]).

    Conventions of the embedding.
    - Python [str] is [string]; [str.lower] is modelled on the ASCII letters.
    - A [pathlib.Path] is the tuple of its [parts] (POSIX flavour, Python 3.11):
      an absolute path starts with the part ["/"].
    - Seconds are counted in milliseconds on [Z]: the defaults 2, 0.5 and 30 of
      [_is_file_ready] are 2000, 500 and 30000. Every value the loop computes
      from these defaults is a multiple of 0.5 below 2^53, so the float
      arithmetic of the source is exact on them.
    - The file system is a finite map from paths to nodes: a file has one
      name, two different paths are two different files (no symbolic link,
      no hard link, no [..] that leads back, no second spelling of a root).
      What other processes do to the polled file is an oracle of [stat]
      results, and the errors of the operating system on a creation, a copy
      or a removal are oracles of faults.
    - [pathlib], [os] and [shutil] are modelled as far as the engine calls
      them: [Path.mkdir(parents=True, exist_ok=True)], [os.rename] under
      the POSIX rules, [shutil.move] with its fallback on a copy followed
      by a removal when the rename fails.
    - A computation takes the file system and gives a value and a file
      system, or an exception, or [Diverge] when a loop runs out of fuel;
      every loop is given a fuel that is shown to be enough. *)

From Stdlib Require Import ZArith Ascii String List.
From stdpp Require Import base tactics option list gmap strings pretty.

Local Open Scope Z_scope.

(** ** Python strings *)

Module PyStr.

(** [c.lower()] on one ASCII character. *)
Definition lower_ascii (c : ascii) : ascii :=
  let n := N_of_ascii c in
  if ((65 <=? n) && (n <=? 90))%N then ascii_of_N (n + 32) else c.

(** [s.lower()] *)
Fixpoint lower (s : string) : string :=
  match s with
  | EmptyString => EmptyString
  | String c s' => String (lower_ascii c) (lower s')
  end.

(** [s.lstrip(c)] for a one-character argument. *)
Fixpoint lstrip (c : ascii) (s : string) : string :=
  match s with
  | EmptyString => EmptyString
  | String a s' => if Ascii.eqb a c then lstrip c s' else s
  end.

(** [s.startswith(p)] *)
Fixpoint startswith (p s : string) : bool :=
  match p, s with
  | EmptyString, _ => true
  | String _ _, EmptyString => false
  | String a p', String b s' => Ascii.eqb a b && startswith p' s'
  end.

(** [s.endswith(p)] *)
Definition endswith (p s : string) : bool :=
  startswith (String.rev p) (String.rev s).

(** [s.rfind(c)]: the highest index of [c] in [s]; [None] stands for -1. *)
Fixpoint rfind (c : ascii) (s : string) : option nat :=
  match s with
  | EmptyString => None
  | String a s' =>
      match rfind c s' with
      | Some i => Some (S i)
      | None => if Ascii.eqb a c then Some O else None
      end
  end.

(** [s[i:]] *)
Fixpoint slice_from (i : nat) (s : string) : string :=
  match i, s with
  | O, _ => s
  | S _, EmptyString => EmptyString
  | S i', String _ s' => slice_from i' s'
  end.

(** [s[:i]] *)
Fixpoint slice_to (i : nat) (s : string) : string :=
  match i, s with
  | O, _ => EmptyString
  | S _, EmptyString => EmptyString
  | S i', String a s' => String a (slice_to i' s')
  end.

(** [s.split(c)] *)
Fixpoint split (c : ascii) (s : string) : list string :=
  match s with
  | EmptyString => [EmptyString]
  | String a s' =>
      if Ascii.eqb a c then EmptyString :: split c s'
      else match split c s' with
           | x :: xs => String a x :: xs
           | [] => [String a EmptyString]
           end
  end.

(** [c in s] for a character. *)
Fixpoint contains (c : ascii) (s : string) : bool :=
  match s with
  | EmptyString => false
  | String a s' => Ascii.eqb a c || contains c s'
  end.

End PyStr.

(** ** pathlib: pure paths (POSIX flavour) *)

Module PurePath.

(** A path is its [parts] tuple: [Path("/dl/a.jpg").parts] is
    [("/", "dl", "a.jpg")] and [Path(".").parts] is [()]. *)
Definition Path := list string.

(** A part that is a root: ["/"] or ["//"]. *)
Definition is_root (part : string) : bool := PyStr.startswith "/" part.

(** The number of leading separators of the text. *)
Fixpoint leading_seps (s : string) : nat :=
  match s with
  | String "/" s' => S (leading_seps s')
  | _ => O
  end.

(** [splitroot]: exactly two leading slashes give the root ["//"], any
    other positive number the root ["/"]. *)
Definition root_of (s : string) : list string :=
  match leading_seps s with
  | O => []
  | 2%nat => ["//"]
  | _ => ["/"]
  end.

(** The components of the text: the pieces between separators, without
    the empty ones and the ["."] ones. *)
Definition components (s : string) : list string :=
  filter (λ x, x ≠ "" ∧ x ≠ ".") (PyStr.split "/" s).

(** [Path(s)] *)
Definition of_string (s : string) : Path := root_of s ++ components s.

(** [p.is_absolute()] *)
Definition is_absolute (p : Path) : bool :=
  match p with
  | r :: _ => is_root r
  | [] => false
  end.

(** [p.name] *)
Definition name (p : Path) : string :=
  match p with
  | [] => ""
  | [r] => if is_root r then "" else r
  | _ => List.last p ""
  end.

(** [p.parent] *)
Definition parent (p : Path) : Path :=
  match p with
  | [r] => if is_root r then p else []
  | _ => removelast p
  end.

(** [p.suffix] *)
Definition suffix (p : Path) : string :=
  let name := name p in
  match PyStr.rfind "." name with
  | Some i =>
      if bool_decide (0 < i ∧ i < String.length name - 1)%nat
      then PyStr.slice_from i name else ""
  | None => ""
  end.

(** [p.stem] *)
Definition stem (p : Path) : string :=
  let name := name p in
  match PyStr.rfind "." name with
  | Some i =>
      if bool_decide (0 < i ∧ i < String.length name - 1)%nat
      then PyStr.slice_to i name else name
  | None => name
  end.

(** [p / q] for a path [q]: an absolute right operand replaces the left
    one. *)
Definition join (p q : Path) : Path :=
  if is_absolute q then q else p ++ q.

(** [p / s] for a text [s]. *)
Definition joinpath (p : Path) (s : string) : Path := join p (of_string s).

End PurePath.

Import PurePath.

(** ** Configuration *)

(** One entry of [config["categories"]]; a field is [None] when its key is
    absent from the entry. *)
Record CategoryInfo := {
  folder_path : option string;
  enabled : option bool;
  extensions : option (list string)
}.

(** [self.config]. A Python dict keeps its insertion order and is iterated in
    that order, so [categories] is the list of its items. *)
Record Config := {
  downloads_folder : option string;
  handle_duplicates : option string;
  categories : option (list (string * CategoryInfo))
}.

(** [d.get(key, default)] on an optional field. *)
Definition get {A} (field : option A) (default : A) : A :=
  match field with
  | Some value => value
  | None => default
  end.

(** [key in d] and [d[key]] on the items of a dict. *)
Fixpoint lookup_item {A} (key : string) (items : list (string * A)) : option A :=
  match items with
  | [] => None
  | (k, v) :: rest => if bool_decide (k = key) then Some v else lookup_item key rest
  end.

(** ** Categorizer *)

(** The body of the [for] loop of [get_file_category], with its early
    [return] and the [return "Others"] after the loop. *)
Fixpoint first_category (file_ext : string) (items : list (string * CategoryInfo)) : string :=
  match items with
  | [] => "Others"
  | (category, info) :: rest =>
      if get (enabled info) true && bool_decide (file_ext ∈ get (extensions info) [])
      then category
      else first_category file_ext rest
  end.

(** [file_ext = Path(file_path).suffix.lower().lstrip('.')] *)
Definition file_extension (file_path : string) : string :=
  PyStr.lstrip "." (PyStr.lower (suffix (of_string file_path))).

Definition get_file_category (config : Config) (file_path : string) : string :=
  let file_ext := file_extension file_path in
  first_category file_ext (get (categories config) []).

(** *** The categorizer of the specification *)

Module Spec.

(** CategoryRule of the data model. *)
Record CategoryRule := {
  name : string;
  rule_extensions : gset string;
  destinationFolder : option string;
  rule_enabled : bool
}.

(** The rule a configuration entry stands for. *)
Definition rule_of_item (item : string * CategoryInfo) : CategoryRule :=
  {| name := item.1;
     rule_extensions := list_to_set (get (extensions item.2) []);
     destinationFolder := folder_path item.2;
     rule_enabled := get (enabled item.2) true |}.

Definition rules_of_config (config : Config) : list CategoryRule :=
  rule_of_item <$> get (categories config) [].

Definition matches (ext : string) (r : CategoryRule) : bool :=
  rule_enabled r && bool_decide (ext ∈ rule_extensions r).

(** classify: the name of the first enabled rule, in stored order, whose
    extension set contains the extension; the reserved category when
    there is none. *)
Definition classify (ext : string) (rules : list CategoryRule) : string :=
  match List.find (matches ext) rules with
  | Some r => name r
  | None => "Others"
  end.

End Spec.

(** ** The file system and the environment *)

(** What a path leads to: a regular file of some size, or a directory. *)
Inductive Node := File (st_size : N) | Dir.

(** The exceptions the engine can meet. [ShutilError] is [shutil.Error]
    (with its subclass [SameFileError]), itself a subclass of [OSError];
    the others are [OSError] and its subclasses. *)
Inductive Exn :=
| FileNotFoundError | FileExistsError | NotADirectoryError | IsADirectoryError
| PermissionError | OSError | ShutilError.

(** The result of one [file_path.stat()] of the readiness loop: a size,
    [FileNotFoundError], or another exception. *)
Inductive StatResult := StSize (st_size : N) | StNotFound | StError.

(** What the engine does not control.
    - [home] is [Path.home()].
    - [stat_poll p i] is the result of the [i]-th [p.stat()] of the readiness
      loop: the file is still being written by another program.
    - [io_fault p] is the error the operating system answers with to the
      creation of the entry [p] by [os.mkdir] or [os.rename] (permission
      denied, read-only volume, another device).
    - [copy_fault src dst] is the error that stops [shutil.copy2] on its way
      from [src] to [dst] (permission denied, disk full), with the size of
      [dst] at that moment when [dst] had been opened for writing.
    - [unlink_fault p] is the error the operating system answers with to
      the removal of [p].
    - [move_tree src dst fs] is what [copytree] then [rmtree] make of the
      file system, with the error that stopped them if any, when the rename
      of a directory has failed. *)
Record Env := {
  home : Path;
  stat_poll : Path → nat → StatResult;
  io_fault : Path → option Exn;
  copy_fault : Path → Path → option (Exn * option N);
  unlink_fault : Path → option Exn;
  move_tree : Path → Path → gmap Path Node → option Exn * gmap Path Node
}.

(** The outcome of a computation on the file system: a value, an exception,
    or no answer within the fuel of a loop. *)
Inductive Result (A : Type) :=
| Return (a : A) (fs : gmap Path Node)
| Raise (e : Exn) (fs : gmap Path Node)
| Diverge.
Arguments Return {A} a fs.
Arguments Raise {A} e fs.
Arguments Diverge {A}.

Definition M (A : Type) : Type := gmap Path Node → Result A.

#[global] Instance M_ret : MRet M := λ A a fs, Return a fs.

#[global] Instance M_bind : MBind M := λ A B f m fs,
  match m fs with
  | Return a fs' => f a fs'
  | Raise e fs' => Raise e fs'
  | Diverge => Diverge
  end.

Definition raise {A} (e : Exn) : M A := λ fs, Raise e fs.

(** [try: m except Exception as e: handler(e)] *)
Definition try_except {A} (m : M A) (handler : Exn → M A) : M A := λ fs,
  match m fs with
  | Raise e fs' => handler e fs'
  | r => r
  end.

(** The node a path leads to. The current directory [Path(".")] and the
    roots are directories that always exist. *)
Definition node_at (fs : gmap Path Node) (p : Path) : option Node :=
  match p with
  | [] => Some Dir
  | [r] => if is_root r then Some Dir else fs !! p
  | _ => fs !! p
  end.

(** [p.exists()] *)
Definition path_exists (fs : gmap Path Node) (p : Path) : bool :=
  match node_at fs p with
  | Some _ => true
  | None => false
  end.

(** [p.is_dir()] *)
Definition is_dir (fs : gmap Path Node) (p : Path) : bool :=
  match node_at fs p with
  | Some Dir => true
  | _ => false
  end.

(** [os.mkdir(p)] *)
Definition os_mkdir (env : Env) (p : Path) : M unit := λ fs,
  match node_at fs (parent p) with
  | None => Raise FileNotFoundError fs
  | Some (File _) => Raise NotADirectoryError fs
  | Some Dir =>
      if path_exists fs p then Raise FileExistsError fs
      else match io_fault env p with
           | Some e => Raise e fs
           | None => Return () (<[p := Dir]> fs)
           end
  end.

(** [p.mkdir(parents=False, exist_ok=True)] *)
Definition mkdir_exist_ok (env : Env) (p : Path) : M unit := λ fs,
  match os_mkdir env p fs with
  | Raise FileNotFoundError fs' => Raise FileNotFoundError fs'
  | Raise e fs' => if is_dir fs' p then Return () fs' else Raise e fs'
  | r => r
  end.

(** [p.mkdir(parents=True, exist_ok=True)]; the recursion is on the parent,
    [depth] bounds the number of ancestors. *)
Fixpoint mkdir_parents (depth : nat) (env : Env) (p : Path) : M unit := λ fs,
  match os_mkdir env p fs with
  | Raise FileNotFoundError fs' =>
      if bool_decide (parent p = p) then Raise FileNotFoundError fs'
      else match depth with
           | O => Diverge
           | S depth' =>
               (mkdir_parents depth' env (parent p) ≫= λ _, mkdir_exist_ok env p) fs'
           end
  | Raise e fs' => if is_dir fs' p then Return () fs' else Raise e fs'
  | r => r
  end.

Definition mkdir (env : Env) (p : Path) : M unit :=
  mkdir_parents (length p) env p.

(** The keys of a moved directory tree. *)
Definition rename_key (src dst k : Path) : Path :=
  if bool_decide (src `prefix_of` k) then dst ++ drop (length src) k else k.

(** [os.rename(src, dst)] under the POSIX rules. The rename of a file onto
    a name of the same file does nothing and succeeds; in this file system,
    where a file has one name, that is the case [src = dst]. *)
Definition os_rename (env : Env) (src dst : Path) : M unit := λ fs,
  match node_at fs src with
  | None => Raise FileNotFoundError fs
  | Some node =>
      match node_at fs (parent dst) with
      | None => Raise FileNotFoundError fs
      | Some (File _) => Raise NotADirectoryError fs
      | Some Dir =>
          if bool_decide (src = dst) then Return () fs
          else match node, node_at fs dst with
               | File _, Some Dir => Raise IsADirectoryError fs
               | Dir, Some (File _) => Raise NotADirectoryError fs
               | Dir, Some Dir => Raise OSError fs
               | File _, _ =>
                   match io_fault env dst with
                   | Some e => Raise e fs
                   | None => Return () (<[dst := node]> (delete src fs))
                   end
               | Dir, None =>
                   if bool_decide (src `prefix_of` dst) then Raise OSError fs
                   else match io_fault env dst with
                        | Some e => Raise e fs
                        | None => Return () (kmap (rename_key src dst) fs)
                        end
               end
      end
  end.

(** [str(p)] *)
Definition to_string (p : Path) : string :=
  match p with
  | [] => "."
  | r :: rest =>
      if is_root r then r +:+ String.concat "/" rest else String.concat "/" p
  end.

(** [shutil.copy2(src, dst)]: into [dst] when [dst] is a directory.
    [copyfile] refuses to copy a file onto itself, opens [src] for reading,
    then [dst] for writing, which creates it or empties it, and writes;
    [copystat] follows. An error on the way leaves [dst] with what had been
    written. *)
Definition copy2 (env : Env) (src dst : Path) : M unit := λ fs,
  let dst := if is_dir fs dst then joinpath dst (name src) else dst in
  if bool_decide (src = dst) && path_exists fs src then Raise ShutilError fs
  else
    match node_at fs src with
    | None => Raise FileNotFoundError fs
    | Some Dir => Raise IsADirectoryError fs
    | Some (File size) =>
        match node_at fs (parent dst) with
        | None => Raise FileNotFoundError fs
        | Some (File _) => Raise NotADirectoryError fs
        | Some Dir =>
            match node_at fs dst with
            | Some Dir => Raise IsADirectoryError fs
            | _ =>
                match copy_fault env src dst with
                | Some (e, None) => Raise e fs
                | Some (e, Some written) => Raise e (<[dst := File written]> fs)
                | None => Return () (<[dst := File size]> fs)
                end
            end
        end
    end.

(** [os.unlink(p)] *)
Definition os_unlink (env : Env) (p : Path) : M unit := λ fs,
  match node_at fs p with
  | None => Raise FileNotFoundError fs
  | Some Dir => Raise IsADirectoryError fs
  | Some (File _) =>
      match unlink_fault env p with
      | Some e => Raise e fs
      | None => Return () (delete p fs)
      end
  end.

(** The [try: os.rename(src, real_dst) except OSError: ...] of
    [shutil.move]. Every exception of [os.rename] is an [OSError]. After it,
    a directory is moved by [copytree] and [rmtree], and a file by
    [copy2(src, real_dst)] and [os.unlink(src)]; the file system has no
    symbolic link. *)
Definition rename_or_copy (env : Env) (src real_dst : Path) : M unit :=
  try_except (os_rename env src real_dst)
             (λ _ fs,
                if is_dir fs src then
                  match move_tree env src real_dst fs with
                  | (Some e, fs') => Raise e fs'
                  | (None, fs') => Return () fs'
                  end
                else (copy2 env src real_dst ≫= λ _, os_unlink env src) fs).

(** [shutil.move(src, dst)]: into [dst] when [dst] is a directory, onto
    [dst] otherwise. *)
Definition shutil_move (env : Env) (src dst : string) : M unit := λ fs,
  let src := of_string src in
  let dst := of_string dst in
  if is_dir fs dst then
    if bool_decide (src = dst) then os_rename env src dst fs
    else
      let real_dst := joinpath dst (name src) in
      if path_exists fs real_dst then Raise ShutilError fs
      else rename_or_copy env src real_dst fs
  else rename_or_copy env src dst fs.

(** ** Destination resolver *)

(** The truth value of [category_info.get("folder_path")]: the key is
    present and its text is not empty. *)
Definition configured_folder (category_info : CategoryInfo) : option string :=
  match folder_path category_info with
  | Some folder => if bool_decide (folder = "") then None else Some folder
  | None => None
  end.

(** [Path(self.config.get("downloads_folder", str(Path.home() / "Downloads")))] *)
Definition downloads_path (env : Env) (config : Config) : Path :=
  of_string (get (downloads_folder config) (to_string (joinpath (home env) "Downloads"))).

Definition get_destination_path (env : Env) (config : Config)
    (file_path : string) (category : string) : M (option Path) :=
  match lookup_item category (get (categories config) []) with
  | Some category_info =>
      match configured_folder category_info with
      | Some folder =>
          let dest_folder := of_string folder in
          mkdir env dest_folder ≫= λ _,
          mret (Some (joinpath dest_folder (name (of_string file_path))))
      | None => mret None
      end
  | None =>
      let downloads_folder := downloads_path env config in
      let others_folder := joinpath downloads_folder "Others" in
      mkdir env others_folder ≫= λ _,
      let dest_folder := others_folder in
      mkdir env dest_folder ≫= λ _,
      mret (Some (joinpath dest_folder (name (of_string file_path))))
  end.

(** ** Duplicate handler *)

(** [f"{file_stem}_{counter}{file_suffix}"] *)
Definition new_name (file_stem file_suffix : string) (counter : nat) : string :=
  file_stem +:+ "_" +:+ pretty counter +:+ file_suffix.

(** The path the loop tries for a given counter. *)
Definition candidate (original_dest_path : Path) (counter : nat) : Path :=
  joinpath (parent original_dest_path)
           (new_name (stem original_dest_path) (suffix original_dest_path) counter).

(** The [while dest_path.exists()] loop of the rename branch; one unit of
    fuel per iteration. *)
Fixpoint rename_loop (fuel : nat) (fs : gmap Path Node) (original_dest_path : Path)
    (dest_path : Path) (counter : nat) : option Path :=
  if path_exists fs dest_path then
    match fuel with
    | O => None
    | S fuel' =>
        rename_loop fuel' fs original_dest_path
                    (candidate original_dest_path counter) (S counter)
    end
  else Some dest_path.

Definition handle_duplicate (config : Config) (src_path dest_path : Path)
    : M (option Path) := λ fs,
  if negb (path_exists fs dest_path) then Return (Some dest_path) fs
  else
    let handle_method := get (handle_duplicates config) "rename" in
    if bool_decide (handle_method = "skip") then Return None fs
    else if bool_decide (handle_method = "overwrite") then Return (Some dest_path) fs
    else
      match rename_loop (S (size fs)) fs dest_path dest_path 1 with
      | Some dest_path => Return (Some dest_path) fs
      | None => Diverge
      end.

(** The configuration with another value under ["handle_duplicates"]. *)
Definition with_handle_duplicates (config : Config) (method : option string) : Config :=
  {| downloads_folder := downloads_folder config;
     handle_duplicates := method;
     categories := categories config |}.

(** ** Readiness detector *)

(** The [while total_wait_time < max_wait_time] loop. [poll] counts the
    calls of [stat] so far. The verdict comes with the value of
    [total_wait_time] at the [return]: the time slept until then. *)
Fixpoint ready_loop (fuel : nat) (stat : nat → StatResult)
    (stability_period check_interval max_wait_time : Z)
    (poll : nat) (last_size stable_time total_wait_time : Z) : option (bool * Z) :=
  if total_wait_time <? max_wait_time then
    match fuel with
    | O => None
    | S fuel' =>
        match stat poll with
        | StSize current_size =>
            if Z.of_N current_size =? last_size then
              let stable_time := stable_time + check_interval in
              if stable_time >=? stability_period then Some (true, total_wait_time)
              else ready_loop fuel' stat stability_period check_interval max_wait_time
                              (S poll) last_size stable_time
                              (total_wait_time + check_interval)
            else
              let stable_time := 0 in
              let last_size := Z.of_N current_size in
              ready_loop fuel' stat stability_period check_interval max_wait_time
                         (S poll) last_size stable_time
                         (total_wait_time + check_interval)
        | StNotFound => Some (false, total_wait_time)
        | StError => Some (false, total_wait_time)
        end
    end
  else Some (false, total_wait_time).

(** The number of iterations a positive [check_interval] allows. *)
Definition poll_bound (check_interval max_wait_time : Z) : nat :=
  Z.to_nat (max_wait_time / check_interval + 1).

(** The detector with its verdict and the time of the verdict. A file that
    does not exist at the start is refused before any poll, at time 0. *)
Definition is_file_ready_at (env : Env) (file_path : Path)
    (stability_period check_interval max_wait_time : Z)
    (fs : gmap Path Node) : option (bool * Z) :=
  if negb (path_exists fs file_path) then Some (false, 0)
  else
    let last_size := -1 in
    let stable_time := 0 in
    let total_wait_time := 0 in
    ready_loop (poll_bound check_interval max_wait_time)
               (stat_poll env file_path)
               stability_period check_interval max_wait_time
               O last_size stable_time total_wait_time.

Definition _is_file_ready (env : Env) (file_path : Path)
    (stability_period check_interval max_wait_time : Z) : M bool := λ fs,
  match is_file_ready_at env file_path stability_period check_interval max_wait_time fs with
  | Some (ready, _) => Return ready fs
  | None => Diverge
  end.

(** The defaults of the signature, in milliseconds. *)
Definition default_stability_period : Z := 2000.
Definition default_check_interval : Z := 500.
Definition default_max_wait_time : Z := 30000.

(** ** Orchestrator *)

Inductive SkipReason :=
| FileNotFound | HiddenOrTemporary | NotInDownloadsFolder | NotReady
| NoDestinationFolder | AlreadyOrganized | DuplicateSkipped.

(** What a run ends in. [organize_file] returns [True] for [Moved] and
    [False] for the others, which differ in the line they log. *)
Inductive MoveOutcome :=
| Moved (from to : Path) (category : string)
| Skipped (path : Path) (reason : SkipReason)
| Failed (path : Path) (error : Exn).

Definition returned (outcome : MoveOutcome) : bool :=
  match outcome with
  | Moved _ _ _ => true
  | _ => false
  end.

(** The value a computation returns, when it returns one. *)
Definition returned_value {A} (r : Result A) : option A :=
  match r with
  | Return a _ => Some a
  | _ => None
  end.

(** The [try] block of [organize_file]. *)
Definition organize_file_try (env : Env) (config : Config) (file_path : Path)
    : M MoveOutcome := λ fs,
  if negb (path_exists fs file_path) then Return (Skipped file_path FileNotFound) fs
  else if PyStr.startswith "." (name file_path)
          || PyStr.endswith ".tmp" (name file_path)
          || is_dir fs file_path
  then Return (Skipped file_path HiddenOrTemporary) fs
  else
    let downloads_folder := downloads_path env config in
    if bool_decide (parent file_path = downloads_folder) then
      (_is_file_ready env file_path default_stability_period
                      default_check_interval default_max_wait_time ≫= λ ready,
       if negb ready then mret (Skipped file_path NotReady)
       else
         let category := get_file_category config (to_string file_path) in
         get_destination_path env config (to_string file_path) category ≫= λ dest_path,
         match dest_path with
         | None => mret (Skipped file_path NoDestinationFolder)
         | Some dest_path =>
             if bool_decide (parent file_path = parent dest_path)
             then mret (Skipped file_path AlreadyOrganized)
             else
               handle_duplicate config file_path dest_path ≫= λ final_dest_path,
               match final_dest_path with
               | None => mret (Skipped file_path DuplicateSkipped)
               | Some final_dest_path =>
                   shutil_move env (to_string file_path) (to_string final_dest_path) ≫= λ _,
                   mret (Moved file_path final_dest_path category)
               end
         end) fs
    else Return (Skipped file_path NotInDownloadsFolder) fs.

(** [organize_file]: [file_path = Path(file_path)], the [try] block, and
    the [except Exception] clause. *)
Definition organize_file (env : Env) (config : Config) (file_path : string)
    : M MoveOutcome :=
  let file_path := of_string file_path in
  try_except (organize_file_try env config file_path)
             (λ e, mret (Failed file_path e)).

(** ** The readiness detector of the specification *)

Module ReadinessSpec.

(** [stableElapsed] after the poll [i]: reset to 0 whenever the size
    changes from the previous poll, incremented by the poll interval
    otherwise. The first poll has no previous one. *)
Fixpoint stable_elapsed (stat : nat → StatResult) (poll_interval : Z) (i : nat) : Z :=
  match i with
  | O => 0
  | S j =>
      match stat j, stat (S j) with
      | StSize previous, StSize current =>
          if (current =? previous)%N
          then stable_elapsed stat poll_interval j + poll_interval
          else 0
      | _, _ => 0
      end
  end.

Section Detector.
Variable stat : nat → StatResult.
Variables stabilityThreshold pollInterval maxWait : Z.

(** The poll [i] happens [i] intervals after the start. *)
Definition poll_time (i : nat) : Z := Z.of_nat i * pollInterval.

Definition observed (i : nat) : Prop := ∃ size, stat i = StSize size.

(** The detector goes on after the poll [i]. *)
Definition continues (i : nat) : Prop :=
  poll_time i < maxWait ∧ observed i
  ∧ stable_elapsed stat pollInterval i < stabilityThreshold.

(** The detector answers [true] at the poll [i]. *)
Definition ready_at (i : nat) : Prop :=
  poll_time i < maxWait ∧ observed i
  ∧ stabilityThreshold ≤ stable_elapsed stat pollInterval i.

(** The detector answers [false] at the poll [i]: [maxWait] has elapsed,
    or the file is gone or unreadable. *)
Definition refused_at (i : nat) : Prop :=
  maxWait ≤ poll_time i ∨ ¬ observed i.

(** The verdict [ready], given at the time [t]. *)
Definition verdict (ready : bool) (t : Z) : Prop :=
  ∃ i, t = poll_time i ∧ (∀ j, (j < i)%nat → continues j)
       ∧ if ready then ready_at i else refused_at i.
End Detector.

End ReadinessSpec.

(** ** The state of the readiness loop *)

(** The values of [last_size] and [stable_time] when the loop is about to
    make the poll [i], all the polls before having been answered by a
    size. *)
Definition last_size_before (stat : nat → StatResult) (i : nat) : Z :=
  match i with
  | O => -1
  | S j => match stat j with StSize size => Z.of_N size | _ => -1 end
  end.

Definition stable_time_before (stat : nat → StatResult) (check_interval : Z) (i : nat) : Z :=
  match i with
  | O => 0
  | S j => ReadinessSpec.stable_elapsed stat check_interval j
  end.

(** The guards of the orchestrator before the readiness wait. *)
Definition passes_guards (env : Env) (config : Config) (fs : gmap Path Node)
    (file_path : Path) : Prop :=
  path_exists fs file_path = true
  ∧ PyStr.startswith "." (name file_path) = false
  ∧ PyStr.endswith ".tmp" (name file_path) = false
  ∧ is_dir fs file_path = false
  ∧ parent file_path = downloads_path env config.

(** ** What a computation leaves behind *)

(** Every node of [fs] is still there in [fs']. *)
Definition extends (fs fs' : gmap Path Node) : Prop :=
  ∀ q node, node_at fs q = Some node → node_at fs' q = Some node.

(** A result that is an answer, keeps the nodes of [fs], and whose value
    satisfies [Q]. *)
Definition answers {A} (r : Result A) (fs : gmap Path Node)
    (Q : A → gmap Path Node → Prop) : Prop :=
  match r with
  | Return a fs' => extends fs fs' ∧ Q a fs'
  | Raise _ fs' => extends fs fs'
  | Diverge => False
  end.


(** ** Well-formed paths *)

(** A component of a path: not empty, not ["."], without separator. *)
Definition component (s : string) : bool :=
  negb (PyStr.contains "/" s) && bool_decide (s ≠ "") && bool_decide (s ≠ ".").

(** The parts [Path] builds: an optional root, then components. *)
Definition wf_path (p : Path) : bool :=
  match p with
  | [] => true
  | r :: rest =>
      (bool_decide (r = "/" ∨ r = "//") || component r) && forallb component rest
  end.

(** ** Scenarios *)

(** The end-to-end setting of the specification: the watched folder [/dl],
    the rule [Images: {jpg, png} → /dl/Images], and a few files. *)
Module Scenario.

Definition images : CategoryInfo :=
  {| folder_path := Some "/dl/Images"; enabled := Some true;
     extensions := Some ["jpg"; "png"] |}.

Definition config_with (policy : option string) : Config :=
  {| downloads_folder := Some "/dl"; handle_duplicates := policy;
     categories := Some [("Images", images)] |}.

Definition config_rename : Config := config_with (Some "rename").

(** A rule that lists the empty extension. *)
Definition config_blank_extension : Config :=
  {| downloads_folder := Some "/dl"; handle_duplicates := Some "rename";
     categories :=
       Some [("Misc", {| folder_path := Some "/dl/Misc"; enabled := Some true;
                         extensions := Some [""] |});
             ("Images", images)] |}.


(** Two overlapping rules, the first of them disabled in the second list. *)
Definition overlapping (first_enabled : bool) : Config :=
  {| downloads_folder := Some "/dl"; handle_duplicates := None;
     categories :=
       Some [("Archives", {| folder_path := Some "/dl/Archives";
                             enabled := Some first_enabled;
                             extensions := Some ["exe"; "zip"] |});
             ("Executables", {| folder_path := Some "/dl/Programs";
                                enabled := None;
                                extensions := Some ["exe"] |})] |}.

Definition photo : Path := of_string "/dl/photo.jpg".
Definition images_photo : Path := of_string "/dl/Images/photo.jpg".

Definition fs_dl : gmap Path Node :=
  list_to_map [(of_string "/dl", Dir);
               (photo, File 100);
               (of_string "/dl/unknown.xyz", File 7);
               (of_string "/dl/Images", Dir);
               (images_photo, File 50);
               (of_string "/dl/Images/photo_1.jpg", File 60)].

(** Every poll sees the same size: the writer has finished. *)
Definition env_stable : Env :=
  {| home := of_string "/home/user";
     stat_poll := λ _ _, StSize 100;
     io_fault := λ _, None;
     copy_fault := λ _ _, None;
     unlink_fault := λ _, None;
     move_tree := λ _ _ fs, (Some OSError, fs) |}.

(** The file is deleted between the second and the third poll. *)
Definition env_vanishing : Env :=
  {| home := of_string "/home/user";
     stat_poll := λ _ i, if (i <? 2)%nat then StSize 100 else StNotFound;
     io_fault := λ _, None;
     copy_fault := λ _ _, None;
     unlink_fault := λ _, None;
     move_tree := λ _ _ fs, (Some OSError, fs) |}.

(** The file grows at every poll of the wait. *)
Definition env_growing : Env :=
  {| home := of_string "/home/user";
     stat_poll := λ _ i, StSize (N.of_nat i);
     io_fault := λ _, None;
     copy_fault := λ _ _, None;
     unlink_fault := λ _, None;
     move_tree := λ _ _ fs, (Some OSError, fs) |}.

(** The size of a file written at one byte per millisecond up to 800
    bytes: it stops growing at 800 ms, between the second and the third
    poll. *)
Definition size_at (t : Z) : N := Z.to_N (Z.min t 800).

(** A download that pauses: written up to 800 ms, unchanged for 2.1 s, and
    rewritten at 2.9 s. *)
Definition size_paused (t : Z) : N :=
  if t <? 2900 then Z.to_N (Z.min t 800) else 700%N.

Definition env_paused : Env :=
  {| home := of_string "/home/user";
     stat_poll := λ _ i, StSize (size_paused (Z.of_nat i * 500));
     io_fault := λ _, None;
     copy_fault := λ _ _, None;
     unlink_fault := λ _, None;
     move_tree := λ _ _ fs, (Some OSError, fs) |}.

Definition env_download : Env :=
  {| home := of_string "/home/user";
     stat_poll := λ _ i, StSize (size_at (Z.of_nat i * 500));
     io_fault := λ _, None;
     copy_fault := λ _ _, None;
     unlink_fault := λ _, None;
     move_tree := λ _ _ fs, (Some OSError, fs) |}.

(** The destination folder refuses new files. *)
Definition env_read_only : Env :=
  {| home := of_string "/home/user";
     stat_poll := λ _ _, StSize 100;
     io_fault := λ p, if bool_decide (parent p = of_string "/dl/Images")
                      then Some PermissionError else None;
     copy_fault := λ _ dst, if bool_decide (parent dst = of_string "/dl/Images")
                            then Some (PermissionError, None) else None;
     unlink_fault := λ _, None;
     move_tree := λ _ _ fs, (Some PermissionError, fs) |}.

(** The folder [/dl/Images] is on another device: no file is renamed into
    it, and a copy does the move. *)
Definition env_other_device : Env :=
  {| home := of_string "/home/user";
     stat_poll := λ _ _, StSize 100;
     io_fault := λ p, if bool_decide (parent p = of_string "/dl/Images")
                      then Some OSError else None;
     copy_fault := λ _ _, None;
     unlink_fault := λ _, None;
     move_tree := λ _ _ fs, (Some OSError, fs) |}.

(** The other device is full after 40 bytes of the copy. *)
Definition env_device_full : Env :=
  {| home := of_string "/home/user";
     stat_poll := λ _ _, StSize 100;
     io_fault := λ p, if bool_decide (parent p = of_string "/dl/Images")
                      then Some OSError else None;
     copy_fault := λ _ _, Some (OSError, Some 40%N);
     unlink_fault := λ _, None;
     move_tree := λ _ _ fs, (Some OSError, fs) |}.

End Scenario.

(** ** The default configuration *)

(** One entry of the class attribute [FILE_CATEGORIES]. *)
Record CategoryDefault := {
  default_extensions : list string;
  default_folder : string
}.

(** [FileOrganizer.FILE_CATEGORIES], in the order of the source. *)
Definition FILE_CATEGORIES : list (string * CategoryDefault) := [
  ("Images",
   {| default_extensions := [
        "jpg"; "jpeg"; "png"; "gif"; "bmp"; "tiff"; "tif"; "webp"; "svg";
        "ico"; "raw"; "cr2"; "nef"; "arw"; "dng"; "psd"; "ai"; "eps"; "heic";
        "heif"; "jfif"; "jp2"; "jpx"; "j2k"; "j2c"];
      default_folder := "Images" |});
  ("Videos",
   {| default_extensions := [
        "mp4"; "avi"; "mkv"; "mov"; "wmv"; "flv"; "webm"; "m4v"; "3gp";
        "mpg"; "mpeg"; "mts"; "m2ts"; "vob"; "ogv"; "dv"; "f4v"; "asf"; "rm";
        "rmvb"; "ts"; "mxf"; "roq"; "nsv"];
      default_folder := "Videos" |});
  ("Audio",
   {| default_extensions := [
        "mp3"; "wav"; "flac"; "aac"; "ogg"; "wma"; "m4a"; "opus"; "aiff";
        "au"; "ra"; "dts"; "ac3"; "amr"; "ape"; "cda"; "mid"; "midi"; "mka";
        "mp2"; "mpa"; "mpc"; "oga"; "spx"; "tta"; "voc"; "vqf"; "w64"];
      default_folder := "Music" |});
  ("Documents",
   {| default_extensions := [
        "pdf"; "doc"; "docx"; "txt"; "rtf"; "odt"; "pages"; "tex"; "wpd";
        "wps"; "xps"; "oxps"; "mobi"; "azw"; "azw3"; "epub"; "fb2"; "lit";
        "pdb"; "tcr"; "prc"; "djvu"; "djv"; "cbr"; "cbz"; "cb7"; "cbt"];
      default_folder := "Documents" |});
  ("Code",
   {| default_extensions := [
        "py"; "js"; "html"; "css"; "java"; "cpp"; "c"; "php"; "rb"; "go";
        "rs"; "swift"; "kt"; "ts"; "jsx"; "tsx"; "vue"; "scss"; "sass";
        "less"; "sql"; "sh"; "bat"; "ps1"; "vbs"; "pl"; "r"; "scala"; "clj";
        "hs"; "elm"; "dart"; "lua"; "groovy"; "coffee"; "cs"; "vb"; "fs";
        "ml"; "pas"; "dpr"; "asm"; "s"; "forth"; "lisp"; "scm"; "rkt"; "jl";
        "nim"; "cr"; "d"; "zig"];
      default_folder := "Code" |});
  ("Archives",
   {| default_extensions := [
        "zip"; "rar"; "7z"; "tar"; "gz"; "bz2"; "xz"; "lz"; "lzma"; "z";
        "cab"; "iso"; "dmg"; "pkg"; "deb"; "rpm"; "msi"; "exe"; "app"; "apk";
        "ipa"; "jar"; "war"; "ear"; "ace"; "arj"; "lha"; "lzh"; "sit";
        "sitx"; "sea"; "zoo"; "cpio"; "shar"; "lbr"; "mar"; "sbx"; "tar.gz";
        "tar.bz2"; "tar.xz"; "tgz"; "tbz"; "tbz2"; "txz"];
      default_folder := "Archives" |});
  ("Spreadsheets",
   {| default_extensions := [
        "xlsx"; "xls"; "csv"; "ods"; "numbers"; "xlsm"; "xlsb"; "xlt";
        "xltx"; "xltm"; "ots"; "fods"; "uos"; "dif"; "sylk"; "slk"; "pxl";
        "wb1"; "wb2"; "wb3"; "qpw"; "123"; "wk1"; "wk3"; "wk4"; "wks"];
      default_folder := "Spreadsheets" |});
  ("Presentations",
   {| default_extensions := [
        "pptx"; "ppt"; "odp"; "key"; "pps"; "ppsx"; "pptm"; "ppsm"; "pot";
        "potx"; "potm"; "otp"; "fodp"; "uop"; "shf"; "show"; "prez"; "sti";
        "kth"];
      default_folder := "Presentations" |});
  ("Fonts",
   {| default_extensions := [
        "ttf"; "otf"; "woff"; "woff2"; "eot"; "pfb"; "pfm"; "afm"; "bdf";
        "pcf"; "snf"; "pfa"; "gsf"; "fon"; "fnt"; "ttc"; "otc"; "dfont";
        "suit"; "lwfn"; "ffil"; "vfb"; "sfd"; "ufd"];
      default_folder := "Fonts" |});
  ("Executables",
   {| default_extensions := [
        "exe"; "msi"; "dmg"; "pkg"; "deb"; "rpm"; "run"; "bin"; "app";
        "appimage"; "flatpak"; "snap"; "com"; "scr"; "gadget"; "msp"; "msu";
        "cab"];
      default_folder := "Programs" |})
].

(** The configuration [create_default_config] builds, for the home
    directory [Path.home()]. The key ["enabled"] of the dict, which only the
    window reads, has no field in [Config]; the write of the file by
    [save_config] is left out. *)
Definition create_default_config (home : Path) : Config :=
  let downloads_path := to_string (joinpath home "Downloads") in
  {| downloads_folder := Some downloads_path;
     handle_duplicates := Some "rename";
     categories :=
       Some ((λ item : string * CategoryDefault,
                let (category, info) := item in
                (category,
                 {| folder_path := Some (to_string (joinpath home (default_folder info)));
                    enabled := Some true;
                    extensions := Some (default_extensions info) |}))
             <$> FILE_CATEGORIES) |}.

(** ** The event handler *)

(** A [watchdog] event, as far as the handler reads it. *)
Record FileSystemEvent := {
  is_directory : bool;
  src_path : string;
  dest_path : string
}.

(** [FileOrganizerHandler.on_created]; what [organize_file] returns is
    dropped. *)
Definition on_created (env : Env) (config : Config) (event : FileSystemEvent) : M unit :=
  if negb (is_directory event)
  then organize_file env config (src_path event) ≫= λ _, mret ()
  else mret ().

(** [FileOrganizerHandler.on_moved] *)
Definition on_moved (env : Env) (config : Config) (event : FileSystemEvent) : M unit :=
  if negb (is_directory event)
  then organize_file env config (dest_path event) ≫= λ _, mret ()
  else mret ().

(** ** The configuration window *)

(** [d[key] = f(d[key])] on the items of a dict. *)
Fixpoint update_item {A} (key : string) (f : A → A) (items : list (string * A))
    : list (string * A) :=
  match items with
  | [] => []
  | (k, v) :: rest =>
      if bool_decide (k = key) then (k, f v) :: rest
      else (k, v) :: update_item key f rest
  end.

(** One round of the loop of [FileOrganizerGUI.save_config]: the folder of
    an entry is replaced; a category without entry gets a new one, enabled
    and without extensions, at the end of the dict. *)
Definition save_category (items : list (string * CategoryInfo))
    (category_var : string * string) : list (string * CategoryInfo) :=
  let (category, var) := category_var in
  match lookup_item category items with
  | Some _ =>
      update_item category
        (λ info, {| folder_path := Some var; enabled := enabled info;
                    extensions := extensions info |})
        items
  | None =>
      items ++ [(category, {| folder_path := Some var; enabled := Some true;
                              extensions := Some [] |})]
  end.

(** What [FileOrganizerGUI.save_config] leaves in [self.organizer.config]:
    the new configuration, or the configuration at the [KeyError] of
    [config['categories']]. *)
Inductive GuiSave :=
| Saved (config : Config)
| KeyError (config : Config).

(** [FileOrganizerGUI.save_config], for the text [downloads_var] of the
    downloads entry and the texts [category_vars] of the category entries,
    in the order of [self.category_vars]. The key ["enabled"] and the write
    of the file are left out. *)
Definition gui_save_config (config : Config) (downloads_var : string)
    (category_vars : list (string * string)) : GuiSave :=
  let config :=
    {| downloads_folder := Some downloads_var;
       handle_duplicates := handle_duplicates config;
       categories := categories config |} in
  match category_vars, categories config with
  | [], _ => Saved config
  | _ :: _, None => KeyError config
  | _ :: _, Some items =>
      Saved {| downloads_folder := downloads_folder config;
               handle_duplicates := handle_duplicates config;
               categories := Some (foldl save_category items category_vars) |}
  end.

(** The configuration after [save_config], raised or not. *)
Definition config_of (result : GuiSave) : Config :=
  match result with
  | Saved config => config
  | KeyError config => config
  end.

(** [FileOrganizerGUI.load_config]: the texts the entries show, for the
    categories [keys] of [self.category_vars]. *)
Definition gui_load_config (config : Config) (keys : list string)
    : string * list (string * string) :=
  (get (downloads_folder config) "",
   (λ category,
      let category_info :=
        get (lookup_item category (get (categories config) []))
            {| folder_path := None; enabled := None; extensions := None |} in
      (category, get (folder_path category_info) ""))
   <$> keys).

(** The keys of [self.category_vars], set by [create_category_widgets]. *)
Definition category_keys : list string := fst <$> FILE_CATEGORIES.

(** ** Extensions that can match *)

(** An extension without dot and without upper-case ASCII letter. *)
Definition plain_extension (ext : string) : bool :=
  negb (PyStr.contains "." ext) && bool_decide (PyStr.lower ext = ext).

(** The entry without the extensions that are not plain. *)
Definition plain_info (info : CategoryInfo) : CategoryInfo :=
  {| folder_path := folder_path info;
     enabled := enabled info;
     extensions := List.filter plain_extension <$> extensions info |}.

Definition plain_items (items : list (string * CategoryInfo))
    : list (string * CategoryInfo) :=
  (λ item : string * CategoryInfo, (item.1, plain_info item.2)) <$> items.

Definition plain_config (config : Config) : Config :=
  {| downloads_folder := downloads_folder config;
     handle_duplicates := handle_duplicates config;
     categories := option_map plain_items (categories config) |}.

(** The folder a category resolves to, when it has one: the configured
    folder of its entry, or ["Others"] in the downloads folder for a
    category without entry. *)
Definition category_folder (env : Env) (config : Config) (category : string) : option Path :=
  match lookup_item category (get (categories config) []) with
  | Some category_info => of_string <$> configured_folder category_info
  | None => Some (joinpath (downloads_path env config) "Others")
  end.

(** * Properties *)

(** ** Strings *)

Section Strings.
Implicit Types (s t : string) (c : ascii).

Lemma contains_app c s t :
  PyStr.contains c (s +:+ t) = PyStr.contains c s || PyStr.contains c t.
Proof.
  induction s as [|a s IH]; [done|].
  change (String a s +:+ t) with (String a (s +:+ t)). simpl.
  rewrite IH. by destruct (Ascii.eqb a c).
Qed.

Lemma contains_slice_to c i s :
  PyStr.contains c s = false → PyStr.contains c (PyStr.slice_to i s) = false.
Proof.
  revert s. induction i as [|i IH]; intros [|a s]; simpl; try done.
  intros [Ha Hs]%orb_false_iff. rewrite Ha. simpl. by apply IH.
Qed.

Lemma contains_slice_from c i s :
  PyStr.contains c s = false → PyStr.contains c (PyStr.slice_from i s) = false.
Proof.
  revert s. induction i as [|i IH]; intros [|a s]; simpl; try done.
  intros [Ha Hs]%orb_false_iff. by apply IH.
Qed.

Lemma split_no_sep c s : PyStr.contains c s = false → PyStr.split c s = [s].
Proof.
  induction s as [|a s IH]; [done|]. simpl.
  intros [Ha Hs]%orb_false_iff. rewrite Ha, IH; done.
Qed.

Lemma split_pieces c s : Forall (λ x, PyStr.contains c x = false) (PyStr.split c s).
Proof.
  induction s as [|a s IH]; simpl.
  - by constructor.
  - destruct (Ascii.eqb a c) eqn:Ha.
    + by constructor.
    + destruct (PyStr.split c s) as [|x xs]; constructor; try done.
      * by simpl; rewrite Ha.
      * inversion IH; subst. simpl. by rewrite Ha.
      * by inversion IH.
Qed.

Lemma string_length_app s t : String.length (s +:+ t) = (String.length s + String.length t)%nat.
Proof.
  induction s as [|a s IH]; [done|].
  change (String a s +:+ t) with (String a (s +:+ t)). simpl. by rewrite IH.
Qed.

Lemma app_inv_tail_string s1 s2 t : s1 +:+ t = s2 +:+ t → s1 = s2.
Proof.
  revert s2. induction s1 as [|a s1 IH]; intros [|b s2] Heq; try done.
  - apply (f_equal String.length) in Heq.
    rewrite !string_length_app in Heq. simpl in Heq. lia.
  - apply (f_equal String.length) in Heq.
    rewrite !string_length_app in Heq. simpl in Heq. lia.
  - change (String a (s1 +:+ t) = String b (s2 +:+ t)) in Heq.
    injection Heq as -> Heq. f_equal. by apply IH.
Qed.

Lemma contains_pretty_N_go (x : N) s :
  PyStr.contains "/" s = false → PyStr.contains "/" (pretty_N_go x s) = false.
Proof.
  revert s. induction (N.lt_wf_0 x) as [x _ IH]; intros s Hs.
  assert (x = 0 ∨ 0 < x)%N as [->|?] by lia.
  - by rewrite pretty_N_go_0.
  - rewrite pretty_N_go_step by done. apply IH.
    { by apply N.div_lt. }
    simpl. rewrite Hs. unfold pretty_N_char. by repeat case_match.
Qed.

Lemma contains_pretty (n : nat) : PyStr.contains "/" (pretty n) = false.
Proof.
  unfold pretty, pretty_nat, pretty, pretty_N.
  case_decide; [done|]. by apply contains_pretty_N_go.
Qed.
End Strings.

(** ** Paths *)

Section Paths.
Implicit Types (s : string) (p q : Path).

Lemma component_no_sep s : component s = true → PyStr.contains "/" s = false.
Proof.
  unfold component. intros [[H _]%andb_true_iff _]%andb_true_iff.
  by apply negb_true_iff.
Qed.

Lemma no_sep_not_root s : PyStr.contains "/" s = false → is_root s = false.
Proof.
  destruct s as [|a s]; [done|]. simpl.
  intros [Ha _]%orb_false_iff. apply Ascii.eqb_neq in Ha.
  destruct a as [[] [] [] [] [] [] [] []]; try done.
Qed.

Lemma leading_seps_no_sep s : PyStr.contains "/" s = false → leading_seps s = O.
Proof.
  destruct s as [|a s]; [done|]. simpl.
  intros [Ha _]%orb_false_iff. apply Ascii.eqb_neq in Ha.
  destruct a as [[] [] [] [] [] [] [] []]; try done.
Qed.

Lemma of_string_component s : component s = true → of_string s = [s].
Proof.
  intros Hs. pose proof (component_no_sep _ Hs) as Hsep.
  unfold of_string, root_of, components.
  rewrite (leading_seps_no_sep _ Hsep), (split_no_sep _ _ Hsep). simpl.
  unfold component in Hs.
  apply andb_true_iff in Hs as [[_ H1%bool_decide_eq_true]%andb_true_iff
                                 H2%bool_decide_eq_true].
  rewrite filter_cons_True by done. done.
Qed.

Lemma components_component s : forallb component (components s) = true.
Proof.
  apply forallb_forall. intros x Hx%list_elem_of_In.
  apply list_elem_of_filter in Hx as [[H1 H2] Hx].
  pose proof (split_pieces "/" s) as Hall.
  rewrite Forall_forall in Hall. specialize (Hall _ Hx).
  unfold component. rewrite Hall. simpl.
  rewrite !bool_decide_eq_true_2 by done. done.
Qed.

Lemma wf_path_components p : forallb component p = true → wf_path p = true.
Proof.
  destruct p as [|r rest]; [done|]. simpl.
  intros [-> ->]%andb_true_iff. by rewrite orb_true_r.
Qed.

Lemma wf_of_string s : wf_path (of_string s) = true.
Proof.
  unfold of_string, root_of.
  pose proof (components_component s).
  destruct (leading_seps s) as [|[|[|n]]]; simpl;
    auto using wf_path_components.
Qed.

Lemma wf_path_tail r rest : wf_path (r :: rest) = true → forallb component rest = true.
Proof. simpl. by intros [_ ?]%andb_true_iff. Qed.

Lemma wf_path_head r rest :
  wf_path (r :: rest) = true → is_root r = false → component r = true.
Proof.
  simpl. intros [[Hr%bool_decide_eq_true|Hr]%orb_true_iff _]%andb_true_iff; [|done].
  by destruct Hr as [-> | ->].
Qed.

Lemma name_snoc q s : q ≠ [] ∨ is_root s = false → name (q ++ [s]) = s.
Proof.
  intros H. destruct q as [|a q].
  - simpl. destruct H as [?| ->]; done.
  - unfold name. destruct (q ++ [s]) as [|b l] eqn:E.
    { by destruct q. }
    change ((a :: q) ++ [s]) with (a :: q ++ [s]). rewrite E, <- E.
    change (a :: q ++ [s]) with ((a :: q) ++ [s]). apply last_last.
Qed.

Lemma parent_snoc q s : q ≠ [] ∨ is_root s = false → parent (q ++ [s]) = q.
Proof.
  intros H. destruct q as [|a q].
  - simpl. destruct H as [?| ->]; done.
  - unfold parent. destruct (q ++ [s]) as [|b l] eqn:E.
    { by destruct q. }
    change ((a :: q) ++ [s]) with (a :: q ++ [s]). rewrite E, <- E.
    change (a :: q ++ [s]) with ((a :: q) ++ [s]). apply removelast_last.
Qed.

Lemma node_at_snoc (fs : gmap Path Node) q s :
  q ≠ [] ∨ is_root s = false → node_at fs (q ++ [s]) = fs !! (q ++ [s]).
Proof.
  intros H. destruct q as [|a q].
  - simpl. destruct H as [?| ->]; done.
  - change ((a :: q) ++ [s]) with (a :: q ++ [s]).
    unfold node_at. destruct (q ++ [s]) eqn:E; [by destruct q|done].
Qed.

(** The name of a well-formed path has no separator. *)
Lemma wf_name_no_sep p : wf_path p = true → PyStr.contains "/" (name p) = false.
Proof.
  intros Hwf. destruct p as [|r rest]; [done|].
  destruct rest as [|x rest _] using rev_ind.
  - simpl. destruct (is_root r) eqn:Hr; [done|].
    apply component_no_sep. by apply (wf_path_head r []).
  - change (r :: rest ++ [x]) with ((r :: rest) ++ [x]).
    rewrite name_snoc by (by left).
    apply wf_path_tail in Hwf. rewrite forallb_app in Hwf.
    apply andb_true_iff in Hwf as [_ Hx]. simpl in Hx.
    apply component_no_sep. by destruct (component x).
Qed.

Lemma joinpath_component p s : component s = true → joinpath p s = p ++ [s].
Proof.
  intros Hs. unfold joinpath, join. rewrite (of_string_component _ Hs).
  simpl. by rewrite (no_sep_not_root _ (component_no_sep _ Hs)).
Qed.

Lemma wf_join p q : wf_path p = true → wf_path q = true → wf_path (join p q) = true.
Proof.
  intros Hp Hq. unfold join. destruct (is_absolute q) eqn:Habs; [done|].
  destruct q as [|r rest]; [by rewrite app_nil_r|].
  simpl in Habs.
  assert (forallb component (r :: rest) = true) as Hall.
  { simpl. rewrite (wf_path_head _ _ Hq Habs), (wf_path_tail _ _ Hq). done. }
  destruct p as [|a p]; [by apply wf_path_components|].
  change ((a :: p) ++ r :: rest) with (a :: (p ++ r :: rest)).
  simpl in Hp |- *. apply andb_true_iff in Hp as [-> Hp].
  rewrite forallb_app, Hp. exact Hall.
Qed.

Lemma wf_joinpath p s : wf_path p = true → wf_path (joinpath p s) = true.
Proof. intros. apply wf_join; [done|apply wf_of_string]. Qed.
End Paths.

(** ** [Path(str(p))] is [p] *)

Section RoundTrip.
Implicit Types (s t : string) (l p : Path).

Lemma split_app_sep c s t :
  PyStr.contains c s = false →
  PyStr.split c (s +:+ String c t) = s :: PyStr.split c t.
Proof.
  induction s as [|a s IH]; intros Hs.
  - change ("" +:+ String c t) with (String c t). simpl.
    by rewrite Ascii.eqb_refl.
  - change (String a s +:+ String c t) with (String a (s +:+ String c t)).
    simpl in Hs |- *. apply orb_false_iff in Hs as [Ha Hs].
    rewrite Ha, IH by done. done.
Qed.

Lemma split_concat l :
  l ≠ [] → Forall (λ x, PyStr.contains "/" x = false) l →
  PyStr.split "/" (String.concat "/" l) = l.
Proof.
  induction l as [|x [|y l] IH]; intros Hne Hall; [done|..].
  - simpl. apply split_no_sep. by inversion Hall.
  - change (String.concat "/" (x :: y :: l))
      with (x +:+ String "/" (String.concat "/" (y :: l))).
    inversion Hall; subst.
    rewrite split_app_sep by done. f_equal. by apply IH.
Qed.

Lemma components_concat l :
  forallb component l = true → components (String.concat "/" l) = l.
Proof.
  intros Hall. destruct (decide (l = [])) as [->|Hne]; [done|].
  unfold components. rewrite split_concat; [|done|].
  - apply Is_true_true, forallb_True in Hall. clear Hne.
    induction Hall as [|x l Hx Hl IH]; [done|].
    unfold component in Hx.
    apply Is_true_true, andb_true_iff in Hx
      as [[_ H1%bool_decide_eq_true]%andb_true_iff H2%bool_decide_eq_true].
    rewrite filter_cons_True by done. by rewrite IH.
  - apply Is_true_true, forallb_True in Hall. eapply Forall_impl; [exact Hall|].
    intros x Hx. by apply component_no_sep, Is_true_true.
Qed.

Lemma leading_seps_app s t :
  s ≠ "" → PyStr.contains "/" s = false → leading_seps (s +:+ t) = O.
Proof.
  destruct s as [|a s]; [done|]. intros _.
  change (String a s +:+ t) with (String a (s +:+ t)). simpl.
  intros [Ha _]%orb_false_iff. apply Ascii.eqb_neq in Ha.
  destruct a as [[] [] [] [] [] [] [] []]; try done.
Qed.

Lemma leading_seps_concat l :
  forallb component l = true → leading_seps (String.concat "/" l) = O.
Proof.
  destruct l as [|x [|y l]]; [done|..]; simpl forallb;
    intros [Hx _]%andb_true_iff.
  - by apply leading_seps_no_sep, component_no_sep.
  - change (String.concat "/" (x :: y :: l))
      with (x +:+ String "/" (String.concat "/" (y :: l))).
    apply leading_seps_app; [|by apply component_no_sep].
    unfold component in Hx.
    by apply andb_true_iff in Hx as [[_ ?%bool_decide_eq_true]%andb_true_iff _].
Qed.

Lemma components_after_root s : components (String "/" s) = components s.
Proof.
  unfold components. simpl. rewrite filter_cons_False; [done|].
  by intros [? _].
Qed.

Lemma of_to_string p : wf_path p = true → of_string (to_string p) = p.
Proof.
  destruct p as [|r rest]; [done|]. intros Hwf.
  pose proof (wf_path_tail _ _ Hwf) as Hrest.
  unfold to_string. destruct (is_root r) eqn:Hr.
  - simpl in Hwf. apply andb_true_iff in Hwf as [Hroot _].
    apply orb_true_iff in Hroot as [Hroot%bool_decide_eq_true|Hc].
    2:{ apply component_no_sep, no_sep_not_root in Hc. congruence. }
    unfold of_string, root_of.
    destruct Hroot as [-> | ->].
    + change ("/" +:+ String.concat "/" rest) with (String "/" (String.concat "/" rest)).
      rewrite components_after_root, components_concat by done.
      simpl. by rewrite leading_seps_concat.
    + change ("//" +:+ String.concat "/" rest)
        with (String "/" (String "/" (String.concat "/" rest))).
      rewrite !components_after_root, components_concat by done.
      simpl. by rewrite leading_seps_concat.
  - pose proof (wf_path_head _ _ Hwf Hr) as Hc.
    assert (forallb component (r :: rest) = true) as Hall.
    { simpl. by rewrite Hc, Hrest. }
    unfold of_string, root_of.
    by rewrite leading_seps_concat, components_concat.
Qed.
End RoundTrip.

(** ** The candidates of the rename loop *)

Section Candidates.
Implicit Types (dest : Path) (k : nat).

Lemma new_name_component file_stem file_suffix k :
  PyStr.contains "/" file_stem = false →
  PyStr.contains "/" file_suffix = false →
  component (new_name file_stem file_suffix k) = true.
Proof.
  intros Hstem Hsuffix. unfold component, new_name.
  rewrite !contains_app, Hstem, Hsuffix, contains_pretty. simpl.
  assert (PyStr.contains "_" (file_stem +:+ "_" +:+ pretty k +:+ file_suffix) = true)
    as Hus.
  { rewrite !contains_app. simpl. by rewrite orb_true_r. }
  rewrite !bool_decide_eq_true_2; [done|..]; by intros Heq; rewrite Heq in Hus.
Qed.

Lemma stem_no_sep dest : wf_path dest = true → PyStr.contains "/" (stem dest) = false.
Proof.
  intros Hwf%wf_name_no_sep. unfold stem.
  repeat case_match; auto using contains_slice_to.
Qed.

Lemma suffix_no_sep dest : wf_path dest = true → PyStr.contains "/" (suffix dest) = false.
Proof.
  intros Hwf%wf_name_no_sep. unfold suffix.
  repeat case_match; auto using contains_slice_from.
Qed.

(** The candidate is the sibling of the destination with the counter
    before the extension. *)
Lemma candidate_snoc dest k :
  wf_path dest = true →
  candidate dest k = parent dest ++ [new_name (stem dest) (suffix dest) k].
Proof.
  intros Hwf. unfold candidate.
  apply joinpath_component, new_name_component;
    auto using stem_no_sep, suffix_no_sep.
Qed.

Lemma candidate_inj dest k1 k2 :
  wf_path dest = true → candidate dest k1 = candidate dest k2 → k1 = k2.
Proof.
  intros Hwf. rewrite !candidate_snoc by done.
  intros Heq%app_inv_head. injection Heq as Heq. unfold new_name in Heq.
  apply (inj (String.app _)), (inj (String.app _)) in Heq.
  apply app_inv_tail_string in Heq. by apply (inj pretty) in Heq.
Qed.

Lemma candidate_node (fs : gmap Path Node) dest k :
  wf_path dest = true → node_at fs (candidate dest k) = fs !! candidate dest k.
Proof.
  intros Hwf. rewrite candidate_snoc by done.
  apply node_at_snoc. right.
  apply no_sep_not_root, component_no_sep, new_name_component;
    auto using stem_no_sep, suffix_no_sep.
Qed.

Lemma parent_candidate dest k :
  wf_path dest = true → parent (candidate dest k) = parent dest.
Proof.
  intros Hwf. rewrite candidate_snoc by done.
  apply parent_snoc. right.
  apply no_sep_not_root, component_no_sep, new_name_component;
    auto using stem_no_sep, suffix_no_sep.
Qed.
End Candidates.

(** ** The rename loop *)

Section RenameLoop.
Context (fs : gmap Path Node) (dest : Path).
Hypothesis dest_wf : wf_path dest = true.

Lemma candidate_exists k :
  path_exists fs (candidate dest k) = true ↔ candidate dest k ∈ dom fs.
Proof using dest_wf.
  unfold path_exists. rewrite candidate_node by done.
  rewrite elem_of_dom. destruct (fs !! candidate dest k) eqn:E.
  - split; [by eauto|done].
  - split; [done|]. by intros [? ?].
Qed.

(** The candidates are pairwise distinct, so at most [size fs] of them
    exist. *)
Lemma candidates_bounded n :
  (∀ j, (1 ≤ j ≤ n)%nat → path_exists fs (candidate dest j) = true) →
  (n ≤ size fs)%nat.
Proof using dest_wf.
  intros Hall.
  set (X := list_to_set (candidate dest <$> seq 1 n) : gset Path).
  assert (size X = n) as HX.
  { unfold X. rewrite size_list_to_set.
    - by rewrite length_fmap, length_seq.
    - apply NoDup_fmap_2_strong; [|apply NoDup_seq].
      intros j1 j2 _ _. by apply candidate_inj. }
  enough (size X ≤ size (dom fs))%nat by (rewrite size_dom in *; lia).
  apply subseteq_size.
  intros q Hq. unfold X in Hq. apply elem_of_list_to_set in Hq.
  apply list_elem_of_fmap in Hq as (j & -> & Hj).
  apply elem_of_seq in Hj. apply candidate_exists, Hall. lia.
Qed.

(** Some candidate is free; take the first. *)
Lemma first_free_candidate :
  ∃ k, (1 ≤ k ≤ S (size fs))%nat
       ∧ path_exists fs (candidate dest k) = false
       ∧ ∀ j, (1 ≤ j < k)%nat → path_exists fs (candidate dest j) = true.
Proof using dest_wf.
  assert (∀ n, (∃ k, (1 ≤ k ≤ n)%nat
                     ∧ path_exists fs (candidate dest k) = false
                     ∧ ∀ j, (1 ≤ j < k)%nat → path_exists fs (candidate dest j) = true)
               ∨ (∀ j, (1 ≤ j ≤ n)%nat → path_exists fs (candidate dest j) = true))
    as Hsearch.
  { induction n as [|n [(k & Hk & Hfree & Hmin)|Hall]].
    - right. intros j Hj. lia.
    - left. exists k. split; [lia|done].
    - destruct (path_exists fs (candidate dest (S n))) eqn:Hn.
      + right. intros j Hj. destruct (decide (j = S n)) as [->|]; [done|].
        apply Hall. lia.
      + left. exists (S n). split; [lia|]. split; [done|].
        intros j Hj. apply Hall. lia. }
  destruct (Hsearch (S (size fs))) as [?|Hall]; [done|].
  apply candidates_bounded in Hall. lia.
Qed.

(** The loop walks the candidates in order and stops at the first free
    one, when its fuel covers the distance. *)
Lemma rename_loop_walk fuel c k :
  (c ≤ k)%nat → (k - c ≤ fuel)%nat →
  (∀ j, (c ≤ j < k)%nat → path_exists fs (candidate dest j) = true) →
  path_exists fs (candidate dest k) = false →
  rename_loop fuel fs dest (candidate dest c) (S c) = Some (candidate dest k).
Proof.
  revert c. induction fuel as [|fuel IH]; intros c Hck Hfuel Hbusy Hfree.
  - assert (c = k) as -> by lia. simpl. by rewrite Hfree.
  - destruct (decide (c = k)) as [->|Hne].
    + simpl. by rewrite Hfree.
    + simpl. rewrite Hbusy by lia. apply IH; [lia|lia| |done].
      intros j Hj. apply Hbusy. lia.
Qed.

(** The rename branch, from an existing destination. *)
Lemma rename_loop_result :
  path_exists fs dest = true →
  ∃ k, (1 ≤ k)%nat
       ∧ rename_loop (S (size fs)) fs dest dest 1 = Some (candidate dest k)
       ∧ path_exists fs (candidate dest k) = false
       ∧ ∀ j, (1 ≤ j < k)%nat → path_exists fs (candidate dest j) = true.
Proof using dest_wf.
  intros Hdest. destruct first_free_candidate as (k & Hk & Hfree & Hbusy).
  exists k. split; [lia|]. split; [|done].
  simpl. rewrite Hdest. apply rename_loop_walk; [lia|lia|done|done].
Qed.
End RenameLoop.

Lemma handle_duplicate_rename_branch config src dest fs :
  wf_path dest = true → path_exists fs dest = true →
  get (handle_duplicates config) "rename" ≠ "skip" →
  get (handle_duplicates config) "rename" ≠ "overwrite" →
  ∃ k, (1 ≤ k)%nat
       ∧ handle_duplicate config src dest fs = Return (Some (candidate dest k)) fs
       ∧ path_exists fs (candidate dest k) = false
       ∧ ∀ j, (1 ≤ j < k)%nat → path_exists fs (candidate dest j) = true.
Proof.
  intros Hwf Hdest Hskip Hover.
  destruct (rename_loop_result fs dest Hwf Hdest) as (k & Hk & Hloop & Hfree & Hbusy).
  exists k. split; [done|]. split; [|done].
  unfold handle_duplicate. rewrite Hdest. simpl negb. cbv iota.
  rewrite !bool_decide_eq_false_2 by done. by rewrite Hloop.
Qed.

(** ** The readiness loop *)

Section ReadyLoop.
Import ReadinessSpec.
Context (stat : nat → StatResult).
Context (stability_period check_interval max_wait_time : Z).
Hypothesis interval_pos : 0 < check_interval.
Hypothesis period_pos : 0 < stability_period.

Local Abbreviation continues := (continues stat stability_period check_interval max_wait_time).
Local Abbreviation verdict := (verdict stat stability_period check_interval max_wait_time).
Local Abbreviation poll_time := (poll_time check_interval).

Lemma poll_time_S i : poll_time (S i) = poll_time i + check_interval.
Proof. unfold ReadinessSpec.poll_time. lia. Qed.

Lemma poll_bound_elapsed :
  max_wait_time ≤ poll_time (poll_bound check_interval max_wait_time).
Proof using interval_pos.
  unfold ReadinessSpec.poll_time, poll_bound.
  pose proof (Z.div_mod max_wait_time check_interval ltac:(lia)) as Hdiv.
  pose proof (Z.mod_pos_bound max_wait_time check_interval interval_pos) as Hmod.
  destruct (decide (0 ≤ max_wait_time / check_interval + 1)) as [Hq|Hq].
  - rewrite Z2Nat.id by done. nia.
  - rewrite Z2Nat.nonpos by lia. nia.
Qed.

(** From the poll [i] on, with fuel up to the end of the wait, the loop
    answers, and with the verdict of the specification. *)
Lemma ready_loop_from fuel i :
  (∀ j, (j < i)%nat → continues j) →
  max_wait_time ≤ poll_time (i + fuel) →
  ∃ ready t,
    ready_loop fuel stat stability_period check_interval max_wait_time i
               (last_size_before stat i)
               (stable_time_before stat check_interval i)
               (poll_time i) = Some (ready, t)
    ∧ verdict ready t.
Proof using interval_pos period_pos.
  revert i. induction fuel as [|fuel IH]; intros i Hbefore Hfuel.
  - rewrite Nat.add_0_r in Hfuel. exists false, (poll_time i). split.
    + simpl. by rewrite (proj2 (Z.ltb_ge _ _)).
    + exists i. split; [done|]. split; [done|]. by left.
  - cbn [ready_loop].
    destruct (Z.ltb_spec (poll_time i) max_wait_time) as [Hlt|Hge].
    2:{ exists false, (poll_time i). split; [done|].
        exists i. split; [done|]. split; [done|]. by left. }
    destruct (stat i) as [current_size| |] eqn:Hstat.
    2,3: exists false, (poll_time i); (split; [done|]);
         exists i; (split; [done|]); (split; [done|]); right;
         intros [size Hsize]; congruence.
    assert (stable_elapsed stat check_interval i
            = if Z.of_N current_size =? last_size_before stat i
              then stable_time_before stat check_interval i + check_interval
              else 0) as Hstable.
    { destruct i as [|j]; simpl.
      - by destruct (Z.eqb_spec (Z.of_N current_size) (-1)); [lia|].
      - destruct (Hbefore j ltac:(lia)) as (_ & [previous Hprev] & _).
        rewrite Hprev, Hstat.
        destruct (N.eqb_spec current_size previous) as [->|Hne].
        + by rewrite Z.eqb_refl.
        + by destruct (Z.eqb_spec (Z.of_N current_size) (Z.of_N previous)); [lia|]. }
    assert (last_size_before stat (S i) = Z.of_N current_size) as Hlast.
    { simpl. by rewrite Hstat. }
    destruct (Z.eqb_spec (Z.of_N current_size) (last_size_before stat i)) as [Heq|Hne].
    + destruct (Z.geb_spec (stable_time_before stat check_interval i + check_interval)
                           stability_period) as [Hready|Hwait].
      * exists true, (poll_time i). split; [done|].
        exists i. split; [done|]. split; [done|].
        split; [done|]. split; [by eexists|]. rewrite Hstable. lia.
      * rewrite <- poll_time_S.
        replace (last_size_before stat i) with (last_size_before stat (S i))
          by (by rewrite Hlast).
        rewrite <- Hstable.
        change (stable_elapsed stat check_interval i)
          with (stable_time_before stat check_interval (S i)).
        apply IH.
        -- intros j Hj. destruct (decide (j = i)) as [->|]; [|apply Hbefore; lia].
           split; [done|]. split; [by eexists|]. rewrite Hstable. lia.
        -- by replace (S i + fuel)%nat with (i + S fuel)%nat by lia.
    + rewrite <- poll_time_S, <- Hlast.
      replace 0 with (stable_time_before stat check_interval (S i))
        by (simpl; by rewrite Hstable).
      apply IH.
      * intros j Hj. destruct (decide (j = i)) as [->|]; [|apply Hbefore; lia].
        split; [done|]. split; [by eexists|]. rewrite Hstable. lia.
      * by replace (S i + fuel)%nat with (i + S fuel)%nat by lia.
Qed.

(** The loop of [_is_file_ready] answers, with the verdict of the
    specification. *)
Lemma ready_loop_verdict :
  ∃ ready t,
    ready_loop (poll_bound check_interval max_wait_time) stat
               stability_period check_interval max_wait_time O (-1) 0 0
    = Some (ready, t)
    ∧ verdict ready t.
Proof using interval_pos period_pos.
  apply (ready_loop_from (poll_bound check_interval max_wait_time) O).
  - intros j Hj. lia.
  - apply poll_bound_elapsed.
Qed.

(** There is one verdict. *)
Lemma verdict_unique ready1 t1 ready2 t2 :
  verdict ready1 t1 → verdict ready2 t2 → ready1 = ready2 ∧ t1 = t2.
Proof.
  intros (i1 & -> & Hbefore1 & Hat1) (i2 & -> & Hbefore2 & Hat2).
  assert (∀ i (ready : bool), continues i →
            (if ready then ready_at stat stability_period check_interval max_wait_time i
             else refused_at stat check_interval max_wait_time i) → False) as Hexcl.
  { intros i [] (Hlt & Hobs & Hst); [intros (_ & _ & ?)|intros [?|?]]; try lia; done. }
  destruct (Nat.lt_trichotomy i1 i2) as [Hlt|[->|Hlt]].
  - destruct (Hexcl _ _ (Hbefore2 _ Hlt) Hat1).
  - split; [|done]. destruct ready1, ready2; try done.
    + destruct Hat1 as (? & ? & ?), Hat2 as [?|?]; [lia|done].
    + destruct Hat2 as (? & ? & ?), Hat1 as [?|?]; [lia|done].
  - destruct (Hexcl _ _ (Hbefore1 _ Hlt) Hat2).
Qed.
End ReadyLoop.

(** ** The file system *)

Section FileSystem.
Implicit Types (fs : gmap Path Node) (p q : Path).

Lemma extends_refl fs : extends fs fs.
Proof. by intros q node. Qed.

Lemma extends_trans fs1 fs2 fs3 : extends fs1 fs2 → extends fs2 fs3 → extends fs1 fs3.
Proof. intros H12 H23 q node Hq. by apply H23, H12. Qed.

(** A path that leads nowhere is looked up in the map. *)
Lemma node_at_lookup fs fs' p : node_at fs p = None → node_at fs' p = fs' !! p.
Proof.
  destruct p as [|r [|x rest]]; simpl; try done.
  by destruct (is_root r).
Qed.

Lemma node_at_insert_ne fs p q node :
  node_at fs p = None → p ≠ q → node_at (<[p := node]> fs) q = node_at fs q.
Proof.
  intros Hp Hne. destruct q as [|r [|x rest]]; simpl; try done.
  - destruct (is_root r); [done|]. by rewrite lookup_insert_ne.
  - by rewrite lookup_insert_ne.
Qed.

Lemma extends_insert fs p node : node_at fs p = None → extends fs (<[p := node]> fs).
Proof.
  intros Hp q n Hq. rewrite node_at_insert_ne; [done..|]. congruence.
Qed.

Lemma node_at_insert fs p node : node_at fs p = None → node_at (<[p := node]> fs) p = Some node.
Proof.
  intros Hp. rewrite (node_at_lookup fs _ p Hp). apply lookup_insert_eq.
Qed.

Lemma path_exists_false fs p : path_exists fs p = false → node_at fs p = None.
Proof. unfold path_exists. by destruct (node_at fs p). Qed.

Lemma os_mkdir_answers env p fs :
  answers (os_mkdir env p fs) fs (λ _ fs', is_dir fs' p = true).
Proof.
  unfold os_mkdir.
  destruct (node_at fs (parent p)) as [[]|]; simpl; auto using extends_refl.
  destruct (path_exists fs p) eqn:Hp; simpl; auto using extends_refl.
  apply path_exists_false in Hp.
  destruct (io_fault env p); simpl; auto using extends_refl.
  split; [by apply extends_insert|].
  unfold is_dir. by rewrite node_at_insert.
Qed.

Lemma mkdir_exist_ok_answers env p fs :
  answers (mkdir_exist_ok env p fs) fs (λ _ fs', is_dir fs' p = true).
Proof.
  unfold mkdir_exist_ok. pose proof (os_mkdir_answers env p fs) as Hos.
  destruct (os_mkdir env p fs) as [[] fs'|e fs'|] eqn:E; [done| |done].
  simpl in Hos. destruct e; simpl; try done;
    destruct (is_dir fs' p) eqn:Hdir; simpl; done.
Qed.

Lemma mkdir_parents_answers depth env p fs :
  (length p ≤ depth)%nat →
  answers (mkdir_parents depth env p fs) fs (λ _ fs', is_dir fs' p = true).
Proof.
  revert p fs. induction depth as [|depth IH]; intros p fs Hdepth.
  - assert (p = []) as -> by (by destruct p; simpl in *; [|lia]).
    simpl. split; [apply extends_refl|done].
  - cbn [mkdir_parents]. pose proof (os_mkdir_answers env p fs) as Hos.
    destruct (os_mkdir env p fs) as [[] fs'|e fs'|] eqn:E; [done| |done].
    simpl in Hos.
    assert (answers (if is_dir fs' p then Return () fs' else Raise e fs') fs
                    (λ _ fs', is_dir fs' p = true)) as Hother.
    { destruct (is_dir fs' p) eqn:Hdir; simpl; done. }
    destruct e; try exact Hother.
    case_bool_decide as Hparent; [done|].
    assert (length (parent p) ≤ depth)%nat as Hlen.
    { destruct p as [|r rest]; [done|]. unfold parent in *.
      destruct rest as [|x rest].
      - destruct (is_root r); [done|simpl; lia].
      - pose proof (removelast_firstn_len (r :: x :: rest)) as Hrm.
        rewrite Hrm, length_take. simpl in *. lia. }
    unfold mbind, M_bind.
    pose proof (IH (parent p) fs' Hlen) as Hrec.
    destruct (mkdir_parents depth env (parent p) fs') as [[] fs1|e1 fs1|];
      simpl in *; [|by eauto using extends_trans|done].
    destruct Hrec as [Hext1 _].
    pose proof (mkdir_exist_ok_answers env p fs1) as Hlast.
    destruct (mkdir_exist_ok env p fs1) as [[] fs2|e2 fs2|]; simpl in *;
      [|by eauto using extends_trans|done].
    destruct Hlast. split; [by eauto using extends_trans|done].
Qed.

Lemma mkdir_answers env p fs :
  answers (mkdir env p fs) fs (λ _ fs', is_dir fs' p = true).
Proof. by apply mkdir_parents_answers. Qed.






(** The bind of two computations that answer. *)
Lemma bind_answers {A B} (m : M A) (f : A → M B) fs
    (Q : A → gmap Path Node → Prop) (R : B → gmap Path Node → Prop) :
  answers (m fs) fs Q →
  (∀ a fs', extends fs fs' → Q a fs' → answers (f a fs') fs' R) →
  answers ((m ≫= f) fs) fs R.
Proof.
  intros Hm Hf. unfold mbind, M_bind.
  destruct (m fs) as [a fs'|e fs'|]; simpl in *; [|done..].
  destruct Hm as [Hext HQ]. specialize (Hf a fs' Hext HQ).
  destruct (f a fs') as [b fs2|e fs2|]; simpl in *; [|by eauto using extends_trans|done].
  destruct Hf. split; [by eauto using extends_trans|done].
Qed.
End FileSystem.

(** ** The steps of the orchestrator *)

Section Steps.
Implicit Types (fs : gmap Path Node) (p q : Path) (config : Config) (env : Env).

Lemma forallb_removelast (l : list string) :
  forallb component l = true → forallb component (removelast l) = true.
Proof.
  induction l as [|x [|y l] IH]; try done.
  change (removelast (x :: y :: l)) with (x :: removelast (y :: l)).
  intros [Hx Hl]%andb_true_iff. cbn [forallb]. rewrite Hx. by apply IH.
Qed.

Lemma wf_parent p : wf_path p = true → wf_path (parent p) = true.
Proof.
  destruct p as [|r [|x rest]]; try done.
  - simpl. by destruct (is_root r).
  - unfold parent. change (removelast (r :: x :: rest)) with (r :: removelast (x :: rest)).
    cbn [wf_path]. intros [-> Hrest]%andb_true_iff. by apply forallb_removelast.
Qed.

Lemma wf_candidate dest k : wf_path dest = true → wf_path (candidate dest k) = true.
Proof. intros Hwf. apply wf_joinpath. by apply wf_parent. Qed.

(** The resolver answers; a destination it gives is a well-formed path,
    and without a destination the file system is as before. *)
Lemma get_destination_path_answers env config file_path category fs :
  answers (get_destination_path env config file_path category fs) fs
          (λ dest_path fs',
             match dest_path with
             | Some dest_path => wf_path dest_path = true
             | None => fs' = fs
             end).
Proof.
  unfold get_destination_path.
  destruct (lookup_item category (get (categories config) [])) as [info|].
  - destruct (configured_folder info) as [folder|].
    + eapply bind_answers; [apply mkdir_answers|].
      intros [] fs' Hext _. split; [apply extends_refl|].
      apply wf_joinpath, wf_of_string.
    + split; [apply extends_refl|done].
  - eapply bind_answers; [apply mkdir_answers|].
    intros [] fs1 Hext1 _.
    eapply bind_answers; [apply mkdir_answers|].
    intros [] fs2 Hext2 _. split; [apply extends_refl|].
    apply wf_joinpath. apply wf_joinpath, wf_of_string.
Qed.

(** The duplicate handler reads the file system and answers: no path, the
    destination itself, or a free sibling of it. *)
Lemma handle_duplicate_answers config src dest fs :
  wf_path dest = true →
  ∃ final, handle_duplicate config src dest fs = Return final fs
           ∧ match final with
             | Some final => wf_path final = true ∧ parent final = parent dest
             | None => True
             end.
Proof.
  intros Hwf. unfold handle_duplicate.
  destruct (path_exists fs dest) eqn:Hdest; simpl negb; cbv iota.
  2:{ by exists (Some dest). }
  case_bool_decide as Hskip; [by exists None|].
  case_bool_decide as Hover; [by exists (Some dest)|].
  destruct (rename_loop_result fs dest Hwf Hdest) as (k & _ & -> & _ & _).
  exists (Some (candidate dest k)). split; [done|].
  split; [by apply wf_candidate|by apply parent_candidate].
Qed.

(** [os.rename] has no loop, and changes nothing when it raises. *)
Lemma os_rename_answers_or_raises env src dst fs : os_rename env src dst fs ≠ Diverge.
Proof. unfold os_rename. repeat case_match; done. Qed.

Lemma os_rename_raise env src dst fs e fs' :
  os_rename env src dst fs = Raise e fs' → fs' = fs.
Proof. unfold os_rename. intros H. by repeat (case_match; simplify_eq). Qed.

(** The rename of a regular file onto a path that is no directory. *)
Lemma os_rename_file_result env src dst fs fs' size :
  node_at fs src = Some (File size) → src ≠ dst → is_dir fs dst = false →
  os_rename env src dst fs = Return () fs' →
  fs' = <[dst := File size]> (delete src fs).
Proof.
  intros Hsrc Hne Hdir. unfold os_rename. rewrite Hsrc.
  destruct (node_at fs (parent dst)) as [[]|]; try done.
  rewrite bool_decide_eq_false_2 by done.
  unfold is_dir in Hdir.
  destruct (node_at fs dst) as [[]|]; try done;
    destruct (io_fault env dst); try done; by intros [= <-].
Qed.

Lemma node_at_insert_other fs p q node :
  p ≠ q → node_at (<[p := node]> fs) q = node_at fs q.
Proof.
  intros Hne. destruct q as [|r [|x rest]]; simpl; try done.
  - destruct (is_root r); [done|]. by rewrite lookup_insert_ne.
  - by rewrite lookup_insert_ne.
Qed.

Lemma node_at_inserted fs (m : gmap Path Node) p node :
  is_dir fs p = false → node_at (<[p := node]> m) p = Some node.
Proof.
  intros Hdir. destruct p as [|r [|x rest]]; simpl in *; try done.
  - unfold is_dir in Hdir. simpl in Hdir.
    destruct (is_root r); [done|]. apply lookup_insert_eq.
  - apply lookup_insert_eq.
Qed.

Lemma node_at_moved fs src dst node q :
  q ≠ src → q ≠ dst →
  node_at (<[dst := node]> (delete src fs)) q = node_at fs q.
Proof.
  intros Hsrc Hdst. destruct q as [|r [|x rest]]; simpl; try done.
  - destruct (is_root r); [done|]. by rewrite lookup_insert_ne, lookup_delete_ne.
  - by rewrite lookup_insert_ne, lookup_delete_ne.
Qed.

(** The three ends of the move of a regular file onto another path that
    is no directory. The file is at [dst] instead of [src], by the rename
    or by the copy and the removal; or an error is raised and nothing has
    changed; or an error is raised after the copy has opened [dst], which
    is then a file of what had been written, [src] being in place. *)
Lemma rename_or_copy_file env src dst fs size :
  node_at fs src = Some (File size) → src ≠ dst → is_dir fs dst = false →
  rename_or_copy env src dst fs = Return () (<[dst := File size]> (delete src fs))
  ∨ (∃ e, rename_or_copy env src dst fs = Raise e fs)
  ∨ (∃ e written, rename_or_copy env src dst fs = Raise e (<[dst := File written]> fs)).
Proof.
  intros Hsrc Hne Hdir. unfold rename_or_copy, try_except.
  pose proof (os_rename_answers_or_raises env src dst fs) as Hanswers.
  destruct (os_rename env src dst fs) as [[] fs1|e fs1|] eqn:Hrename; [| |done].
  { left. by rewrite (os_rename_file_result _ _ _ _ _ _ Hsrc Hne Hdir Hrename). }
  apply os_rename_raise in Hrename as ->.
  assert (is_dir fs src = false) as -> by (unfold is_dir; by rewrite Hsrc).
  unfold mbind, M_bind, copy2. rewrite Hdir.
  rewrite (bool_decide_eq_false_2 (src = dst)) by done. simpl andb. cbv iota.
  rewrite Hsrc.
  destruct (node_at fs (parent dst)) as [[]|]; [by eauto| |by eauto].
  assert (∀ r : Result unit,
            match node_at fs dst with
            | Some Dir => Raise IsADirectoryError fs
            | _ => r
            end = r) as ->
    by (intros r; unfold is_dir in Hdir; by destruct (node_at fs dst) as [[]|]).
  destruct (copy_fault env src dst) as [[e' [written|]]|]; [by eauto..|].
  unfold os_unlink. rewrite node_at_insert_other, Hsrc by done.
  destruct (unlink_fault env src); [by eauto|].
  left. by rewrite delete_insert_ne.
Qed.

(** The move of a regular file: onto the destination, or into it when it
    is a directory. It ends as the move onto [real_dst] does, or in an
    error before anything is done. *)
Lemma shutil_move_file_cases env src dst fs size :
  wf_path src = true → wf_path dst = true →
  node_at fs src = Some (File size) → src ≠ dst →
  let result := shutil_move env (to_string src) (to_string dst) fs in
  (∃ e, result = Raise e fs)
  ∨ ∃ real_dst,
      real_dst = (if is_dir fs dst then joinpath dst (name src) else dst)
      ∧ src ≠ real_dst ∧ is_dir fs real_dst = false
      ∧ (is_dir fs dst = true → node_at fs real_dst = None)
      ∧ (result = Return () (<[real_dst := File size]> (delete src fs))
         ∨ ∃ e written, result = Raise e (<[real_dst := File written]> fs)).
Proof.
  intros Hsrc_wf Hdst_wf Hsrc Hne result. subst result.
  unfold shutil_move. rewrite !of_to_string by done.
  destruct (is_dir fs dst) eqn:Hdir.
  - rewrite bool_decide_eq_false_2 by done.
    destruct (path_exists fs (joinpath dst (name src))) eqn:Hreal; [by eauto|].
    assert (src ≠ joinpath dst (name src)) as Hne'.
    { intros Heq. rewrite <- Heq in Hreal. unfold path_exists in Hreal.
      by rewrite Hsrc in Hreal. }
    apply path_exists_false in Hreal.
    assert (is_dir fs (joinpath dst (name src)) = false) as Hdir'.
    { unfold is_dir. by rewrite Hreal. }
    destruct (rename_or_copy_file env src (joinpath dst (name src)) fs size
                Hsrc Hne' Hdir') as [Hres|[Hres|Hres]]; [|by left|];
      right; exists (joinpath dst (name src));
      (split; [done|]); (split; [done|]); (split; [done|]); (split; [done|]);
      [by left|by right].
  - destruct (rename_or_copy_file env src dst fs size Hsrc Hne Hdir)
      as [Hres|[Hres|Hres]]; [|by left|];
      right; exists dst;
      (split; [done|]); (split; [done|]); (split; [done|]); (split; [done|]);
      [by left|by right].
Qed.

Lemma shutil_move_file env src dst fs fs' size :
  wf_path src = true → wf_path dst = true →
  node_at fs src = Some (File size) → src ≠ dst →
  shutil_move env (to_string src) (to_string dst) fs = Return () fs' →
  ∃ real_dst,
    real_dst = (if is_dir fs dst then joinpath dst (name src) else dst)
    ∧ src ≠ real_dst ∧ is_dir fs real_dst = false
    ∧ fs' = <[real_dst := File size]> (delete src fs).
Proof.
  intros Hsrc_wf Hdst_wf Hsrc Hne Hmove.
  destruct (shutil_move_file_cases env src dst fs size Hsrc_wf Hdst_wf Hsrc Hne)
    as [[e Hres]|(real_dst & Hreal & Hne' & Hdir & _ & [Hres|(e' & written & Hres)])];
    rewrite Hres in Hmove; try done.
  injection Hmove as <-. by exists real_dst.
Qed.

(** A move that succeeds leaves nothing at the source. *)
Lemma shutil_move_source_gone env src dst fs fs' size :
  wf_path src = true → wf_path dst = true →
  node_at fs src = Some (File size) → src ≠ dst →
  shutil_move env (to_string src) (to_string dst) fs = Return () fs' →
  path_exists fs' src = false.
Proof.
  intros Hsrc_wf Hdst_wf Hsrc Hne Hmove.
  destruct (shutil_move_file env src dst fs fs' size Hsrc_wf Hdst_wf Hsrc Hne Hmove)
    as (real_dst & _ & Hne' & _ & ->).
  unfold path_exists. rewrite node_at_insert_other by done.
  destruct src as [|r [|x rest]]; simpl in *; try done.
  - destruct (is_root r); [done|]. by rewrite lookup_delete_eq.
  - by rewrite lookup_delete_eq.
Qed.

(** [shutil.move] has no loop. *)
Lemma rename_or_copy_answers_or_raises env src dst fs :
  rename_or_copy env src dst fs ≠ Diverge.
Proof.
  unfold rename_or_copy, try_except.
  pose proof (os_rename_answers_or_raises env src dst fs).
  destruct (os_rename env src dst fs) as [[] fs1|e fs1|]; [done| |done].
  destruct (is_dir fs1 src).
  - by destruct (move_tree env src dst fs1) as [[e'|] fs2].
  - unfold mbind, M_bind, copy2, os_unlink. repeat case_match; done.
Qed.

Lemma shutil_move_answers_or_raises env src dst fs : shutil_move env src dst fs ≠ Diverge.
Proof.
  unfold shutil_move.
  repeat case_match;
    auto using os_rename_answers_or_raises, rename_or_copy_answers_or_raises.
Qed.

(** With the defaults the detector answers, whatever the polls see. *)
Lemma is_file_ready_default_answers env p fs :
  ∃ ready t,
    is_file_ready_at env p default_stability_period default_check_interval
                     default_max_wait_time fs = Some (ready, t).
Proof.
  unfold is_file_ready_at. destruct (path_exists fs p); simpl negb; cbv iota.
  - destruct (ready_loop_verdict (stat_poll env p) default_stability_period
                default_check_interval default_max_wait_time)
      as (ready & t & Hloop & _); [done|done|].
    by exists ready, t.
  - by exists false, 0.
Qed.
End Steps.

(** ** Claims on the categorizer *)

(** A decidable goal on closed terms, settled by evaluation. *)
Ltac by_computation :=
  match goal with
  | |- ?P => apply (bool_decide_unpack P); vm_compute; exact I
  end.

(** The cases of a membership in the rules of a closed configuration. *)
Ltac each_rule H :=
  cbv [Spec.rules_of_config Scenario.overlapping get categories fmap list_fmap] in H;
  repeat (apply elem_of_cons in H as [->|H]);
  [..|by apply elem_of_nil in H].

Lemma first_category_find file_ext items :
  first_category file_ext items
  = Spec.classify file_ext (Spec.rule_of_item <$> items).
Proof.
  unfold Spec.classify. induction items as [|[category info] items IH]; [done|].
  cbn [first_category fmap list_fmap List.find].
  unfold Spec.matches at 1. cbn [Spec.rule_enabled Spec.rule_extensions Spec.rule_of_item fst snd].
  assert (bool_decide (file_ext ∈ get (extensions info) [])
          = bool_decide (file_ext ∈ (list_to_set (get (extensions info) []) : gset string)))
    as ->.
  { apply bool_decide_ext. by rewrite elem_of_list_to_set. }
  destruct (get (enabled info) true && _); [done|exact IH].
Qed.

Lemma classify_first ext rules before rule after :
  rules = before ++ rule :: after →
  Spec.matches ext rule = true →
  (∀ r, r ∈ before → Spec.matches ext r = false) →
  Spec.classify ext rules = Spec.name rule.
Proof.
  intros -> Hrule. unfold Spec.classify.
  induction before as [|r before IH]; intros Hbefore; simpl.
  - by rewrite Hrule.
  - rewrite (Hbefore r) by apply list_elem_of_here.
    apply IH. intros r' Hr'. apply Hbefore. by apply list_elem_of_further.
Qed.

Lemma classify_none ext rules :
  (∀ r, r ∈ rules → Spec.matches ext r = false) →
  Spec.classify ext rules = "Others".
Proof.
  unfold Spec.classify. induction rules as [|r rules IH]; intros Hnone; [done|].
  simpl. rewrite (Hnone r) by apply list_elem_of_here.
  apply IH. intros r' Hr'. apply Hnone. by apply list_elem_of_further.
Qed.

(** C2, counterexample. The file [/dl/README] has no extension, and the
    categorizer answers ["Misc"], the rule that lists the empty extension,
    not ["Others"]. *)
Lemma get_file_category_blank_extension :
  suffix (of_string "/dl/README") = ""
  ∧ get_file_category Scenario.config_blank_extension "/dl/README" = "Misc".
Proof. split; reflexivity. Qed.

(** C2, amended. [get_file_category] is the classify of the specification
    on the extension of the file, lower-cased and without its leading dot:
    the name of the first enabled rule, in stored order, whose extension
    set contains the extension, and ["Others"] when no enabled rule
    matches. A file without extension is looked up under the empty
    extension: it is in ["Others"] when no enabled rule lists the empty
    extension. The function is total and takes no file system. *)
Theorem get_file_category_classify (config : Config) (file_path : string) :
  let ext := PyStr.lstrip "." (PyStr.lower (suffix (of_string file_path))) in
  let rules := Spec.rules_of_config config in
  get_file_category config file_path = Spec.classify ext rules
  ∧ (∀ before rule after,
       rules = before ++ rule :: after →
       Spec.rule_enabled rule = true → ext ∈ Spec.rule_extensions rule →
       (∀ r, r ∈ before → Spec.rule_enabled r = true → ext ∉ Spec.rule_extensions r) →
       get_file_category config file_path = Spec.name rule)
  ∧ ((∀ r, r ∈ rules → Spec.rule_enabled r = true → ext ∉ Spec.rule_extensions r) →
     get_file_category config file_path = "Others")
  ∧ (suffix (of_string file_path) = "" →
     (∀ r, r ∈ rules → Spec.rule_enabled r = true → "" ∉ Spec.rule_extensions r) →
     get_file_category config file_path = "Others").
Proof.
  intros ext rules.
  assert (get_file_category config file_path = Spec.classify ext rules) as Heq.
  { unfold get_file_category. apply first_category_find. }
  assert (∀ e r, (Spec.rule_enabled r = true → e ∉ Spec.rule_extensions r) →
                 Spec.matches e r = false) as Hno.
  { intros e r Hr. unfold Spec.matches.
    destruct (Spec.rule_enabled r); [|done]. simpl.
    apply bool_decide_eq_false_2. by apply Hr. }
  split; [done|]. split; [|split].
  - intros before rule after Hrules Hen Hin Hbefore. rewrite Heq.
    apply (classify_first _ _ before rule after); [done| |by auto].
    unfold Spec.matches. rewrite Hen. by apply bool_decide_eq_true_2.
  - intros Hnone. rewrite Heq. apply classify_none. by auto.
  - intros Hsuffix Hnone. rewrite Heq. apply classify_none.
    intros r Hr. apply Hno. subst ext. rewrite Hsuffix. simpl. by auto.
Qed.

(** C2, witness: with two rules that both list [exe] the first one wins,
    and the second one when the first is disabled. *)
Lemma get_file_category_classify_overlap :
  get_file_category (Scenario.overlapping true) "/dl/Setup.EXE" = "Archives"
  ∧ get_file_category (Scenario.overlapping false) "/dl/Setup.EXE" = "Executables"
  ∧ get_file_category (Scenario.overlapping true) "/dl/notes.txt" = "Others"
  ∧ get_file_category (Scenario.overlapping true) "/dl/README" = "Others".
Proof.
  split; [|split; [|split]].
  - apply (proj1 (proj2 (get_file_category_classify (Scenario.overlapping true)
                           "/dl/Setup.EXE")) [] _ _ eq_refl eq_refl).
    + by_computation.
    + intros r Hr. by apply elem_of_nil in Hr.
  - apply (proj1 (proj2 (get_file_category_classify (Scenario.overlapping false)
                           "/dl/Setup.EXE")) [_] _ _ eq_refl eq_refl).
    + by_computation.
    + intros r ->%list_elem_of_singleton. done.
  - apply (proj1 (proj2 (proj2 (get_file_category_classify (Scenario.overlapping true)
                                  "/dl/notes.txt")))).
    intros r Hr Hen. each_rule Hr; by_computation.
  - apply (proj2 (proj2 (proj2 (get_file_category_classify (Scenario.overlapping true)
                                  "/dl/README"))) eq_refl).
    intros r Hr Hen. each_rule Hr; by_computation.
Defined.

(** ** Claims on the duplicate handler *)

(** C3. Under the rename policy, for a destination that exists in a (finite)
    file system, the loop ends and [handle_duplicate] returns the candidate
    [stem_k.suffix] next to the destination for the smallest [k ≥ 1] such
    that the candidate does not exist: the candidate [k] is free and every
    candidate before it exists. *)
Theorem handle_duplicate_rename (config : Config) (src dest : Path)
    (fs : gmap Path Node) :
  wf_path dest = true →
  path_exists fs dest = true →
  get (handle_duplicates config) "rename" = "rename" →
  ∃ k, (1 ≤ k)%nat
       ∧ handle_duplicate config src dest fs = Return (Some (candidate dest k)) fs
       ∧ candidate dest k
         = parent dest ++ [stem dest +:+ "_" +:+ pretty k +:+ suffix dest]
       ∧ path_exists fs (candidate dest k) = false
       ∧ ∀ j, (1 ≤ j < k)%nat → path_exists fs (candidate dest j) = true.
Proof.
  intros Hwf Hdest Hmethod.
  destruct (handle_duplicate_rename_branch config src dest fs Hwf Hdest)
    as (k & Hk & Hresult & Hfree & Hbusy); [by rewrite Hmethod..|].
  exists k. split; [done|]. split; [done|]. split; [|done].
  by apply candidate_snoc.
Qed.

(** C3, witness: with [photo.jpg] and [photo_1.jpg] both in [/dl/Images],
    the destination [/dl/Images/photo.jpg] becomes [/dl/Images/photo_2.jpg]. *)
Lemma handle_duplicate_rename_photo :
  wf_path Scenario.images_photo = true
  ∧ path_exists Scenario.fs_dl Scenario.images_photo = true
  ∧ get (handle_duplicates Scenario.config_rename) "rename" = "rename"
  ∧ handle_duplicate Scenario.config_rename Scenario.photo Scenario.images_photo
                     Scenario.fs_dl
    = Return (Some (of_string "/dl/Images/photo_2.jpg")) Scenario.fs_dl.
Proof.
  split; [reflexivity|]. split; [reflexivity|]. split; [reflexivity|].
  destruct (handle_duplicate_rename Scenario.config_rename Scenario.photo
              Scenario.images_photo Scenario.fs_dl eq_refl eq_refl eq_refl)
    as (k & Hk & -> & _ & Hfree & Hbusy).
  destruct k as [|[|[|k]]].
  - exfalso. lia.
  - exfalso. vm_compute in Hfree. discriminate Hfree.
  - reflexivity.
  - exfalso. specialize (Hbusy 2%nat ltac:(lia)).
    vm_compute in Hbusy. discriminate Hbusy.
Defined.

(** C9. A destination that does not exist is returned unchanged, whatever
    the policy. For a destination that exists, the policy [skip] returns no
    path and the policy [overwrite] returns the destination unchanged. The
    file system is only read. *)
Theorem handle_duplicate_without_rename (config : Config) (src dest : Path)
    (fs : gmap Path Node) :
  (path_exists fs dest = false →
   handle_duplicate config src dest fs = Return (Some dest) fs)
  ∧ (path_exists fs dest = true → handle_duplicates config = Some "skip" →
     handle_duplicate config src dest fs = Return None fs)
  ∧ (path_exists fs dest = true → handle_duplicates config = Some "overwrite" →
     handle_duplicate config src dest fs = Return (Some dest) fs).
Proof.
  unfold handle_duplicate. split; [|split].
  - by intros ->.
  - by intros -> ->.
  - by intros -> ->.
Qed.

(** C9, witness: the free destination [/dl/Images/unknown.xyz] under the
    three policies, and the taken destination [/dl/Images/photo.jpg] under
    [skip] and [overwrite]. *)
Lemma handle_duplicate_without_rename_photo :
  (∀ policy,
     handle_duplicate (Scenario.config_with policy) Scenario.photo
                      (of_string "/dl/Images/unknown.xyz") Scenario.fs_dl
     = Return (Some (of_string "/dl/Images/unknown.xyz")) Scenario.fs_dl)
  ∧ handle_duplicate (Scenario.config_with (Some "skip")) Scenario.photo
                     Scenario.images_photo Scenario.fs_dl
    = Return None Scenario.fs_dl
  ∧ handle_duplicate (Scenario.config_with (Some "overwrite")) Scenario.photo
                     Scenario.images_photo Scenario.fs_dl
    = Return (Some Scenario.images_photo) Scenario.fs_dl.
Proof.
  split; [|split].
  - intros policy.
    exact (proj1 (handle_duplicate_without_rename (Scenario.config_with policy)
                    Scenario.photo (of_string "/dl/Images/unknown.xyz")
                    Scenario.fs_dl) eq_refl).
  - exact (proj1 (proj2 (handle_duplicate_without_rename
                           (Scenario.config_with (Some "skip")) Scenario.photo
                           Scenario.images_photo Scenario.fs_dl))
                 eq_refl eq_refl).
  - exact (proj2 (proj2 (handle_duplicate_without_rename
                           (Scenario.config_with (Some "overwrite")) Scenario.photo
                           Scenario.images_photo Scenario.fs_dl))
                 eq_refl eq_refl).
Defined.

(** C10. When the value under ["handle_duplicates"] is neither ["skip"] nor
    ["overwrite"] (the key is absent, or holds any other text),
    [handle_duplicate] on an existing destination does what it does under
    ["rename"]: it returns the first free candidate. *)
Theorem handle_duplicate_default_rename (config : Config) (src dest : Path)
    (fs : gmap Path Node) :
  wf_path dest = true →
  path_exists fs dest = true →
  handle_duplicates config ≠ Some "skip" →
  handle_duplicates config ≠ Some "overwrite" →
  handle_duplicate config src dest fs
  = handle_duplicate (with_handle_duplicates config (Some "rename")) src dest fs
  ∧ ∃ k, (1 ≤ k)%nat
         ∧ handle_duplicate config src dest fs = Return (Some (candidate dest k)) fs
         ∧ path_exists fs (candidate dest k) = false
         ∧ ∀ j, (1 ≤ j < k)%nat → path_exists fs (candidate dest j) = true.
Proof.
  intros Hwf Hdest Hskip Hover.
  assert (get (handle_duplicates config) "rename" ≠ "skip"
          ∧ get (handle_duplicates config) "rename" ≠ "overwrite") as [Hskip' Hover'].
  { destruct (handle_duplicates config) as [method|]; simpl; [|done].
    split; congruence. }
  destruct (handle_duplicate_rename_branch config src dest fs Hwf Hdest Hskip' Hover')
    as (k & Hk & Hresult & Hfree & Hbusy).
  split; [|by exists k].
  destruct (handle_duplicate_rename_branch
              (with_handle_duplicates config (Some "rename")) src dest fs Hwf Hdest)
    as (k' & Hk' & Hresult' & Hfree' & Hbusy'); [done..|].
  rewrite Hresult, Hresult'. do 2 f_equal.
  destruct (Nat.lt_trichotomy k k') as [Hlt|[->|Hlt]]; [|done|].
  - rewrite Hbusy' in Hfree by lia. done.
  - rewrite Hbusy in Hfree' by lia. done.
Qed.

(** C10, witness: without the key, and with the text ["Rename "], the
    second [photo.jpg] becomes [photo_2.jpg] as under ["rename"]. *)
Lemma handle_duplicate_default_rename_photo :
  (∀ policy, policy = None ∨ policy = Some "Rename " →
     handle_duplicate (Scenario.config_with policy) Scenario.photo
                      Scenario.images_photo Scenario.fs_dl
     = handle_duplicate (Scenario.config_with (Some "rename")) Scenario.photo
                        Scenario.images_photo Scenario.fs_dl)
  ∧ handle_duplicate (Scenario.config_with None) Scenario.photo
                     Scenario.images_photo Scenario.fs_dl
    = Return (Some (of_string "/dl/Images/photo_2.jpg")) Scenario.fs_dl.
Proof.
  split; [|reflexivity].
  intros policy Hpolicy.
  apply (handle_duplicate_default_rename (Scenario.config_with policy) Scenario.photo
           Scenario.images_photo Scenario.fs_dl eq_refl eq_refl);
    destruct Hpolicy as [-> | ->]; discriminate.
Defined.

(** ** Claims on the readiness detector *)

Section Detector.
Import ReadinessSpec.
Context (env : Env) (p : Path) (fs : gmap Path Node).
Context (stability_period check_interval max_wait_time : Z).
Hypothesis interval_pos : 0 < check_interval.
Hypothesis period_pos : 0 < stability_period.
Hypothesis file_exists : path_exists fs p = true.

(** The detector gives the verdict of the specification on the polls of the
    file. *)
Lemma is_file_ready_at_verdict :
  ∃ ready t,
    is_file_ready_at env p stability_period check_interval max_wait_time fs
    = Some (ready, t)
    ∧ verdict (stat_poll env p) stability_period check_interval max_wait_time ready t.
Proof using interval_pos period_pos file_exists.
  unfold is_file_ready_at. rewrite file_exists. simpl negb. cbv iota.
  by apply ready_loop_verdict.
Qed.

Lemma is_file_ready_at_unique ready t :
  verdict (stat_poll env p) stability_period check_interval max_wait_time ready t →
  is_file_ready_at env p stability_period check_interval max_wait_time fs
  = Some (ready, t).
Proof using interval_pos period_pos file_exists.
  intros Hverdict. destruct is_file_ready_at_verdict as (ready' & t' & -> & Hverdict').
  by destruct (verdict_unique _ _ _ _ _ _ _ _ Hverdict Hverdict') as [-> ->].
Qed.
End Detector.

(** What [_is_file_ready] returns is the verdict without its time. *)
Lemma is_file_ready_returns env p stability_period check_interval max_wait_time fs ready t :
  is_file_ready_at env p stability_period check_interval max_wait_time fs = Some (ready, t) →
  _is_file_ready env p stability_period check_interval max_wait_time fs = Return ready fs.
Proof. unfold _is_file_ready. by intros ->. Qed.

Lemma organize_file_guarded env config s fs :
  passes_guards env config fs (of_string s) →
  organize_file env config s fs
  = try_except
      (_is_file_ready env (of_string s) default_stability_period
                      default_check_interval default_max_wait_time ≫= λ ready,
       if negb ready then mret (Skipped (of_string s) NotReady)
       else
         let category := get_file_category config (to_string (of_string s)) in
         get_destination_path env config (to_string (of_string s)) category ≫= λ dest_path,
         match dest_path with
         | None => mret (Skipped (of_string s) NoDestinationFolder)
         | Some dest_path =>
             if bool_decide (parent (of_string s) = parent dest_path)
             then mret (Skipped (of_string s) AlreadyOrganized)
             else
               handle_duplicate config (of_string s) dest_path ≫= λ final_dest_path,
               match final_dest_path with
               | None => mret (Skipped (of_string s) DuplicateSkipped)
               | Some final_dest_path =>
                   shutil_move env (to_string (of_string s))
                               (to_string final_dest_path) ≫= λ _,
                   mret (Moved (of_string s) final_dest_path category)
               end
         end)
      (λ e, mret (Failed (of_string s) e)) fs.
Proof.
  intros (Hexists & Hdot & Htmp & Hdir & Hparent).
  unfold organize_file, try_except, organize_file_try.
  rewrite Hexists, Hdot, Htmp, Hdir. simpl negb. simpl orb. cbv iota.
  by rewrite bool_decide_eq_true_2.
Qed.

(** C4. The detector returns [False]: at once and without a poll when the
    file does not exist at the start; at the poll where [stat] raises
    [FileNotFoundError], without further wait; and when the stable time stays
    below the stability period at every poll of the wait, in which case the
    verdict comes when [max_wait_time] has elapsed if all the polls saw the
    file. On [False] the orchestrator skips the file and leaves the file
    system as it is: nothing is moved. *)
Theorem is_file_ready_refuses (env : Env) (p : Path) (fs : gmap Path Node)
    (stability_period check_interval max_wait_time : Z) :
  0 < check_interval → 0 < stability_period →
  let stat := stat_poll env p in
  let detector := is_file_ready_at env p stability_period check_interval max_wait_time fs in
  (path_exists fs p = false → detector = Some (false, 0))
  ∧ (path_exists fs p = true →
     ∀ i, (∀ j, (j < i)%nat →
             ReadinessSpec.continues stat stability_period check_interval max_wait_time j) →
          ReadinessSpec.poll_time check_interval i < max_wait_time →
          stat i = StNotFound →
          detector = Some (false, ReadinessSpec.poll_time check_interval i))
  ∧ (path_exists fs p = true →
     (∀ i, ReadinessSpec.poll_time check_interval i < max_wait_time →
           ReadinessSpec.stable_elapsed stat check_interval i < stability_period) →
     ∃ t, detector = Some (false, t)
          ∧ ((∀ i, ReadinessSpec.poll_time check_interval i < max_wait_time →
                   ReadinessSpec.observed stat i) → max_wait_time ≤ t))
  ∧ (∀ t, detector = Some (false, t) →
          _is_file_ready env p stability_period check_interval max_wait_time fs
          = Return false fs)
  ∧ (∀ config s,
       of_string s = p → passes_guards env config fs p →
       _is_file_ready env p default_stability_period default_check_interval
                      default_max_wait_time fs = Return false fs →
       organize_file env config s fs = Return (Skipped p NotReady) fs).
Proof.
  intros Hinterval Hperiod stat detector. subst stat detector.
  split; [|split; [|split; [|split]]].
  - intros Hgone. unfold is_file_ready_at. by rewrite Hgone.
  - intros Hexists i Hbefore Htime Hstat.
    apply is_file_ready_at_unique; [done..|].
    exists i. split; [done|]. split; [done|].
    right. intros [size Hsize]. congruence.
  - intros Hexists Hbelow.
    destruct (is_file_ready_at_verdict env p fs stability_period check_interval
                max_wait_time Hinterval Hperiod Hexists)
      as (ready & t & Hresult & i & -> & _ & Hat).
    destruct ready.
    + destruct Hat as (Htime & _ & Hreached). specialize (Hbelow i Htime). lia.
    + exists (ReadinessSpec.poll_time check_interval i). split; [done|].
      intros Hobserved. destruct Hat as [Helapsed|Hunseen]; [done|].
      destruct (Z.lt_ge_cases (ReadinessSpec.poll_time check_interval i) max_wait_time)
        as [Htime|Htime]; [|done].
      destruct (Hunseen (Hobserved i Htime)).
  - intros t Hresult. by apply (is_file_ready_returns _ _ _ _ _ _ _ t).
  - intros config s <- Hguards Hready.
    rewrite organize_file_guarded by done.
    unfold try_except, mbind, M_bind. by rewrite Hready.
Qed.

(** C4, witness: the file deleted between the second and the third poll is
    refused at the third poll, one second after the start, and skipped; the
    file that grows at every poll is refused when the thirty seconds have
    elapsed. *)
Lemma is_file_ready_refuses_scenarios :
  0 < 500 ∧ 0 < 2000
  ∧ is_file_ready_at Scenario.env_vanishing Scenario.photo 2000 500 30000 Scenario.fs_dl
    = Some (false, 1000)
  ∧ organize_file Scenario.env_vanishing Scenario.config_rename "/dl/photo.jpg"
                  Scenario.fs_dl
    = Return (Skipped Scenario.photo NotReady) Scenario.fs_dl
  ∧ ∃ t, is_file_ready_at Scenario.env_growing Scenario.photo 2000 500 30000
                          Scenario.fs_dl = Some (false, t)
         ∧ 30000 ≤ t.
Proof.
  split; [lia|]. split; [lia|].
  pose proof (is_file_ready_refuses Scenario.env_vanishing Scenario.photo
                Scenario.fs_dl 2000 500 30000 ltac:(lia) ltac:(lia))
    as (_ & Hvanish & _ & Hreturns & Hskip).
  assert (is_file_ready_at Scenario.env_vanishing Scenario.photo 2000 500 30000
                           Scenario.fs_dl = Some (false, 1000)) as Hrefused.
  { apply (Hvanish eq_refl 2%nat); [|reflexivity|reflexivity].
    intros [|[|j]] Hj; [| |exfalso; lia].
    - split; [reflexivity|]. split; [by exists 100%N|reflexivity].
    - split; [reflexivity|]. split; [by exists 100%N|reflexivity]. }
  split; [exact Hrefused|]. split.
  - apply (Hskip Scenario.config_rename "/dl/photo.jpg" eq_refl).
    + repeat split; reflexivity.
    + exact (Hreturns 1000 Hrefused).
  - pose proof (is_file_ready_refuses Scenario.env_growing Scenario.photo
                  Scenario.fs_dl 2000 500 30000 ltac:(lia) ltac:(lia))
      as (_ & _ & Htimeout & _).
    destruct (Htimeout eq_refl) as (t & Hresult & Helapsed).
    + intros [|i] _; [reflexivity|].
      cbn [ReadinessSpec.stable_elapsed Scenario.env_growing stat_poll].
      destruct (N.eqb_spec (N.of_nat (S i)) (N.of_nat i)); lia.
    + exists t. split; [exact Hresult|]. apply Helapsed.
      intros i _. by eexists.
Defined.

(** ** The timing of the verdict *)

Section Timing.
Import ReadinessSpec.
Context (stat : nat → StatResult) (size_at : Z → N) (g : Z).
Hypothesis polls : ∀ i, stat i = StSize (size_at (poll_time 500 i)).
Hypothesis start : 0 ≤ g.
Hypothesis stopped : ∀ t, g ≤ t < g + 2000 + 500 → size_at t = size_at g.
Hypothesis not_before : ∀ t, t < g → size_at t ≠ size_at g.
Hypothesis growing :
  ∀ i, poll_time 500 (S i) < g →
       size_at (poll_time 500 (S i)) ≠ size_at (poll_time 500 i).

(** The first poll at or after the moment the size stopped growing. *)
Let first_stable : nat := Z.to_nat ((g + 499) / 500).

Lemma first_stable_time : g ≤ poll_time 500 first_stable < g + 500.
Proof using start.
  unfold poll_time, first_stable.
  pose proof (Z.div_mod (g + 499) 500 ltac:(lia)) as Hdiv.
  pose proof (Z.mod_pos_bound (g + 499) 500 ltac:(lia)) as Hmod.
  rewrite Z2Nat.id by (apply Z.div_pos; lia). lia.
Qed.

Lemma before_first_stable i : (i < first_stable)%nat → poll_time 500 i < g.
Proof using start.
  unfold poll_time, first_stable. intros Hi.
  pose proof (Z.div_mod (g + 499) 500 ltac:(lia)) as Hdiv.
  pose proof (Z.mod_pos_bound (g + 499) 500 ltac:(lia)) as Hmod.
  assert (Z.of_nat i + 1 ≤ (g + 499) / 500) by lia. lia.
Qed.

Lemma stable_elapsed_growing i :
  (i ≤ first_stable)%nat → stable_elapsed stat 500 i = 0.
Proof using polls start stopped not_before growing.
  destruct i as [|i]; [done|]. intros Hi. simpl. rewrite !polls.
  destruct (N.eqb_spec (size_at (poll_time 500 (S i))) (size_at (poll_time 500 i)))
    as [Heq|Hne]; [|done].
  exfalso. destruct (decide (S i = first_stable)) as [Hlast|Hearlier].
  - apply (not_before (poll_time 500 i)); [apply before_first_stable; lia|].
    rewrite <- Heq, Hlast. apply stopped. pose proof first_stable_time. lia.
  - apply (growing i); [apply before_first_stable; lia|done].
Qed.

Lemma stable_elapsed_stable m :
  (m ≤ 4)%nat → stable_elapsed stat 500 (first_stable + m) = Z.of_nat m * 500.
Proof using polls start stopped not_before growing.
  induction m as [|m IH]; intros Hm.
  - rewrite Nat.add_0_r. by apply stable_elapsed_growing.
  - replace (first_stable + S m)%nat with (S (first_stable + m)) by lia.
    cbn [stable_elapsed]. rewrite !polls.
    pose proof first_stable_time as Hfirst.
    rewrite (stopped (poll_time 500 (S (first_stable + m))))
      by (unfold poll_time in *; lia).
    rewrite (stopped (poll_time 500 (first_stable + m)))
      by (unfold poll_time in *; lia).
    rewrite N.eqb_refl, IH by lia. lia.
Qed.

(** The verdict is [true], four polls after the first stable one. *)
Lemma verdict_after_growth :
  g + 2000 + 500 ≤ 30000 →
  verdict stat 2000 500 30000 true (poll_time 500 (first_stable + 4)).
Proof using polls start stopped not_before growing.
  intros Hwait. pose proof first_stable_time as Hfirst.
  exists (first_stable + 4)%nat. split; [done|]. split.
  - intros j Hj. split; [unfold poll_time in *; lia|].
    split; [by eexists|].
    destruct (decide (j ≤ first_stable)%nat) as [Hle|Hgt].
    + rewrite stable_elapsed_growing by done. lia.
    + replace j with (first_stable + (j - first_stable))%nat by lia.
      rewrite stable_elapsed_stable by lia. lia.
  - split; [unfold poll_time in *; lia|]. split; [by eexists|].
    rewrite stable_elapsed_stable by lia. lia.
Qed.
End Timing.

(** C8, counterexample. The download is written up to 800 ms after the
    start, is then unchanged for 2.1 s, which is more than 2 s, and is
    rewritten at 2.9 s. The polls see the sizes 0, 500, 800, 800, 800,
    800 and then 700: the stable time is 1.5 s at the poll of 2.5 s and 0
    at the poll of 3 s, and the answer [True] comes at 5 s, later than
    0.8 s + 2 s plus one interval. *)
Lemma is_file_ready_timing_paused :
  (∀ t, 800 ≤ t ≤ 800 + 2000 → Scenario.size_paused t = Scenario.size_paused 800)
  ∧ (λ i, stat_poll Scenario.env_paused Scenario.photo i) <$> seq 0 7
    = StSize <$> [0; 500; 800; 800; 800; 800; 700]%N
  ∧ is_file_ready_at Scenario.env_paused Scenario.photo default_stability_period
                     default_check_interval default_max_wait_time Scenario.fs_dl
    = Some (true, 5000)
  ∧ _is_file_ready Scenario.env_paused Scenario.photo default_stability_period
                   default_check_interval default_max_wait_time Scenario.fs_dl
    = Return true Scenario.fs_dl
  ∧ 800 + 2000 + 500 < 5000.
Proof.
  split; [|split; [|split; [|split]]]; try reflexivity.
  intros t Ht. unfold Scenario.size_paused.
  destruct (Z.ltb_spec t 2900) as [_|?]; [|lia]. simpl. f_equal. lia.
Qed.

(** C8, amended. With the defaults (2 s, 0.5 s, 30 s) the detector gives
    the verdict of the specification: the stable time is 0 at a poll whose
    size differs from the previous poll and one interval more otherwise, and
    the answer is [True] at the first poll where it reaches the stability
    period. For a file whose size changes at every poll until the moment [g]
    it stops growing, and stays the same from then on for 2 s and one poll
    interval, the answer [True] comes no earlier than [g + 2 s] and no later
    than [g + 2 s] plus one poll interval. *)
Theorem is_file_ready_timing (env : Env) (p : Path) (fs : gmap Path Node) :
  path_exists fs p = true →
  (∃ ready t,
     is_file_ready_at env p default_stability_period default_check_interval
                      default_max_wait_time fs = Some (ready, t)
     ∧ ReadinessSpec.verdict (stat_poll env p) 2000 500 30000 ready t)
  ∧ (∀ (size_at : Z → N) (g : Z),
       (∀ i, stat_poll env p i = StSize (size_at (ReadinessSpec.poll_time 500 i))) →
       0 ≤ g → g + 2000 + 500 ≤ 30000 →
       (∀ t, g ≤ t < g + 2000 + 500 → size_at t = size_at g) →
       (∀ t, t < g → size_at t ≠ size_at g) →
       (∀ i, ReadinessSpec.poll_time 500 (S i) < g →
             size_at (ReadinessSpec.poll_time 500 (S i))
             ≠ size_at (ReadinessSpec.poll_time 500 i)) →
       ∃ t, is_file_ready_at env p default_stability_period default_check_interval
                             default_max_wait_time fs = Some (true, t)
            ∧ _is_file_ready env p default_stability_period default_check_interval
                             default_max_wait_time fs = Return true fs
            ∧ g + 2000 ≤ t < g + 2000 + 500).
Proof.
  intros Hexists. split.
  - by apply is_file_ready_at_verdict.
  - intros size_at g Hpolls Hstart Hwait Hstopped Hnot_before Hgrowing.
    pose proof (verdict_after_growth _ _ _ Hpolls Hstart Hstopped Hnot_before
                  Hgrowing Hwait) as Hverdict.
    pose proof (first_stable_time g Hstart) as Hfirst.
    eexists. split; [|split].
    + apply is_file_ready_at_unique; [done..|exact Hverdict].
    + eapply is_file_ready_returns.
      apply is_file_ready_at_unique; [done..|exact Hverdict].
    + unfold ReadinessSpec.poll_time in *. lia.
Qed.

(** C8, witness: a file written up to 800 ms after the start is seen with
    three different sizes at the polls of 0 s, 0.5 s and 1 s, and with the
    same size from then on; it is judged ready between 2.8 s and 3.3 s. *)
Lemma is_file_ready_timing_download :
  path_exists Scenario.fs_dl Scenario.photo = true
  ∧ ∃ t, is_file_ready_at Scenario.env_download Scenario.photo 2000 500 30000
                          Scenario.fs_dl = Some (true, t)
         ∧ 800 + 2000 ≤ t < 800 + 2000 + 500.
Proof.
  split; [reflexivity|].
  destruct (proj2 (is_file_ready_timing Scenario.env_download Scenario.photo
                     Scenario.fs_dl eq_refl) Scenario.size_at 800)
    as (t & Hresult & _ & Hbounds).
  - reflexivity.
  - lia.
  - lia.
  - intros t Ht. unfold Scenario.size_at. f_equal. lia.
  - intros t Ht. unfold Scenario.size_at. lia.
  - intros i Hi. unfold Scenario.size_at, ReadinessSpec.poll_time in *. lia.
  - exists t. split; [exact Hresult|exact Hbounds].
Defined.

(** ** Claims on the orchestrator *)

(** The reduction of a step whose result is known. *)
Ltac run_step :=
  cbv beta iota;
  try change (negb true) with false;
  try change (negb false) with true;
  cbv beta iota.

Section Orchestrator.
Implicit Types (env : Env) (config : Config) (fs : gmap Path Node) (s : string).

(** A file that exists and is not a directory is a regular file. *)
Lemma regular_file fs p :
  path_exists fs p = true → is_dir fs p = false → ∃ size, node_at fs p = Some (File size).
Proof.
  unfold path_exists, is_dir. destruct (node_at fs p) as [[size|]|]; try done.
  by exists size.
Qed.

(** The detector reads the file system. *)
Lemma is_file_ready_reads env p stability_period check_interval max_wait_time fs ready fs' :
  _is_file_ready env p stability_period check_interval max_wait_time fs = Return ready fs' →
  fs' = fs.
Proof.
  unfold _is_file_ready.
  destruct (is_file_ready_at _ _ _ _ _ _) as [[? ?]|]; [|done]. by intros [= _ <-].
Qed.

(** A path the orchestrator does not find is skipped. *)
Lemma organize_file_not_found env config s fs :
  path_exists fs (of_string s) = false →
  organize_file env config s fs = Return (Skipped (of_string s) FileNotFound) fs.
Proof.
  intros Hgone. unfold organize_file, try_except, organize_file_try. by rewrite Hgone.
Qed.

(** The [try] block has no loop that goes on for ever. *)
Lemma organize_file_try_answers env config s fs :
  organize_file_try env config (of_string s) fs ≠ Diverge.
Proof.
  unfold organize_file_try.
  destruct (path_exists fs (of_string s)); run_step; [|done].
  destruct (_ || _ || _); [done|].
  case_bool_decide as Hparent; [|done].
  unfold mbind, M_bind, mret, M_ret; cbv beta.
  destruct (is_file_ready_default_answers env (of_string s) fs) as (ready & t & Hready).
  rewrite (is_file_ready_returns _ _ _ _ _ _ _ _ Hready).
  destruct ready; run_step; [|done].
  pose proof (get_destination_path_answers env config (to_string (of_string s))
                (get_file_category config (to_string (of_string s))) fs) as Hdest.
  destruct (get_destination_path _ _ _ _ _) as [[dest|] fs1|e fs1|];
    simpl in Hdest; [|done..].
  destruct Hdest as [_ Hwf].
  case_bool_decide; [done|].
  destruct (handle_duplicate_answers config (of_string s) dest fs1 Hwf)
    as (final & -> & _).
  destruct final as [final|]; [|done].
  pose proof (shutil_move_answers_or_raises env (to_string (of_string s))
                (to_string final) fs1) as Hmove.
  by destruct (shutil_move _ _ _ _).
Qed.

(** After a run that moved the file, nothing is left at its path. *)
Lemma organize_file_moved_gone env config s fs source target category fs' :
  organize_file env config s fs = Return (Moved source target category) fs' →
  path_exists fs' (of_string s) = false.
Proof.
  unfold organize_file, try_except, organize_file_try.
  destruct (path_exists fs (of_string s)) eqn:Hexists; run_step; [|done].
  destruct (PyStr.startswith _ _); [done|].
  destruct (PyStr.endswith _ _); [done|].
  destruct (is_dir fs (of_string s)) eqn:Hdir; [done|]. simpl orb. cbv iota.
  case_bool_decide as Hparent; [|done].
  unfold mbind, M_bind, mret, M_ret; cbv beta.
  destruct (_is_file_ready _ _ _ _ _ _) as [ready fs0|e fs0|] eqn:Hready; [|done..].
  apply is_file_ready_reads in Hready as ->.
  destruct ready; run_step; [|done].
  pose proof (get_destination_path_answers env config (to_string (of_string s))
                (get_file_category config (to_string (of_string s))) fs) as Hdest.
  destruct (get_destination_path _ _ _ _ _) as [[dest|] fs1|e fs1|];
    simpl in Hdest; [|done..].
  destruct Hdest as [Hext Hwf].
  case_bool_decide as Hsame; [done|].
  destruct (handle_duplicate_answers config (of_string s) dest fs1 Hwf)
    as (final & -> & Hfinal).
  destruct final as [final|]; [|done]. destruct Hfinal as [Hfinal_wf Hfinal_parent].
  destruct (shutil_move _ _ _ _) as [[] fs2|e fs2|] eqn:Hmove; [|done..].
  intros [= _ _ _ <-].
  destruct (regular_file fs (of_string s) Hexists Hdir) as [size Hfile].
  apply (shutil_move_source_gone env (of_string s) final fs1 fs2 size);
    [apply wf_of_string|done|by apply Hext| |done].
  intros Heq. apply Hsame. rewrite <- Hfinal_parent. by rewrite Heq.
Qed.
End Orchestrator.

(** C1. When a run of [organize_file] on a path moved the file, the path no
    longer exists, and a second run on the same path, whatever the
    environment and the configuration then, ends in the skip for a file not
    found: it returns [False], moves nothing, leaves the file system as it
    is, and does not fail. *)
Theorem organize_file_idempotent (env : Env) (config : Config) (s : string)
    (fs fs' : gmap Path Node) (source target : Path) (category : string) :
  organize_file env config s fs = Return (Moved source target category) fs' →
  path_exists fs' (of_string s) = false
  ∧ ∀ env' config',
      organize_file env' config' s fs'
      = Return (Skipped (of_string s) FileNotFound) fs'
      ∧ returned (Skipped (of_string s) FileNotFound) = false.
Proof.
  intros Hmoved%organize_file_moved_gone. split; [done|].
  intros env' config'. split; [|done]. by apply organize_file_not_found.
Qed.

(** C1, witness: the first run moves [/dl/photo.jpg] to
    [/dl/Images/photo_2.jpg]; the second run on [/dl/photo.jpg] skips. *)
Lemma organize_file_idempotent_photo :
  ∃ fs',
    organize_file Scenario.env_stable Scenario.config_rename "/dl/photo.jpg"
                  Scenario.fs_dl
    = Return (Moved Scenario.photo (of_string "/dl/Images/photo_2.jpg") "Images") fs'
    ∧ path_exists fs' Scenario.photo = false
    ∧ organize_file Scenario.env_stable Scenario.config_rename "/dl/photo.jpg" fs'
      = Return (Skipped Scenario.photo FileNotFound) fs'.
Proof.
  assert (returned_value (organize_file Scenario.env_stable Scenario.config_rename
                                        "/dl/photo.jpg" Scenario.fs_dl)
          = Some (Moved Scenario.photo (of_string "/dl/Images/photo_2.jpg") "Images"))
    as Hmoved by (vm_compute; reflexivity).
  destruct (organize_file Scenario.env_stable Scenario.config_rename
                          "/dl/photo.jpg" Scenario.fs_dl)
    as [outcome fs'|e fs'|] eqn:Hrun; [|discriminate Hmoved..].
  injection Hmoved as ->. exists fs'. split; [reflexivity|].
  destruct (organize_file_idempotent Scenario.env_stable Scenario.config_rename
              "/dl/photo.jpg" Scenario.fs_dl fs' Scenario.photo
              (of_string "/dl/Images/photo_2.jpg") "Images" Hrun)
    as [Hgone Hagain].
  split; [exact Hgone|].
  exact (proj1 (Hagain Scenario.env_stable Scenario.config_rename)).
Defined.

(** C5. Every run of [organize_file] ends, and ends in one outcome: no
    exception leaves it and no loop of it goes on for ever. An exception
    raised inside the [try] block becomes the outcome [Failed]; an outcome
    reached inside it is the outcome of the run. *)
Theorem organize_file_one_outcome (env : Env) (config : Config) (s : string)
    (fs : gmap Path Node) :
  (∃ outcome fs',
     organize_file env config s fs = Return outcome fs'
     ∧ ∀ outcome2 fs2,
         organize_file env config s fs = Return outcome2 fs2 →
         outcome2 = outcome ∧ fs2 = fs')
  ∧ (∀ e fs',
       organize_file_try env config (of_string s) fs = Raise e fs' →
       organize_file env config s fs = Return (Failed (of_string s) e) fs')
  ∧ (∀ outcome fs',
       organize_file_try env config (of_string s) fs = Return outcome fs' →
       organize_file env config s fs = Return outcome fs').
Proof.
  pose proof (organize_file_try_answers env config s fs) as Hanswers.
  unfold organize_file, try_except.
  destruct (organize_file_try env config (of_string s) fs) as [outcome fs'|e fs'|];
    [| |done].
  - split; [|split; [done|by intros ? ? [= <- <-]]].
    exists outcome, fs'. split; [done|]. by intros ? ? [= <- <-].
  - split; [|split; [by intros ? ? [= <- <-]|done]].
    exists (Failed (of_string s) e), fs'. split; [done|]. by intros ? ? [= <- <-].
Qed.

(** C7. A file whose parent is not the configured downloads folder is
    skipped, whatever its name and extension, and the file system is left
    as it is; so is every file in a subfolder of the downloads folder. The
    reason is the scope guard, unless an earlier guard (file not found,
    hidden or temporary name, directory) has skipped the file already. *)
Theorem organize_file_scope_guard (env : Env) (config : Config) (s : string)
    (fs : gmap Path Node) :
  (parent (of_string s) ≠ downloads_path env config →
   ∃ reason,
     organize_file env config s fs = Return (Skipped (of_string s) reason) fs
     ∧ (reason = NotInDownloadsFolder ∨ reason = FileNotFound
        ∨ reason = HiddenOrTemporary))
  ∧ (∀ subfolder file_name,
       of_string s = downloads_path env config ++ [subfolder; file_name] →
       ∃ reason,
         organize_file env config s fs = Return (Skipped (of_string s) reason) fs
         ∧ (reason = NotInDownloadsFolder ∨ reason = FileNotFound
            ∨ reason = HiddenOrTemporary)).
Proof.
  assert (parent (of_string s) ≠ downloads_path env config →
          ∃ reason,
            organize_file env config s fs = Return (Skipped (of_string s) reason) fs
            ∧ (reason = NotInDownloadsFolder ∨ reason = FileNotFound
               ∨ reason = HiddenOrTemporary)) as Hguard.
  { intros Hparent. unfold organize_file, try_except, organize_file_try.
    destruct (path_exists fs (of_string s)); run_step; [|by eauto].
    destruct (_ || _ || _); [by eauto|].
    rewrite bool_decide_eq_false_2 by done. by eauto. }
  split; [exact Hguard|].
  intros subfolder file_name Hpath. apply Hguard. rewrite Hpath.
  change (downloads_path env config ++ [subfolder; file_name])
    with (downloads_path env config ++ [subfolder] ++ [file_name]).
  rewrite app_assoc, parent_snoc.
  - intros Heq. apply (f_equal length) in Heq. rewrite length_app in Heq.
    simpl in Heq. lia.
  - left. by destruct (downloads_path env config).
Qed.

(** C7, witness: [/dl/Images/photo.jpg] lies in a subfolder of [/dl]. *)
Lemma organize_file_scope_guard_subfolder :
  organize_file Scenario.env_stable Scenario.config_rename "/dl/Images/photo.jpg"
                Scenario.fs_dl
  = Return (Skipped Scenario.images_photo NotInDownloadsFolder) Scenario.fs_dl.
Proof.
  destruct (proj2 (organize_file_scope_guard Scenario.env_stable Scenario.config_rename
                     "/dl/Images/photo.jpg" Scenario.fs_dl)
                  "Images" "photo.jpg" eq_refl) as (reason & Hrun & _).
  rewrite Hrun. vm_compute in Hrun. by injection Hrun as ->.
Defined.

(** ** Claims on the destination resolver *)

(** The folder is created, once or twice, and the file name joined to it. *)
Lemma resolve_in_folder env folder file_name fs :
  let m : M (option Path) :=
    mkdir env folder ≫= λ _, mret (Some (joinpath folder file_name)) in
  (∃ fs', m fs = Return (Some (joinpath folder file_name)) fs'
          ∧ is_dir fs' folder = true ∧ extends fs fs')
  ∨ (∃ e fs', m fs = Raise e fs' ∧ extends fs fs').
Proof.
  intros m. subst m. unfold mbind, M_bind, mret, M_ret.
  pose proof (mkdir_answers env folder fs) as Hmkdir.
  destruct (mkdir env folder fs) as [[] fs'|e fs'|]; simpl in Hmkdir; [| |done].
  - left. exists fs'. by destruct Hmkdir.
  - right. by exists e, fs'.
Qed.

Lemma resolve_in_others env folder file_name fs :
  let m : M (option Path) :=
    mkdir env folder ≫= λ _, mkdir env folder ≫= λ _,
    mret (Some (joinpath folder file_name)) in
  (∃ fs', m fs = Return (Some (joinpath folder file_name)) fs'
          ∧ is_dir fs' folder = true ∧ extends fs fs')
  ∨ (∃ e fs', m fs = Raise e fs' ∧ extends fs fs').
Proof.
  intros m. subst m. unfold mbind, M_bind, mret, M_ret.
  pose proof (mkdir_answers env folder fs) as Hmkdir.
  destruct (mkdir env folder fs) as [[] fs1|e fs1|]; simpl in Hmkdir; [| |done].
  - destruct Hmkdir as [Hext1 _].
    pose proof (mkdir_answers env folder fs1) as Hmkdir2.
    destruct (mkdir env folder fs1) as [[] fs2|e fs2|]; simpl in Hmkdir2; [| |done].
    + left. exists fs2. destruct Hmkdir2. by eauto using extends_trans.
    + right. exists e, fs2. by eauto using extends_trans.
  - right. by exists e, fs1.
Qed.






(** ** The model at work *)

Example of_string_absolute :
  of_string "/dl/Images/photo.jpg" = ["/"; "dl"; "Images"; "photo.jpg"].
Proof. reflexivity. Qed.

Example of_string_normalises :
  of_string "//dl///./a.tar.gz/" = ["//"; "dl"; "a.tar.gz"]
  ∧ of_string "dl/../x" = ["dl"; ".."; "x"]
  ∧ of_string "" = [].
Proof. repeat split. Qed.

Example stem_and_suffix :
  (λ s, (stem (of_string s), suffix (of_string s)))
    <$> ["/dl/photo.JPG"; "a.tar.gz"; ".bashrc"; "README"; "trailing."; "/"]
  = [("photo", ".JPG"); ("a.tar", ".gz"); (".bashrc", ""); ("README", "");
     ("trailing.", ""); ("", "")].
Proof. reflexivity. Qed.

Example to_string_examples :
  to_string <$> [of_string "//a/b/"; of_string "a/./b"; of_string ""; of_string "///"]
  = ["//a/b"; "a/b"; "."; "/"].
Proof. reflexivity. Qed.

(** Upper-case extensions are matched; only the last suffix counts. *)
Example get_file_category_examples :
  get_file_category Scenario.config_rename <$> ["/dl/photo.JPG"; "/dl/a.png.txt"; "/dl/.jpg"]
  = ["Images"; "Others"; "Others"].
Proof. reflexivity. Qed.

(** The end-to-end run of the specification: a second [photo.jpg] lands
    next to the first under a new name, [unknown.xyz] lands in [Others]. *)
Example organize_file_end_to_end :
  ∃ fs1 fs2,
    organize_file Scenario.env_stable Scenario.config_rename "/dl/photo.jpg"
                  (delete (of_string "/dl/Images/photo_1.jpg") Scenario.fs_dl)
    = Return (Moved Scenario.photo (of_string "/dl/Images/photo_1.jpg") "Images") fs1
    ∧ organize_file Scenario.env_stable Scenario.config_rename "/dl/unknown.xyz" fs1
      = Return (Moved (of_string "/dl/unknown.xyz")
                      (of_string "/dl/Others/unknown.xyz") "Others") fs2
    ∧ fs2 !! of_string "/dl/Others/unknown.xyz" = Some (File 7)
    ∧ fs2 !! of_string "/dl/unknown.xyz" = None.
Proof. do 2 eexists. repeat split; vm_compute; reflexivity. Qed.

(** A destination folder that refuses the file: the move raises, the run
    ends in [Failed], and the file stays where it is. *)
Example organize_file_failed :
  organize_file Scenario.env_read_only Scenario.config_rename "/dl/photo.jpg"
                Scenario.fs_dl
  = Return (Failed Scenario.photo PermissionError) Scenario.fs_dl.
Proof. vm_compute. reflexivity. Qed.

(** A destination on another device: the rename fails, and the copy and
    the removal that [shutil.move] falls back on do the move. *)
Example organize_file_other_device :
  ∃ fs',
    organize_file Scenario.env_other_device Scenario.config_rename "/dl/photo.jpg"
                  Scenario.fs_dl
    = Return (Moved Scenario.photo (of_string "/dl/Images/photo_2.jpg") "Images") fs'
    ∧ fs' !! of_string "/dl/Images/photo_2.jpg" = Some (File 100)
    ∧ fs' !! Scenario.photo = None.
Proof. eexists. repeat split; vm_compute; reflexivity. Qed.

(** Under ["overwrite"], when the device is full after 40 bytes of that
    copy, the run ends in [Failed] and the file stays where it is, but the
    [photo.jpg] of 50 bytes that was in [/dl/Images] is now the 40 bytes of
    the copy. *)
Example organize_file_overwrite_failed :
  organize_file Scenario.env_device_full (Scenario.config_with (Some "overwrite"))
                "/dl/photo.jpg" Scenario.fs_dl
  = Return (Failed Scenario.photo OSError)
           (<[Scenario.images_photo := File 40]> Scenario.fs_dl)
  ∧ Scenario.fs_dl !! Scenario.images_photo = Some (File 50).
Proof. split; vm_compute; reflexivity. Qed.

(** Hidden and temporary names are skipped before anything else. *)
Example organize_file_temporary :
  organize_file Scenario.env_stable Scenario.config_rename "/dl/movie.mkv.tmp"
                (<[of_string "/dl/movie.mkv.tmp" := File 1]> Scenario.fs_dl)
  = Return (Skipped (of_string "/dl/movie.mkv.tmp") HiddenOrTemporary)
           (<[of_string "/dl/movie.mkv.tmp" := File 1]> Scenario.fs_dl).
Proof. vm_compute. reflexivity. Qed.

(** * Further properties *)

(** ** The extension the categorizer looks up *)

Section Extension.
Implicit Types (s : string) (c a : ascii).

Lemma lower_ascii_idemp a : PyStr.lower_ascii (PyStr.lower_ascii a) = PyStr.lower_ascii a.
Proof. by destruct a as [[] [] [] [] [] [] [] []]. Qed.

Lemma lower_ascii_dot a : Ascii.eqb (PyStr.lower_ascii a) "." = Ascii.eqb a ".".
Proof. by destruct a as [[] [] [] [] [] [] [] []]. Qed.

Lemma lower_idemp s : PyStr.lower (PyStr.lower s) = PyStr.lower s.
Proof. induction s as [|a s IH]; [done|]. simpl. by rewrite lower_ascii_idemp, IH. Qed.

Lemma contains_dot_lower s : PyStr.contains "." (PyStr.lower s) = PyStr.contains "." s.
Proof. induction s as [|a s IH]; [done|]. simpl. by rewrite lower_ascii_dot, IH. Qed.

Lemma lstrip_lower_fixed c s : PyStr.lower s = s → PyStr.lower (PyStr.lstrip c s) = PyStr.lstrip c s.
Proof.
  induction s as [|a s IH]; [done|]. simpl. intros [= Ha Hs].
  destruct (Ascii.eqb a c); [by apply IH|]. simpl. by rewrite Ha, Hs.
Qed.

Lemma contains_lstrip c a s :
  PyStr.contains c s = false → PyStr.contains c (PyStr.lstrip a s) = false.
Proof.
  induction s as [|b s IH]; [done|]. simpl.
  intros [Hb Hs]%orb_false_iff. destruct (Ascii.eqb b a); [by apply IH|].
  simpl. by rewrite Hb, Hs.
Qed.

(** From the last [c] on, the text is [c] followed by a text without [c]. *)
Lemma slice_from_rfind c s i :
  PyStr.rfind c s = Some i →
  ∃ rest, PyStr.slice_from i s = String c rest ∧ PyStr.contains c rest = false.
Proof.
  revert i. induction s as [|a s IH]; intros i; [done|]. simpl.
  destruct (PyStr.rfind c s) as [j|] eqn:Hj.
  - intros [= <-]. simpl. by apply IH.
  - destruct (Ascii.eqb_spec a c) as [->|Hne]; [|done].
    intros [= <-]. exists s. split; [done|].
    clear IH. induction s as [|b s IH]; [done|]. simpl in *.
    destruct (PyStr.rfind c s); [done|].
    destruct (Ascii.eqb b c); [done|]. by apply IH.
Qed.

Lemma suffix_shape p :
  suffix p = "" ∨ ∃ rest, suffix p = String "." rest ∧ PyStr.contains "." rest = false.
Proof.
  unfold suffix. destruct (PyStr.rfind "." (name p)) as [i|] eqn:Hi; [|by left].
  case_bool_decide; [|by left]. right. by apply slice_from_rfind.
Qed.

(** The extension has no dot and no upper-case letter. *)
Lemma file_extension_plain file_path :
  plain_extension (file_extension file_path) = true.
Proof.
  unfold plain_extension, file_extension.
  apply andb_true_iff. split.
  - apply negb_true_iff.
    destruct (suffix_shape (of_string file_path)) as [->|(rest & -> & Hrest)]; [done|].
    simpl. apply contains_lstrip. by rewrite contains_dot_lower.
  - apply bool_decide_eq_true_2, lstrip_lower_fixed, lower_idemp.
Qed.
End Extension.

Lemma first_category_plain ext items :
  plain_extension ext = true →
  first_category ext (plain_items items) = first_category ext items.
Proof.
  intros Hplain. induction items as [|[category info] items IH]; [done|].
  change (plain_items ((category, info) :: items))
    with ((category, plain_info info) :: plain_items items).
  cbn [first_category]. rewrite IH.
  assert (bool_decide (ext ∈ get (extensions (plain_info info)) [])
          = bool_decide (ext ∈ get (extensions info) [])) as ->; [|done].
  apply bool_decide_ext. unfold plain_info. simpl.
  destruct (extensions info) as [exts|]; simpl; [|done].
  rewrite !list_elem_of_In, filter_In. split; [by intros [? ?]|by intros ?].
Qed.

(** X1. The extension under which a file is looked up has no dot and no
    upper-case ASCII letter, so the extensions of the configuration that
    contain a dot (as ["tar.gz"]) or an upper-case letter never match:
    without them every file gets the same category. *)
Theorem get_file_category_plain (config : Config) (file_path : string) :
  PyStr.contains "." (file_extension file_path) = false
  ∧ PyStr.lower (file_extension file_path) = file_extension file_path
  ∧ get_file_category (plain_config config) file_path
    = get_file_category config file_path.
Proof.
  pose proof (file_extension_plain file_path) as Hplain.
  split; [|split].
  - unfold plain_extension in Hplain.
    apply andb_true_iff in Hplain as [H _]. by apply negb_true_iff.
  - unfold plain_extension in Hplain.
    apply andb_true_iff in Hplain as [_ H]. by apply bool_decide_eq_true in H.
  - unfold get_file_category, plain_config. simpl.
    destruct (categories config) as [items|]; simpl; [|done].
    by apply first_category_plain.
Qed.

(** ** The path the duplicate handler returns *)

(** A path the duplicate handler returns is the destination or one of its
    candidates; it is free unless the method is ["overwrite"]. *)
Lemma handle_duplicate_shape config src dest fs final :
  wf_path dest = true →
  handle_duplicate config src dest fs = Return (Some final) fs →
  (final = dest ∨ ∃ k, (1 ≤ k)%nat ∧ final = candidate dest k)
  ∧ (handle_duplicates config ≠ Some "overwrite" → path_exists fs final = false).
Proof.
  intros Hwf. unfold handle_duplicate.
  destruct (path_exists fs dest) eqn:Hdest; simpl negb; cbv iota.
  2:{ intros [= <-]. split; [by left|done]. }
  case_bool_decide as Hskip; [done|].
  case_bool_decide as Hover.
  { intros [= <-]. split; [by left|]. intros Hno. exfalso. apply Hno.
    by destruct (handle_duplicates config) as [method|]; simpl in Hover; subst. }
  destruct (rename_loop_result fs dest Hwf Hdest) as (k & Hk & -> & Hfree & _).
  intros [= <-]. split; [right; by exists k|done].
Qed.

(** X2. [handle_duplicate] always answers and only reads the file system.
    A path it returns lies in the folder of the destination, and is free
    unless the method is ["overwrite"]: nothing that exists is ever named
    as the target of the move under the other methods. It returns no path
    only under ["skip"], for a destination that exists. *)
Theorem handle_duplicate_target (config : Config) (src dest : Path)
    (fs : gmap Path Node) :
  wf_path dest = true →
  ∃ result,
    handle_duplicate config src dest fs = Return result fs
    ∧ (∀ final, result = Some final →
         wf_path final = true
         ∧ parent final = parent dest
         ∧ (handle_duplicates config ≠ Some "overwrite" →
            path_exists fs final = false))
    ∧ (result = None →
       handle_duplicates config = Some "skip" ∧ path_exists fs dest = true).
Proof.
  intros Hwf. unfold handle_duplicate.
  destruct (path_exists fs dest) eqn:Hdest; simpl negb; cbv iota.
  2:{ exists (Some dest). split; [done|]. split; [|done].
      by intros final [= <-]. }
  case_bool_decide as Hskip.
  { exists None. split; [done|]. split; [done|]. intros _. split; [|done].
    by destruct (handle_duplicates config) as [method|]; simpl in Hskip; subst. }
  case_bool_decide as Hover.
  { exists (Some dest). split; [done|]. split; [|done].
    intros final [= <-]. split; [done|]. split; [done|].
    intros Hno. exfalso. apply Hno.
    by destruct (handle_duplicates config) as [method|]; simpl in Hover; subst. }
  destruct (rename_loop_result fs dest Hwf Hdest) as (k & _ & -> & Hfree & _).
  exists (Some (candidate dest k)). split; [done|]. split; [|done].
  intros final [= <-].
  split; [by apply wf_candidate|]. split; [by apply parent_candidate|done].
Qed.

(** X2, instance: the second [photo.jpg] under the three methods. *)
Lemma handle_duplicate_target_photo :
  wf_path Scenario.images_photo = true
  ∧ ∀ policy, ∃ result,
      handle_duplicate (Scenario.config_with policy) Scenario.photo
                       Scenario.images_photo Scenario.fs_dl
      = Return result Scenario.fs_dl
      ∧ ∀ final, result = Some final → parent final = of_string "/dl/Images".
Proof.
  split; [reflexivity|]. intros policy.
  destruct (handle_duplicate_target (Scenario.config_with policy) Scenario.photo
              Scenario.images_photo Scenario.fs_dl eq_refl)
    as (result & Hresult & Hfinal & _).
  exists result. split; [exact Hresult|].
  intros final Hsome. exact (proj1 (proj2 (Hfinal final Hsome))).
Defined.

Section Suffix.
Implicit Types (s t : string) (c : ascii).

Lemma rfind_app_last c s rest :
  PyStr.contains c rest = false →
  PyStr.rfind c (s +:+ String c rest) = Some (String.length s).
Proof.
  intros Hrest.
  assert (PyStr.rfind c rest = None) as Hnone.
  { induction rest as [|b rest IH]; [done|]. simpl in *.
    apply orb_false_iff in Hrest as [Hb Hrest]. by rewrite IH, Hb. }
  induction s as [|a s IH].
  - change ("" +:+ String c rest) with (String c rest). simpl.
    by rewrite Hnone, Ascii.eqb_refl.
  - change (String a s +:+ String c rest) with (String a (s +:+ String c rest)).
    simpl. by rewrite IH.
Qed.

Lemma slice_from_app s t : PyStr.slice_from (String.length s) (s +:+ t) = t.
Proof.
  induction s as [|a s IH]; [by destruct t|].
  change (String a s +:+ t) with (String a (s +:+ t)). simpl. exact IH.
Qed.

Lemma slice_to_app s t : PyStr.slice_to (String.length s) (s +:+ t) = s.
Proof.
  induction s as [|a s IH]; [by destruct t|].
  change (String a s +:+ t) with (String a (s +:+ t)). simpl. by rewrite IH.
Qed.

Lemma length_slice_from i s :
  String.length (PyStr.slice_from i s) = (String.length s - i)%nat.
Proof.
  revert s. induction i as [|i IH]; intros [|a s]; simpl; try done.
Qed.

(** A suffix that is not empty is a dot and at least one more character,
    none of them a dot. *)
Lemma suffix_nonempty p :
  suffix p ≠ "" →
  ∃ rest, suffix p = String "." rest ∧ rest ≠ "" ∧ PyStr.contains "." rest = false.
Proof.
  unfold suffix. destruct (PyStr.rfind "." (name p)) as [i|] eqn:Hi; [|done].
  case_bool_decide as Hbounds; [|done]. intros _.
  destruct (slice_from_rfind _ _ _ Hi) as (rest & Hslice & Hrest).
  exists rest. split; [done|]. split; [|done].
  intros ->. apply (f_equal String.length) in Hslice.
  rewrite length_slice_from in Hslice. simpl in Hslice. lia.
Qed.

(** The name [prefix + suffix] has the suffix [suffix] and the stem
    [prefix], for a suffix of the shape above and a prefix that is not
    empty. *)
Lemma suffix_of_name (q : Path) prefix rest :
  prefix ≠ "" → rest ≠ "" → PyStr.contains "." rest = false →
  name q = prefix +:+ String "." rest →
  suffix q = String "." rest ∧ stem q = prefix.
Proof.
  intros Hprefix Hrest Hdot Hname. unfold suffix, stem. rewrite Hname.
  rewrite rfind_app_last by done.
  rewrite bool_decide_eq_true_2.
  - by rewrite slice_from_app, slice_to_app.
  - rewrite string_length_app. simpl.
    destruct prefix; [done|]. destruct rest; [done|]. simpl. lia.
Qed.
End Suffix.

Lemma name_candidate dest k :
  wf_path dest = true →
  name (candidate dest k) = new_name (stem dest) (suffix dest) k.
Proof.
  intros Hwf. rewrite candidate_snoc by done. apply name_snoc. right.
  apply no_sep_not_root, component_no_sep, new_name_component;
    auto using stem_no_sep, suffix_no_sep.
Qed.

Lemma suffix_candidate dest k :
  wf_path dest = true → suffix dest ≠ "" →
  suffix (candidate dest k) = suffix dest
  ∧ stem (candidate dest k) = stem dest +:+ "_" +:+ pretty k.
Proof.
  intros Hwf Hsuffix.
  destruct (suffix_nonempty dest Hsuffix) as (rest & Heq & Hrest & Hdot).
  rewrite Heq.
  apply suffix_of_name; [|done|done|].
  - destruct (stem dest); done.
  - rewrite name_candidate by done. unfold new_name. rewrite Heq.
    induction (stem dest) as [|a s IH]; [done|].
    change (String a s +:+ ?t) with (String a (s +:+ t)).
    change ((String a s +:+ ?t) +:+ ?u) with (String a ((s +:+ t) +:+ u)).
    by rewrite IH.
Qed.

(** X3. A destination with an extension keeps it through the duplicate
    handler: the path returned has the suffix of the destination, so the
    renamed file is classified as the destination is. *)
Theorem handle_duplicate_keeps_suffix (config : Config) (src dest final : Path)
    (fs : gmap Path Node) :
  wf_path dest = true → suffix dest ≠ "" →
  handle_duplicate config src dest fs = Return (Some final) fs →
  suffix final = suffix dest
  ∧ ∀ config', get_file_category config' (to_string final)
               = get_file_category config' (to_string dest).
Proof.
  intros Hwf Hsuffix Hresult.
  assert (wf_path final = true ∧ suffix final = suffix dest) as [Hfinal_wf Heq].
  { unfold handle_duplicate in Hresult.
    destruct (path_exists fs dest) eqn:Hdest; simpl negb in Hresult;
      cbv iota in Hresult; [|by injection Hresult as <-].
    case_bool_decide; [done|].
    case_bool_decide; [by injection Hresult as <-|].
    destruct (rename_loop_result fs dest Hwf Hdest) as (k & _ & Hloop & _).
    rewrite Hloop in Hresult. injection Hresult as <-.
    split; [by apply wf_candidate|by apply suffix_candidate]. }
  split; [done|]. intros config'.
  unfold get_file_category, file_extension.
  by rewrite !of_to_string, Heq.
Qed.

(** X3, instance: [photo_2.jpg] is an image as [photo.jpg] is. *)
Lemma handle_duplicate_keeps_suffix_photo :
  suffix (of_string "/dl/Images/photo_2.jpg") = ".jpg"
  ∧ get_file_category Scenario.config_rename "/dl/Images/photo_2.jpg" = "Images".
Proof.
  destruct (handle_duplicate_keeps_suffix Scenario.config_rename Scenario.photo
              Scenario.images_photo (of_string "/dl/Images/photo_2.jpg")
              Scenario.fs_dl eq_refl)
    as [Hsuffix Hcategory].
  - discriminate.
  - reflexivity.
  - split; [exact Hsuffix|]. exact (Hcategory Scenario.config_rename).
Defined.

(** ** The time the readiness detector takes *)

Lemma stable_elapsed_le stat check_interval i :
  0 ≤ check_interval →
  0 ≤ ReadinessSpec.stable_elapsed stat check_interval i
    ≤ ReadinessSpec.poll_time check_interval i.
Proof.
  intros Hinterval. unfold ReadinessSpec.poll_time.
  induction i as [|i IH]; [simpl; lia|].
  cbn [ReadinessSpec.stable_elapsed].
  destruct (stat i); [|lia..]. destruct (stat (S i)); [|lia..].
  destruct (_ =? _)%N; lia.
Qed.

(** X4. With a positive interval and a positive stability period the
    detector always answers, and within [max_wait_time] (or 0 when it is
    negative) plus one interval. It answers [True] only after the file has
    been watched for the stability period: never before
    [stability_period], never once [max_wait_time] has elapsed, and never
    for a file that was missing at the start. *)
Theorem is_file_ready_envelope (env : Env) (p : Path) (fs : gmap Path Node)
    (stability_period check_interval max_wait_time : Z) :
  0 < check_interval → 0 < stability_period →
  ∃ ready t,
    is_file_ready_at env p stability_period check_interval max_wait_time fs
    = Some (ready, t)
    ∧ _is_file_ready env p stability_period check_interval max_wait_time fs
      = Return ready fs
    ∧ 0 ≤ t < Z.max 0 max_wait_time + check_interval
    ∧ (ready = true →
       stability_period ≤ t < max_wait_time ∧ path_exists fs p = true).
Proof.
  intros Hinterval Hperiod.
  destruct (path_exists fs p) eqn:Hexists.
  2:{ exists false, 0.
      assert (is_file_ready_at env p stability_period check_interval max_wait_time fs
              = Some (false, 0)) as Hresult.
      { unfold is_file_ready_at. by rewrite Hexists. }
      split; [done|]. split; [by apply (is_file_ready_returns _ _ _ _ _ _ _ 0)|].
      split; [lia|done]. }
  destruct (is_file_ready_at_verdict env p fs stability_period check_interval
              max_wait_time Hinterval Hperiod Hexists)
    as (ready & t & Hresult & i & -> & Hbefore & Hat).
  exists ready, (ReadinessSpec.poll_time check_interval i).
  split; [done|]. split; [by eapply is_file_ready_returns|]. split.
  - unfold ReadinessSpec.poll_time. destruct i as [|i]; [lia|].
    destruct (Hbefore i ltac:(lia)) as (Htime & _).
    unfold ReadinessSpec.poll_time in Htime. lia.
  - intros ->. destruct Hat as (Htime & _ & Hreached). split; [|done].
    pose proof (stable_elapsed_le (stat_poll env p) check_interval i ltac:(lia)).
    lia.
Qed.

(** X4, instance: the finished download is judged ready at 2 s. *)
Lemma is_file_ready_envelope_stable :
  is_file_ready_at Scenario.env_stable Scenario.photo 2000 500 30000 Scenario.fs_dl
  = Some (true, 2000)
  ∧ 2000 ≤ 2000 < 30000.
Proof.
  destruct (is_file_ready_envelope Scenario.env_stable Scenario.photo
              Scenario.fs_dl 2000 500 30000 ltac:(lia) ltac:(lia))
    as (ready & t & Hresult & _ & _ & Hready).
  assert (Some (ready, t) = Some (true, 2000)) as [= -> ->]
    by (rewrite <- Hresult; reflexivity).
  split; [reflexivity|]. exact (proj1 (Hready eq_refl)).
Defined.

(** ** What a run of the orchestrator does to the file system *)

Section Runs.
Implicit Types (env : Env) (config : Config) (fs : gmap Path Node) (s : string).

Lemma node_at_target fs src dst node :
  node_at fs dst = None →
  node_at (<[dst := node]> (delete src fs)) dst = Some node.
Proof.
  intros Hdst. rewrite (node_at_lookup fs _ dst Hdst). apply lookup_insert_eq.
Qed.

(** The name of a regular file is a component. *)
Lemma name_component fs p size :
  wf_path p = true → node_at fs p = Some (File size) → component (name p) = true.
Proof.
  intros Hwf Hnode. destruct p as [|r rest]; [done|].
  destruct rest as [|x rest _] using rev_ind.
  - simpl in *. destruct (is_root r) eqn:Hr; [done|]. by apply (wf_path_head r []).
  - change (r :: rest ++ [x]) with ((r :: rest) ++ [x]).
    rewrite name_snoc by (by left).
    apply wf_path_tail in Hwf. rewrite forallb_app in Hwf.
    apply andb_true_iff in Hwf as [_ Hx]. simpl in Hx.
    by destruct (component x).
Qed.


(** The steps behind a run that moved the file. *)
Lemma organize_file_moved_steps env config s fs source target category fs' :
  organize_file env config s fs = Return (Moved source target category) fs' →
  source = of_string s
  ∧ passes_guards env config fs source
  ∧ (∃ t, is_file_ready_at env source default_stability_period default_check_interval
                           default_max_wait_time fs = Some (true, t))
  ∧ category = get_file_category config (to_string source)
  ∧ ∃ dest fs1,
      get_destination_path env config (to_string source) category fs
      = Return (Some dest) fs1
      ∧ extends fs fs1 ∧ wf_path dest = true
      ∧ parent source ≠ parent dest
      ∧ handle_duplicate config source dest fs1 = Return (Some target) fs1
      ∧ shutil_move env (to_string source) (to_string target) fs1 = Return () fs'.
Proof.
  unfold organize_file, try_except, organize_file_try, passes_guards.
  destruct (path_exists fs (of_string s)) eqn:Hexists; run_step; [|done].
  destruct (PyStr.startswith _ _) eqn:Hdot; [done|].
  destruct (PyStr.endswith _ _) eqn:Htmp; [done|].
  destruct (is_dir fs (of_string s)) eqn:Hdir; [done|]. simpl orb. cbv iota.
  case_bool_decide as Hparent; [|done].
  unfold mbind, M_bind, mret, M_ret; cbv beta.
  unfold _is_file_ready.
  destruct (is_file_ready_at _ _ _ _ _ _) as [[ready t]|] eqn:Hready; [|done].
  destruct ready; run_step; [|done].
  pose proof (get_destination_path_answers env config (to_string (of_string s))
                (get_file_category config (to_string (of_string s))) fs) as Hdest.
  destruct (get_destination_path _ _ _ _ _) as [[dest|] fs1|e fs1|] eqn:Hgdp;
    simpl in Hdest; [|done..].
  destruct Hdest as [Hext Hwf].
  case_bool_decide as Hsame; [done|].
  destruct (handle_duplicate_answers config (of_string s) dest fs1 Hwf)
    as (final & Hhd & _).
  rewrite Hhd. destruct final as [final|]; [|done].
  destruct (shutil_move _ _ _ _) as [[] fs2|e fs2|] eqn:Hmove; [|done..].
  intros [= <- <- <- <-].
  split; [done|]. split; [done|]. split; [by exists t|]. split; [done|].
  exists dest, fs1. done.
Qed.

(** A run that did not move the file left the file system of the resolver,
    or that file system with a file at the place the move was to reach:
    what the copy had written when the error came. That place is another
    path than the source, and was free unless the method is
    ["overwrite"]. *)
Lemma organize_file_kept env config s fs outcome fs' :
  organize_file env config s fs = Return outcome fs' →
  returned outcome = false →
  ∃ fs1,
    extends fs fs1
    ∧ (fs' = fs1
       ∨ ∃ real_dst written,
           real_dst ≠ of_string s ∧ is_dir fs1 real_dst = false
           ∧ (handle_duplicates config ≠ Some "overwrite" → node_at fs1 real_dst = None)
           ∧ fs' = <[real_dst := File written]> fs1).
Proof.
  assert (∀ outcome', Return outcome' fs = Return outcome fs' →
            returned outcome = false →
            ∃ fs1, extends fs fs1
              ∧ (fs' = fs1
                 ∨ ∃ real_dst written,
                     real_dst ≠ of_string s ∧ is_dir fs1 real_dst = false
                     ∧ (handle_duplicates config ≠ Some "overwrite" →
                        node_at fs1 real_dst = None)
                     ∧ fs' = <[real_dst := File written]> fs1)) as Hsame.
  { intros outcome' [= _ <-] _. exists fs. split; [apply extends_refl|by left]. }
  unfold organize_file, try_except, organize_file_try.
  destruct (path_exists fs (of_string s)) eqn:Hexists; run_step; [|by apply Hsame].
  destruct (PyStr.startswith _ _); [by apply Hsame|].
  destruct (PyStr.endswith _ _); [by apply Hsame|].
  destruct (is_dir fs (of_string s)) eqn:Hdir; [by apply Hsame|]. simpl orb. cbv iota.
  case_bool_decide; [|by apply Hsame].
  unfold mbind, M_bind, mret, M_ret; cbv beta.
  destruct (_is_file_ready _ _ _ _ _ _) as [ready fs0|e fs0|] eqn:Hready; [| |done].
  2:{ unfold _is_file_ready in Hready. by repeat case_match. }
  apply is_file_ready_reads in Hready as ->.
  destruct ready; run_step; [|by apply Hsame]. clear Hsame.
  pose proof (get_destination_path_answers env config (to_string (of_string s))
                (get_file_category config (to_string (of_string s))) fs) as Hdest.
  destruct (get_destination_path _ _ _ _ _) as [[dest|] fs1|e fs1|];
    simpl in Hdest; [| | |done].
  2:{ destruct Hdest as [Hext _]. intros [= <- <-] _. exists fs1. by split; [|left]. }
  2:{ intros [= <- <-] _. exists fs1. by split; [|left]. }
  destruct Hdest as [Hext Hwf].
  case_bool_decide as Hparent;
    [intros [= <- <-] _; exists fs1; by split; [|left]|].
  destruct (handle_duplicate_answers config (of_string s) dest fs1 Hwf)
    as (final & Hhd & Hfinal).
  rewrite Hhd.
  destruct final as [final|]; [|intros [= <- <-] _; exists fs1; by split; [|left]].
  destruct Hfinal as [Hfinal_wf Hfinal_parent].
  destruct (handle_duplicate_shape _ _ _ _ _ Hwf Hhd) as [_ Hfree].
  destruct (regular_file fs (of_string s) Hexists Hdir) as [size Hfile].
  assert (of_string s ≠ final) as Hne.
  { intros Heq. apply Hparent. by rewrite <- Hfinal_parent, <- Heq. }
  destruct (shutil_move_file_cases env (of_string s) final fs1 size (wf_of_string s)
              Hfinal_wf (Hext _ _ Hfile) Hne)
    as [[e Hres]|(real_dst & Hreal & Hne' & Hdir' & Hinto & [Hres|(e & written & Hres)])];
    rewrite Hres.
  - intros [= <- <-] _. exists fs1. by split; [|left].
  - by intros [= <- <-].
  - intros [= <- <-] _. exists fs1. split; [done|]. right.
    exists real_dst, written. split; [done|]. split; [done|]. split; [|done].
    intros Hmethod. specialize (Hfree Hmethod).
    destruct (is_dir fs1 final) eqn:Hfinal_dir; [by apply Hinto|].
    subst real_dst. by apply path_exists_false.
Qed.
(** After a run that did not move the file, the source leads to what it
    led to, and so does every path unless the method is ["overwrite"]. *)
Lemma organize_file_kept_node env config s fs outcome fs' q node :
  organize_file env config s fs = Return outcome fs' →
  returned outcome = false →
  q = of_string s ∨ handle_duplicates config ≠ Some "overwrite" →
  node_at fs q = Some node → node_at fs' q = Some node.
Proof.
  intros Hrun Hkept Hq Hnode.
  destruct (organize_file_kept _ _ _ _ _ _ Hrun Hkept)
    as (fs1 & Hext & [->|(real_dst & written & Hne & _ & Hfree & ->)]);
    apply Hext in Hnode; [done|].
  rewrite node_at_insert_other; [done|].
  intros ->. destruct Hq as [->|Hmethod]; [done|].
  rewrite (Hfree Hmethod) in Hnode. done.
Qed.

(** No path is lost in a run that did not move the file. *)
Lemma organize_file_kept_paths env config s fs outcome fs' q :
  organize_file env config s fs = Return outcome fs' →
  returned outcome = false →
  path_exists fs q = true → path_exists fs' q = true.
Proof.
  intros Hrun Hkept. unfold path_exists.
  destruct (node_at fs q) as [node|] eqn:Hnode; [intros _|done].
  destruct (organize_file_kept _ _ _ _ _ _ Hrun Hkept)
    as (fs1 & Hext & [->|(real_dst & written & _ & Hdir & _ & ->)]);
    apply Hext in Hnode; [by rewrite Hnode|].
  destruct (decide (real_dst = q)) as [->|Hne].
  - by rewrite (node_at_inserted fs1).
  - by rewrite node_at_insert_other, Hnode.
Qed.
End Runs.

Section Moves.
Implicit Types (env : Env) (config : Config) (fs : gmap Path Node) (s : string).

(** The move of a regular file to a free path. *)
Lemma shutil_move_file_result env src dst fs fs' size :
  wf_path src = true → wf_path dst = true →
  node_at fs src = Some (File size) → path_exists fs dst = false →
  shutil_move env (to_string src) (to_string dst) fs = Return () fs' →
  fs' = <[dst := File size]> (delete src fs).
Proof.
  intros Hsrc_wf Hdst_wf Hsrc Hdst Hmove.
  assert (is_dir fs dst = false) as Hdir.
  { unfold is_dir. by rewrite (path_exists_false _ _ Hdst). }
  assert (src ≠ dst) as Hne.
  { intros <-. unfold path_exists in Hdst. by rewrite Hsrc in Hdst. }
  destruct (shutil_move_file env src dst fs fs' size Hsrc_wf Hdst_wf Hsrc Hne Hmove)
    as (real_dst & -> & _ & _ & ->).
  by rewrite Hdir.
Qed.

(** The file system after a run that moved the file, when the method is
    not ["overwrite"]: the file system after the resolver, with the file
    at the target, which was free, instead of the source. *)
Lemma organize_file_moved_result env config s fs source target category fs' :
  handle_duplicates config ≠ Some "overwrite" →
  organize_file env config s fs = Return (Moved source target category) fs' →
  ∃ fs1 size,
    extends fs fs1
    ∧ node_at fs source = Some (File size)
    ∧ node_at fs1 target = None
    ∧ fs' = <[target := File size]> (delete source fs1).
Proof.
  intros Hmethod Hrun.
  destruct (organize_file_moved_steps _ _ _ _ _ _ _ _ Hrun)
    as (-> & Hguards & _ & _ & dest & fs1 & _ & Hext & Hwf & _ & Hhd & Hmove).
  destruct Hguards as (Hexists & _ & _ & Hdir & _).
  destruct (regular_file fs (of_string s) Hexists Hdir) as [size Hfile].
  destruct (handle_duplicate_shape _ _ _ _ _ Hwf Hhd) as [Hshape Hfree].
  specialize (Hfree Hmethod).
  assert (wf_path target = true) as Htarget_wf.
  { destruct Hshape as [->|(k & _ & ->)]; [done|by apply wf_candidate]. }
  exists fs1, size. split; [done|]. split; [done|].
  split; [by apply path_exists_false|].
  apply (shutil_move_file_result env); [apply wf_of_string|done|by apply Hext|done|done].
Qed.
End Moves.

(** X5. A run of [organize_file] that did not move the file (skip or
    failure) lost no path: every path that led to a file or a directory
    still leads to one, and the file it was called for is in place as it
    was. Unless the method is ["overwrite"], such a run changed no node at
    all, and a run with whatever outcome removes or replaces nothing but the
    file it was called for: every other path that led to a file or a
    directory before the run leads to the same one after it. (Under
    ["overwrite"] a failed move can leave the destination replaced by what
    the copy had written.) *)
Theorem organize_file_keeps_others (env : Env) (config : Config) (s : string)
    (fs fs' : gmap Path Node) (outcome : MoveOutcome) :
  organize_file env config s fs = Return outcome fs' →
  (returned outcome = false →
   node_at fs' (of_string s) = node_at fs (of_string s)
   ∧ (∀ q, path_exists fs q = true → path_exists fs' q = true)
   ∧ (handle_duplicates config ≠ Some "overwrite" → extends fs fs'))
  ∧ (handle_duplicates config ≠ Some "overwrite" →
     ∀ q node, q ≠ of_string s → node_at fs q = Some node →
               node_at fs' q = Some node).
Proof.
  intros Hrun. split.
  - intros Hkept. split; [|split].
    + destruct (node_at fs (of_string s)) as [node|] eqn:Hnode.
      * apply (organize_file_kept_node env config s fs _ fs' _ _ Hrun Hkept);
          [by left|done].
      * rewrite organize_file_not_found in Hrun
          by (unfold path_exists; by rewrite Hnode).
        by injection Hrun as _ <-.
    + intros q. by apply (organize_file_kept_paths env config s fs outcome).
    + intros Hmethod q node.
      apply (organize_file_kept_node env config s fs _ fs' _ _ Hrun Hkept). by right.
  - intros Hmethod q node Hq Hnode.
    destruct outcome as [source target category| |];
      [|apply (organize_file_kept_node env config s fs _ fs' _ _ Hrun);
        [done|by right|done]..].
    destruct (organize_file_moved_result _ _ _ _ _ _ _ _ Hmethod Hrun)
      as (fs1 & size & Hext & Hfile & Hfree & ->).
    destruct (organize_file_moved_steps _ _ _ _ _ _ _ _ Hrun) as (-> & _).
    apply Hext in Hnode. rewrite node_at_moved; [done..|].
    intros ->. congruence.
Qed.

(** X5, instance: the run that moves [/dl/photo.jpg] leaves
    [/dl/Images/photo.jpg] as it is. *)
Lemma organize_file_keeps_others_photo :
  ∃ outcome fs',
    organize_file Scenario.env_stable Scenario.config_rename "/dl/photo.jpg"
                  Scenario.fs_dl = Return outcome fs'
    ∧ node_at fs' Scenario.images_photo = Some (File 50).
Proof.
  destruct (organize_file Scenario.env_stable Scenario.config_rename "/dl/photo.jpg"
                          Scenario.fs_dl) as [outcome fs'|e fs'|] eqn:Hrun.
  - exists outcome, fs'. split; [reflexivity|].
    apply (proj2 (organize_file_keeps_others Scenario.env_stable Scenario.config_rename
                    "/dl/photo.jpg" Scenario.fs_dl fs' outcome Hrun));
      [discriminate|discriminate|reflexivity].
  - exfalso. apply (f_equal returned_value) in Hrun. vm_compute in Hrun. discriminate Hrun.
  - exfalso. apply (f_equal returned_value) in Hrun. vm_compute in Hrun. discriminate Hrun.
Defined.

(** X6. Unless the method is ["overwrite"], a run that moved a file took it
    to a path where nothing was: after the run the target holds the file
    with its size, the source is gone, and the source was a regular file. *)
Theorem organize_file_moved_content (env : Env) (config : Config) (s : string)
    (fs fs' : gmap Path Node) (source target : Path) (category : string) :
  handle_duplicates config ≠ Some "overwrite" →
  organize_file env config s fs = Return (Moved source target category) fs' →
  path_exists fs target = false
  ∧ path_exists fs' source = false
  ∧ ∃ size, node_at fs source = Some (File size)
            ∧ node_at fs' target = Some (File size).
Proof.
  intros Hmethod Hrun.
  destruct (organize_file_moved_result _ _ _ _ _ _ _ _ Hmethod Hrun)
    as (fs1 & size & Hext & Hfile & Hfree & ->).
  split; [|split].
  - unfold path_exists. destruct (node_at fs target) as [node|] eqn:Hnode; [|done].
    apply Hext in Hnode. congruence.
  - destruct (organize_file_moved_steps _ _ _ _ _ _ _ _ Hrun) as (-> & _).
    exact (organize_file_moved_gone env config s fs _ _ _ _ Hrun).
  - exists size. split; [done|]. by apply node_at_target.
Qed.

(** X6, instance: [/dl/photo.jpg], of 100 bytes, in the end-to-end
    setting. *)
Lemma organize_file_moved_content_photo :
  ∃ fs',
    organize_file Scenario.env_stable Scenario.config_rename "/dl/photo.jpg"
                  Scenario.fs_dl
    = Return (Moved Scenario.photo (of_string "/dl/Images/photo_2.jpg") "Images") fs'
    ∧ node_at fs' (of_string "/dl/Images/photo_2.jpg") = Some (File 100)
    ∧ path_exists fs' Scenario.photo = false.
Proof.
  assert (returned_value (organize_file Scenario.env_stable Scenario.config_rename
                                        "/dl/photo.jpg" Scenario.fs_dl)
          = Some (Moved Scenario.photo (of_string "/dl/Images/photo_2.jpg") "Images"))
    as Hmoved by (vm_compute; reflexivity).
  destruct (organize_file Scenario.env_stable Scenario.config_rename
                          "/dl/photo.jpg" Scenario.fs_dl)
    as [outcome fs'|e fs'|] eqn:Hrun; [|discriminate Hmoved..].
  injection Hmoved as ->. exists fs'. split; [reflexivity|].
  destruct (organize_file_moved_content Scenario.env_stable Scenario.config_rename
              "/dl/photo.jpg" Scenario.fs_dl fs' Scenario.photo
              (of_string "/dl/Images/photo_2.jpg") "Images" ltac:(discriminate) Hrun)
    as (_ & Hgone & size & Hsource & Htarget).
  split; [|exact Hgone].
  rewrite Htarget, <- Hsource. reflexivity.
Defined.



(** A directory cannot be made where a regular file is. *)
Lemma mkdir_on_file env p fs size :
  node_at fs p = Some (File size) →
  ∃ e fs', mkdir env p fs = Raise e fs' ∧ extends fs fs'.
Proof.
  intros Hfile. pose proof (mkdir_answers env p fs) as Hmkdir.
  destruct (mkdir env p fs) as [[] fs'|e fs'|]; simpl in Hmkdir; [| |done].
  - destruct Hmkdir as [Hext Hdir]. apply Hext in Hfile.
    unfold is_dir in Hdir. by rewrite Hfile in Hdir.
  - by exists e, fs'.
Qed.

(** X8. When the configured folder of the file's category is the path of a
    regular file, the folder cannot be created: the resolver raises, the
    run ends in [Failed], and every file, the source included, is still in
    place. *)
Theorem organize_file_folder_is_file (env : Env) (config : Config) (s : string)
    (fs : gmap Path Node) (info : CategoryInfo) (folder : string) (size : N) (t : Z) :
  passes_guards env config fs (of_string s) →
  is_file_ready_at env (of_string s) default_stability_period default_check_interval
                   default_max_wait_time fs = Some (true, t) →
  lookup_item (get_file_category config s) (get (categories config) []) = Some info →
  configured_folder info = Some folder →
  node_at fs (of_string folder) = Some (File size) →
  ∃ e fs',
    organize_file env config s fs = Return (Failed (of_string s) e) fs'
    ∧ extends fs fs'
    ∧ path_exists fs' (of_string s) = true.
Proof.
  intros Hguards Hready Hentry Hfolder Hfile.
  assert (get_file_category config (to_string (of_string s)) = get_file_category config s)
    as Hcategory.
  { unfold get_file_category, file_extension.
    by rewrite of_to_string by apply wf_of_string. }
  destruct (mkdir_on_file env (of_string folder) fs size Hfile) as (e & fs' & Hmkdir & Hext).
  exists e, fs'. split; [|split; [done|]].
  - rewrite organize_file_guarded by done.
    unfold try_except, mbind, M_bind.
    rewrite (is_file_ready_returns _ _ _ _ _ _ _ _ Hready). run_step.
    unfold get_destination_path. rewrite Hcategory, Hentry, Hfolder.
    unfold mbind, M_bind. by rewrite Hmkdir.
  - destruct Hguards as (Hexists & _).
    unfold path_exists in *.
    destruct (node_at fs (of_string s)) as [node|] eqn:Hnode; [|done].
    by rewrite (Hext _ _ Hnode).
Qed.

(** X8, instance: the folder of the images is taken by a file. *)
Lemma organize_file_folder_is_file_images :
  ∃ fs',
    organize_file Scenario.env_stable Scenario.config_rename "/dl/photo.jpg"
                  (<[of_string "/dl/Images" := File 1]> Scenario.fs_dl)
    = Return (Failed Scenario.photo FileExistsError) fs'
    ∧ path_exists fs' Scenario.photo = true.
Proof.
  destruct (organize_file_folder_is_file Scenario.env_stable Scenario.config_rename
              "/dl/photo.jpg" (<[of_string "/dl/Images" := File 1]> Scenario.fs_dl)
              Scenario.images "/dl/Images" 1 2000)
    as (e & fs' & Hrun & _ & Hkept).
  - repeat split; reflexivity.
  - reflexivity.
  - reflexivity.
  - reflexivity.
  - reflexivity.
  - exists fs'. split; [|exact Hkept]. rewrite Hrun.
    apply (f_equal returned_value) in Hrun.
    vm_compute in Hrun. by injection Hrun as <-.
Defined.

(** ** The event handler *)

(** X9. The handler never raises and never hangs. It ignores the events of
    directories: the file system stays as it is. After a creation event
    whose run moved the file, a further event for the same path, created
    or moved onto it, changes nothing: the file is moved once. *)
Theorem handler_moves_once (env : Env) (config : Config) (event : FileSystemEvent)
    (fs : gmap Path Node) :
  (∃ fs', on_created env config event fs = Return () fs')
  ∧ (∃ fs', on_moved env config event fs = Return () fs')
  ∧ (is_directory event = true →
     on_created env config event fs = Return () fs
     ∧ on_moved env config event fs = Return () fs)
  ∧ (∀ source target category fs1,
       is_directory event = false →
       organize_file env config (src_path event) fs
       = Return (Moved source target category) fs1 →
       on_created env config event fs = Return () fs1
       ∧ ∀ env' config' event',
           dest_path event' = src_path event →
           on_moved env' config' event' fs1 = Return () fs1
           ∧ on_created env' config' event fs1 = Return () fs1).
Proof.
  assert (∀ env config s fs, ∃ outcome fs',
            organize_file env config s fs = Return outcome fs') as Hanswers.
  { intros env0 config0 s fs0.
    pose proof (organize_file_try_answers env0 config0 s fs0) as Htry.
    unfold organize_file, try_except.
    destruct (organize_file_try env0 config0 (of_string s) fs0); [by eauto..|done]. }
  unfold on_created, on_moved, mbind, M_bind, mret, M_ret.
  split; [|split; [|split]].
  - destruct (is_directory event); simpl; [by eauto|].
    destruct (Hanswers env config (src_path event) fs) as (? & fs' & ->). by eauto.
  - destruct (is_directory event); simpl; [by eauto|].
    destruct (Hanswers env config (dest_path event) fs) as (? & fs' & ->). by eauto.
  - by intros ->.
  - intros source target category fs1 -> Hrun. simpl. rewrite Hrun.
    split; [done|]. intros env' config' event' Hsame.
    pose proof (organize_file_moved_gone _ _ _ _ _ _ _ _ Hrun) as Hgone.
    destruct (is_directory event'); simpl;
      rewrite ?Hsame, ?organize_file_not_found by done; done.
Qed.

(** X9, instance: the events of [/dl/photo.jpg] and of the folder
    [/dl/Images]. *)
Lemma handler_moves_once_photo :
  on_created Scenario.env_stable Scenario.config_rename
             {| is_directory := true; src_path := "/dl/Images"; dest_path := "" |}
             Scenario.fs_dl
  = Return () Scenario.fs_dl
  ∧ ∃ fs1,
      on_created Scenario.env_stable Scenario.config_rename
                 {| is_directory := false; src_path := "/dl/photo.jpg"; dest_path := "" |}
                 Scenario.fs_dl
      = Return () fs1
      ∧ on_moved Scenario.env_stable Scenario.config_rename
                 {| is_directory := false; src_path := "/tmp/photo.jpg";
                    dest_path := "/dl/photo.jpg" |} fs1
        = Return () fs1.
Proof.
  split.
  - exact (proj1 (proj1 (proj2 (proj2 (handler_moves_once Scenario.env_stable
             Scenario.config_rename
             {| is_directory := true; src_path := "/dl/Images"; dest_path := "" |}
             Scenario.fs_dl))) eq_refl)).
  - assert (returned_value (organize_file Scenario.env_stable Scenario.config_rename
                                          "/dl/photo.jpg" Scenario.fs_dl)
            = Some (Moved Scenario.photo (of_string "/dl/Images/photo_2.jpg") "Images"))
      as Hmoved by (vm_compute; reflexivity).
    destruct (organize_file Scenario.env_stable Scenario.config_rename
                            "/dl/photo.jpg" Scenario.fs_dl)
      as [outcome fs1|e fs1|] eqn:Hrun; [|discriminate Hmoved..].
    injection Hmoved as ->. exists fs1.
    destruct (proj2 (proj2 (proj2 (handler_moves_once Scenario.env_stable
                Scenario.config_rename
                {| is_directory := false; src_path := "/dl/photo.jpg"; dest_path := "" |}
                Scenario.fs_dl))) _ _ _ fs1 eq_refl Hrun) as [Hfirst Hnext].
    split; [exact Hfirst|].
    exact (proj1 (Hnext Scenario.env_stable Scenario.config_rename
                    {| is_directory := false; src_path := "/tmp/photo.jpg";
                       dest_path := "/dl/photo.jpg" |} eq_refl)).
Defined.

(** ** The default configuration *)

Section Defaults.
Implicit Types (home : Path) (items : list (string * CategoryInfo)).

(** The text of a path that ends in a component is not empty. *)
Lemma to_string_snoc_nonempty home c : c ≠ "" → to_string (home ++ [c]) ≠ "".
Proof.
  intros Hc. destruct home as [|r rest].
  - simpl. destruct (is_root c); [by destruct c|done].
  - change ((r :: rest) ++ [c]) with (r :: (rest ++ [c])). unfold to_string.
    destruct (is_root r) eqn:Hr.
    + destruct r; [done|]. done.
    + destruct (rest ++ [c]) as [|x l] eqn:E; [by destruct rest|].
      change (String.concat "/" (r :: x :: l))
        with (r +:+ String "/" (String.concat "/" (x :: l))).
      intros Heq. apply (f_equal String.length) in Heq.
      rewrite string_length_app in Heq. simpl in Heq. lia.
Qed.

(** An entry the categorizer names, other than the default answer, is an
    entry of the configuration that lists the extension. *)
Lemma first_category_entry ext items category :
  first_category ext items = category → category ≠ "Others" →
  ∃ info, (category, info) ∈ items ∧ ext ∈ get (extensions info) [].
Proof.
  induction items as [|[c info] items IH]; [done|]. cbn [first_category].
  destruct (get (enabled info) true); simpl.
  - case_bool_decide as Hin.
    + intros <- _. exists info. split; [apply list_elem_of_here|done].
    + intros Heq Hne. destruct (IH Heq Hne) as (info' & ? & ?).
      exists info'. split; [by apply list_elem_of_further|done].
  - intros Heq Hne. destruct (IH Heq Hne) as (info' & ? & ?).
    exists info'. split; [by apply list_elem_of_further|done].
Qed.

(** Every entry of the default configuration has a folder. *)
Lemma default_entry_folder home category info :
  lookup_item category (get (categories (create_default_config home)) []) = Some info →
  ∃ folder, configured_folder info = Some folder.
Proof.
  unfold create_default_config. cbn [categories get].
  assert (Forall (λ item : string * CategoryDefault,
                    component (default_folder item.2) = true) FILE_CATEGORIES) as Hall.
  { apply Forall_forall. intros item Hitem.
    repeat (apply elem_of_cons in Hitem as [->|Hitem]); [reflexivity..|].
    by apply elem_of_nil in Hitem. }
  induction Hall as [|[c d] l Hd Hl IH]; [done|].
  cbn [fmap list_fmap lookup_item]. case_bool_decide; [|exact IH].
  intros [= <-]. unfold configured_folder. cbn [folder_path].
  simpl in Hd. rewrite (joinpath_component _ _ Hd).
  rewrite bool_decide_eq_false_2; [by eexists|].
  apply to_string_snoc_nonempty. by destruct (default_folder d).
Qed.
End Defaults.

(** A run that ends in the skip for a missing destination folder got no
    destination from the resolver. *)
Lemma organize_file_no_destination env config s fs p fs' :
  organize_file env config s fs = Return (Skipped p NoDestinationFolder) fs' →
  get_destination_path env config (to_string (of_string s))
                       (get_file_category config (to_string (of_string s))) fs
  = Return None fs'.
Proof.
  unfold organize_file, try_except, organize_file_try.
  destruct (path_exists fs (of_string s)); run_step; [|done].
  destruct (_ || _ || _); [done|].
  case_bool_decide; [|done].
  unfold mbind, M_bind, mret, M_ret; cbv beta.
  destruct (_is_file_ready _ _ _ _ _ _) as [ready fs0|e fs0|] eqn:Hready; [|done..].
  apply is_file_ready_reads in Hready as ->.
  destruct ready; run_step; [|done].
  pose proof (get_destination_path_answers env config (to_string (of_string s))
                (get_file_category config (to_string (of_string s))) fs) as Hdest.
  destruct (get_destination_path _ _ _ _ _) as [[dest|] fs1|e fs1|];
    simpl in Hdest; [| |done..].
  2:{ by intros [= _ <-]. }
  destruct Hdest as [_ Hwf].
  case_bool_decide; [done|].
  destruct (handle_duplicate_answers config (of_string s) dest fs1 Hwf)
    as (final & -> & _).
  destruct final as [final|]; [|done].
  by destruct (shutil_move _ _ _ _).
Qed.

(** X10. Under the configuration [create_default_config] builds, whatever
    the home directory, every category has a destination folder: the
    resolver never answers [None], and no run of [organize_file] ends in
    the skip for a missing destination folder. *)
Theorem default_config_has_folders (env : Env) (home : Path) (s : string)
    (fs : gmap Path Node) :
  (∀ file_path category,
     (∃ dest fs', get_destination_path env (create_default_config home) file_path
                                       category fs = Return (Some dest) fs')
     ∨ (∃ e fs', get_destination_path env (create_default_config home) file_path
                                      category fs = Raise e fs'))
  ∧ ∃ outcome fs',
      organize_file env (create_default_config home) s fs = Return outcome fs'
      ∧ ∀ p, outcome ≠ Skipped p NoDestinationFolder.
Proof.
  assert (∀ file_path category,
            (∃ dest fs', get_destination_path env (create_default_config home) file_path
                                              category fs = Return (Some dest) fs')
            ∨ (∃ e fs', get_destination_path env (create_default_config home) file_path
                                             category fs = Raise e fs')) as Hresolver.
  { intros file_path category. unfold get_destination_path.
    destruct (lookup_item category _) as [info|] eqn:Hentry.
    - destruct (default_entry_folder home category info Hentry) as [folder ->].
      destruct (resolve_in_folder env (of_string folder) (name (of_string file_path)) fs)
        as [(fs' & Hres & _)|(e & fs' & Hres & _)]; by eauto.
    - destruct (resolve_in_others env
                  (joinpath (downloads_path env (create_default_config home)) "Others")
                  (name (of_string file_path)) fs)
        as [(fs' & Hres & _)|(e & fs' & Hres & _)]; by eauto. }
  split; [exact Hresolver|].
  pose proof (organize_file_try_answers env (create_default_config home) s fs) as Htry.
  destruct (organize_file env (create_default_config home) s fs)
    as [outcome fs'|e fs'|] eqn:Hrun.
  - exists outcome, fs'. split; [done|]. intros p ->.
    apply organize_file_no_destination in Hrun.
    destruct (Hresolver (to_string (of_string s))
                (get_file_category (create_default_config home) (to_string (of_string s))))
      as [(? & ? & Hres)|(? & ? & Hres)]; congruence.
  - unfold organize_file, try_except in Hrun. by destruct (organize_file_try _ _ _ _).
  - unfold organize_file, try_except in Hrun. by destruct (organize_file_try _ _ _ _).
Qed.

(** The items of the default configuration. *)
Lemma default_category_of_extension home file_path :
  get_file_category (create_default_config home) file_path
  = first_category (file_extension file_path)
      (get (categories (create_default_config home)) []).
Proof. done. Qed.

(** X11. In the default configuration the first rule that lists an
    extension hides the later ones. A file is classified ["Executables"]
    exactly for the extensions [run], [bin], [appimage], [flatpak], [snap],
    [com], [scr], [gadget], [msp], [msu]: the other extensions of that rule
    ([exe], [msi], [dmg], [pkg], [deb], [rpm], [app], [cab]) go to
    ["Archives"]. The extension [ts] of the rule ["Code"] goes to
    ["Videos"]. *)
Theorem default_config_shadowing (home : Path) (file_path : string) :
  let category := get_file_category (create_default_config home) file_path in
  let ext := file_extension file_path in
  (category = "Executables"
   ↔ ext ∈ ["run"; "bin"; "appimage"; "flatpak"; "snap"; "com"; "scr"; "gadget";
            "msp"; "msu"])
  ∧ (ext ∈ ["exe"; "msi"; "dmg"; "pkg"; "deb"; "rpm"; "app"; "cab"] →
     category = "Archives")
  ∧ (ext = "ts" → category = "Videos").
Proof.
  intros category ext. subst category ext.
  rewrite default_category_of_extension.
  generalize (file_extension file_path). intros ext.
  split; [split|split].
  - intros Hcategory.
    destruct (first_category_entry _ _ _ Hcategory) as (info & Hitem & Hext); [done|].
    assert (ext ∈ ["exe"; "msi"; "dmg"; "pkg"; "deb"; "rpm"; "run"; "bin"; "app";
                   "appimage"; "flatpak"; "snap"; "com"; "scr"; "gadget"; "msp";
                   "msu"; "cab"]) as Hlisted.
    { unfold create_default_config in Hitem.
      cbn [categories get fmap list_fmap] in Hitem.
      unfold FILE_CATEGORIES in Hitem. cbn [list_fmap] in Hitem.
      repeat (apply elem_of_cons in Hitem as [Heq|Hitem];
              [first [ discriminate Heq
                     | injection Heq as Hinfo; subst info; exact Hext ]|]).
      by apply elem_of_nil in Hitem. }
    clear Hext Hitem.
    repeat (apply elem_of_cons in Hlisted as [->|Hlisted];
            [first [ by_computation
                   | exfalso; vm_compute in Hcategory; discriminate Hcategory ]|]).
    by apply elem_of_nil in Hlisted.
  - intros Hext.
    repeat (apply elem_of_cons in Hext as [->|Hext]; [reflexivity|]).
    by apply elem_of_nil in Hext.
  - intros Hext.
    repeat (apply elem_of_cons in Hext as [->|Hext]; [reflexivity|]).
    by apply elem_of_nil in Hext.
  - by intros ->.
Qed.

(** ** The configuration window *)

Section Window.
Implicit Types (items : list (string * CategoryInfo)) (key category : string).

Lemma lookup_update_same {A} key (f : A → A) (l : list (string * A)) a :
  lookup_item key l = Some a → lookup_item key (update_item key f l) = Some (f a).
Proof.
  induction l as [|[k v] l IH]; [done|]. simpl.
  case_bool_decide as Hk.
  - intros [= <-]. simpl. by rewrite bool_decide_eq_true_2.
  - intros Hl. simpl. rewrite bool_decide_eq_false_2 by done. by apply IH.
Qed.

Lemma lookup_update_ne {A} key key' (f : A → A) (l : list (string * A)) :
  key ≠ key' → lookup_item key' (update_item key f l) = lookup_item key' l.
Proof.
  intros Hne. induction l as [|[k v] l IH]; [done|]. simpl.
  case_bool_decide as Hk; simpl.
  - subst k. by rewrite !bool_decide_eq_false_2.
  - by rewrite IH.
Qed.

Lemma lookup_app {A} key (l1 l2 : list (string * A)) :
  lookup_item key (l1 ++ l2)
  = match lookup_item key l1 with
    | Some a => Some a
    | None => lookup_item key l2
    end.
Proof.
  induction l1 as [|[k v] l1 IH]; [done|]. simpl. by case_bool_decide.
Qed.

Lemma lookup_item_elem {A} key (l : list (string * A)) a :
  (key, a) ∈ l → ∃ a', lookup_item key l = Some a'.
Proof.
  induction l as [|[k v] l IH]; [by intros ?%elem_of_nil|].
  intros [[= <- <-]|Hin]%elem_of_cons; simpl.
  - rewrite bool_decide_eq_true_2 by done. by eexists.
  - case_bool_decide; [by eexists|by apply IH].
Qed.

(** The folder of an entry does not matter to the categorizer, nor does an
    entry without extensions. *)
Lemma first_category_save ext items category_var :
  first_category ext (save_category items category_var) = first_category ext items.
Proof.
  destruct category_var as [category var]. unfold save_category.
  destruct (lookup_item category items) as [info0|].
  - clear info0. induction items as [|[k info] items IH]; [done|]. simpl.
    case_bool_decide; simpl; [done|]. by rewrite IH.
  - induction items as [|[k info] items IH]; simpl.
    + done.
    + by rewrite IH.
Qed.

Lemma first_category_saved ext items category_vars :
  first_category ext (foldl save_category items category_vars)
  = first_category ext items.
Proof.
  revert items. induction category_vars as [|cv l IH]; intros items; [done|].
  simpl. by rewrite IH, first_category_save.
Qed.

(** One round of the loop, seen from the entry of [category]. *)
Lemma lookup_save_same items category var :
  ∃ info, lookup_item category (save_category items (category, var)) = Some info
          ∧ folder_path info = Some var
          ∧ match lookup_item category items with
            | Some info0 => enabled info = enabled info0
                            ∧ extensions info = extensions info0
            | None => enabled info = Some true ∧ extensions info = Some []
            end.
Proof.
  unfold save_category. destruct (lookup_item category items) as [info0|] eqn:Hentry.
  - eexists. split; [by apply lookup_update_same|]. done.
  - eexists. split.
    + rewrite lookup_app, Hentry. simpl. by rewrite bool_decide_eq_true_2.
    + done.
Qed.

Lemma lookup_save_ne items category var key :
  category ≠ key →
  lookup_item key (save_category items (category, var)) = lookup_item key items.
Proof.
  intros Hne. unfold save_category. destruct (lookup_item category items).
  - by apply lookup_update_ne.
  - rewrite lookup_app. destruct (lookup_item key items); [done|]. simpl.
    by rewrite bool_decide_eq_false_2.
Qed.

Lemma lookup_saved_other items category_vars key :
  key ∉ category_vars.*1 →
  lookup_item key (foldl save_category items category_vars) = lookup_item key items.
Proof.
  revert items. induction category_vars as [|[c v] l IH]; intros items Hkey; [done|].
  simpl in *. apply not_elem_of_cons in Hkey as [Hne Hkey].
  rewrite IH by done. by apply lookup_save_ne.
Qed.
End Window.

(** X12. Saving from the window changes where files go, not how they are
    classified: the downloads folder becomes the text of its entry, the
    method for duplicates stays, and every file gets the category it had,
    also when the save stops at a missing key ["categories"] (which happens
    exactly when that key is absent and there is a category entry to
    save). *)
Theorem gui_save_keeps_categories (config : Config) (downloads_var : string)
    (category_vars : list (string * string)) :
  let saved := config_of (gui_save_config config downloads_var category_vars) in
  downloads_folder saved = Some downloads_var
  ∧ handle_duplicates saved = handle_duplicates config
  ∧ (∀ file_path, get_file_category saved file_path = get_file_category config file_path)
  ∧ ((∃ config', gui_save_config config downloads_var category_vars = KeyError config')
     ↔ categories config = None ∧ category_vars ≠ []).
Proof.
  unfold gui_save_config. cbn [categories downloads_folder handle_duplicates].
  destruct category_vars as [|cv l]; [|destruct (categories config) as [items|] eqn:Hcat];
    cbn [config_of downloads_folder handle_duplicates].
  - split; [done|]. split; [done|]. split; [done|].
    split; [by intros [? ?]|by intros [_ ?]].
  - split; [done|]. split; [done|]. split.
    + intros file_path. unfold get_file_category. cbn [categories get].
      rewrite Hcat. cbn [get]. apply (first_category_saved _ _ (cv :: l)).
    + split; [by intros [? ?]|by intros [? _]].
  - split; [done|]. split; [done|]. split.
    + intros file_path. unfold get_file_category. cbn [categories]. by rewrite Hcat.
    + split; [done|]. intros _. by eexists.
Qed.

(** X13. What the window saves is what the resolver reads. With distinct
    categories in the window and the key ["categories"] present, after the
    save every category of the window is an entry whose folder is the text
    of its field (an entry that was there keeps its extensions and its
    enabled flag; a new one is enabled and has no extension), so the
    category resolves to that folder, or to nothing when the text is empty.
    The entries of the other categories are as before. *)
Theorem gui_save_folders (env : Env) (config : Config) (downloads_var : string)
    (category_vars : list (string * string)) (items : list (string * CategoryInfo)) :
  NoDup category_vars.*1 →
  categories config = Some items →
  let saved := config_of (gui_save_config config downloads_var category_vars) in
  (∀ category var,
     (category, var) ∈ category_vars →
     (∃ info,
        lookup_item category (get (categories saved) []) = Some info
        ∧ folder_path info = Some var
        ∧ match lookup_item category items with
          | Some info0 => enabled info = enabled info0
                          ∧ extensions info = extensions info0
          | None => enabled info = Some true ∧ extensions info = Some []
          end)
     ∧ category_folder env saved category
       = if bool_decide (var = "") then None else Some (of_string var))
  ∧ (∀ category,
       category ∉ category_vars.*1 →
       lookup_item category (get (categories saved) []) = lookup_item category items).
Proof.
  intros Hnodup Hcat saved.
  assert (get (categories saved) [] = foldl save_category items category_vars) as Hsaved.
  { subst saved. unfold gui_save_config. cbn [categories]. rewrite Hcat.
    by destruct category_vars. }
  rewrite Hsaved. clear Hsaved. split; [|intros category; apply lookup_saved_other].
  intros category var Hin.
  assert (∃ info,
            lookup_item category (foldl save_category items category_vars) = Some info
            ∧ folder_path info = Some var
            ∧ match lookup_item category items with
              | Some info0 => enabled info = enabled info0
                              ∧ extensions info = extensions info0
              | None => enabled info = Some true ∧ extensions info = Some []
              end) as (info & Hentry & Hfolder & Hkept).
  { clear saved Hcat. revert items.
    induction category_vars as [|[c v] l IH]; intros items; [by apply elem_of_nil in Hin|].
    simpl in Hnodup. apply NoDup_cons in Hnodup as [Hfresh Hnodup].
    apply elem_of_cons in Hin as [[= <- <-]|Hin]; simpl.
    - rewrite lookup_saved_other by done. apply lookup_save_same.
    - destruct (IH Hnodup Hin (save_category items (c, v))) as (info & ? & ? & Hkept).
      exists info. split; [done|]. split; [done|].
      rewrite lookup_save_ne in Hkept; [done|].
      intros ->. apply Hfresh. apply list_elem_of_fmap. by exists (category, var). }
  split; [by exists info|].
  unfold category_folder.
  assert (get (categories saved) [] = foldl save_category items category_vars) as ->.
  { subst saved. unfold gui_save_config. cbn [categories]. rewrite Hcat.
    by destruct category_vars. }
  rewrite Hentry. unfold configured_folder. rewrite Hfolder.
  by case_bool_decide.
Qed.

(** X13, instance: the folder of ["Images"] is replaced, ["Audio"] gets an
    entry with an empty folder. *)
Lemma gui_save_folders_images :
  category_folder Scenario.env_stable
    (config_of (gui_save_config Scenario.config_rename "/dl"
                  [("Images", "/home/user/Pictures"); ("Audio", "")]))
    "Images"
  = Some (of_string "/home/user/Pictures")
  ∧ category_folder Scenario.env_stable
      (config_of (gui_save_config Scenario.config_rename "/dl"
                    [("Images", "/home/user/Pictures"); ("Audio", "")]))
      "Audio"
    = None.
Proof.
  pose proof (gui_save_folders Scenario.env_stable Scenario.config_rename "/dl"
                [("Images", "/home/user/Pictures"); ("Audio", "")]
                [("Images", Scenario.images)]) as Hsave.
  destruct Hsave as [Hvars _].
  - by_computation.
  - reflexivity.
  - split.
    + exact (proj2 (Hvars "Images" "/home/user/Pictures" ltac:(by_computation))).
    + exact (proj2 (Hvars "Audio" "" ltac:(by_computation))).
Defined.

Section LoadSave.
Implicit Types (items : list (string * CategoryInfo)) (key category : string).

(** The resolver reads the configuration through the downloads folder and
    the configured folder of the entry of the category. *)
Lemma get_destination_path_same env config1 config2 file_path category :
  downloads_path env config1 = downloads_path env config2 →
  configured_folder <$> lookup_item category (get (categories config1) [])
  = configured_folder <$> lookup_item category (get (categories config2) []) →
  get_destination_path env config1 file_path category
  = get_destination_path env config2 file_path category.
Proof.
  intros Hdownloads Hentry. unfold get_destination_path. rewrite Hdownloads.
  destruct (lookup_item category (get (categories config1) [])) as [info1|],
           (lookup_item category (get (categories config2) [])) as [info2|];
    simpl in Hentry; try done.
  injection Hentry as ->. done.
Qed.

(** Two configurations the engine cannot tell apart. *)
Lemma organize_file_same env config1 config2 s fs :
  downloads_path env config1 = downloads_path env config2 →
  handle_duplicates config1 = handle_duplicates config2 →
  (∀ file_path, get_file_category config1 file_path = get_file_category config2 file_path) →
  (∀ file_path,
     configured_folder
       <$> lookup_item (get_file_category config2 file_path) (get (categories config1) [])
     = configured_folder
       <$> lookup_item (get_file_category config2 file_path) (get (categories config2) [])) →
  organize_file env config1 s fs = organize_file env config2 s fs.
Proof.
  intros Hdownloads Hmethod Hcategory Hentry.
  unfold organize_file, organize_file_try.
  rewrite Hdownloads, Hcategory.
  rewrite (get_destination_path_same env config1 config2) by auto.
  unfold handle_duplicate. by rewrite Hmethod.
Qed.

(** Saving the texts the window has loaded keeps the configured folder of
    every entry, and adds entries only for categories of the window. *)
Lemma lookup_load_save items0 keys l items :
  l ⊆ keys →
  (∀ category,
     is_Some (lookup_item category items0) ∨ category ∉ keys →
     configured_folder <$> lookup_item category items
     = configured_folder <$> lookup_item category items0) →
  ∀ category,
    is_Some (lookup_item category items0) ∨ category ∉ keys →
    configured_folder
      <$> lookup_item category
            (foldl save_category items
               ((λ key, (key,
                         get (folder_path
                                (get (lookup_item key items0)
                                     {| folder_path := None; enabled := None;
                                        extensions := None |})) "")) <$> l))
    = configured_folder <$> lookup_item category items0.
Proof.
  revert items. induction l as [|key l IH]; intros items Hl Hinv; [done|].
  cbn [fmap list_fmap foldl]. apply IH; [set_solver|].
  intros category Hcategory.
  destruct (decide (key = category)) as [->|Hne];
    [|rewrite lookup_save_ne by done; by apply Hinv].
  destruct Hcategory as [[info0 Hinfo0]|Hout]; [|set_solver].
  rewrite Hinfo0. cbn [get].
  destruct (lookup_save_same items category (get (folder_path info0) ""))
    as (info & -> & Hfolder & _).
  simpl. f_equal. unfold configured_folder. rewrite Hfolder.
  by destruct (folder_path info0).
Qed.
End LoadSave.

(** X14. Opening the window and saving what it shows leaves the engine as
    it was. When the configuration has the keys ["downloads_folder"] and
    ["categories"], and no category of the window is named ["Others"], the
    save after a load succeeds, and [organize_file] does under the saved
    configuration what it does under the loaded one, for every path, file
    system and environment. *)
Theorem gui_load_save_same (config : Config) (keys : list string)
    (downloads : string) (items : list (string * CategoryInfo)) :
  downloads_folder config = Some downloads →
  categories config = Some items →
  "Others" ∉ keys →
  ∃ saved,
    gui_save_config config (gui_load_config config keys).1
                    (gui_load_config config keys).2
    = Saved saved
    ∧ ∀ env s fs, organize_file env saved s fs = organize_file env config s fs.
Proof.
  intros Hdownloads Hitems Hothers.
  set (vars := (gui_load_config config keys).2).
  exists {| downloads_folder := Some downloads;
            handle_duplicates := handle_duplicates config;
            categories := Some (foldl save_category items vars) |}.
  split.
  { unfold gui_save_config, gui_load_config. cbn [fst snd categories].
    rewrite Hdownloads, Hitems. cbn [get].
    subst vars. unfold gui_load_config. cbn [snd]. rewrite Hitems.
    by destruct keys. }
  intros env s fs. apply organize_file_same.
  - unfold downloads_path. cbn [downloads_folder]. by rewrite Hdownloads.
  - done.
  - intros file_path. unfold get_file_category. cbn [categories].
    rewrite Hitems. cbn [get]. apply first_category_saved.
  - intros file_path.
    assert (get_file_category config file_path
            = first_category (file_extension file_path) items) as ->.
    { unfold get_file_category. by rewrite Hitems. }
    cbn [categories]. rewrite Hitems. cbn [get].
    subst vars. unfold gui_load_config. cbn [snd]. rewrite Hitems. cbn [get].
    apply (lookup_load_save items keys keys items); [done|done|].
    destruct (decide (first_category (file_extension file_path) items = "Others"))
      as [Heq|Hne]; [right; by rewrite Heq|]. left.
    destruct (first_category_entry _ _ _ eq_refl Hne) as (info & Hin & _).
    destruct (lookup_item_elem _ _ _ Hin) as [info' ->]. by eexists.
Qed.

(** X14, instance: the end-to-end configuration and the categories of the
    window. *)
Lemma gui_load_save_same_scenario :
  ∃ saved,
    gui_save_config Scenario.config_rename
                    (gui_load_config Scenario.config_rename category_keys).1
                    (gui_load_config Scenario.config_rename category_keys).2
    = Saved saved
    ∧ lookup_item "Audio" (get (categories saved) [])
      = Some {| folder_path := Some ""; enabled := Some true; extensions := Some [] |}
    ∧ ∀ fs, organize_file Scenario.env_stable saved "/dl/photo.jpg" fs
            = organize_file Scenario.env_stable Scenario.config_rename
                            "/dl/photo.jpg" fs.
Proof.
  destruct (gui_load_save_same Scenario.config_rename category_keys "/dl"
              [("Images", Scenario.images)] eq_refl eq_refl)
    as (saved & Hsaved & Hsame).
  - by_computation.
  - exists saved. split; [exact Hsaved|]. split.
    + vm_compute in Hsaved. injection Hsaved as <-. reflexivity.
    + intros fs. apply Hsame.
Defined.

(** ** The sizes behind the verdict *)

(** The stable time at a poll counts the polls just before it that saw the
    size it saw. *)
Lemma stable_run stat check_interval k :
  ∃ n : nat,
    ReadinessSpec.stable_elapsed stat check_interval k = Z.of_nat n * check_interval
    ∧ (n ≤ k)%nat
    ∧ ∀ j, (k - n ≤ j ≤ k)%nat → stat j = stat k.
Proof.
  induction k as [|k (n & Helapsed & Hn & Hrun)].
  - exists O. split; [done|]. split; [done|]. intros j Hj.
    by replace j with O by lia.
  - cbn [ReadinessSpec.stable_elapsed].
    assert (∃ m : nat, 0 = Z.of_nat m * check_interval ∧ (m ≤ S k)%nat
                       ∧ ∀ j, (S k - m ≤ j ≤ S k)%nat → stat j = stat (S k)) as Hreset.
    { exists O. split; [done|]. split; [lia|]. intros j Hj.
      by replace j with (S k) by lia. }
    destruct (stat k) as [previous| |] eqn:Hprevious; [|done..].
    destruct (stat (S k)) as [current| |] eqn:Hcurrent; [|done..].
    destruct (N.eqb_spec current previous) as [->|Hne]; [|done].
    exists (S n). split; [lia|]. split; [lia|].
    intros j Hj. destruct (decide (j = S k)) as [->|Hj']; [done|].
    rewrite Hrun by lia. done.
Qed.

(** X15. When the detector answers [True], the file had one and the same
    size at every poll of the last [stability_period] before the answer:
    a size seen to change is never followed by [True] within the stability
    period. *)
Theorem is_file_ready_stable_sizes (env : Env) (p : Path) (fs : gmap Path Node)
    (stability_period check_interval max_wait_time : Z) (t : Z) :
  0 < check_interval → 0 < stability_period →
  is_file_ready_at env p stability_period check_interval max_wait_time fs
  = Some (true, t) →
  ∃ k size,
    t = ReadinessSpec.poll_time check_interval k
    ∧ stat_poll env p k = StSize size
    ∧ ∀ j, (j ≤ k)%nat →
           t - stability_period ≤ ReadinessSpec.poll_time check_interval j →
           stat_poll env p j = StSize size.
Proof.
  intros Hinterval Hperiod Hresult.
  destruct (path_exists fs p) eqn:Hexists.
  2:{ unfold is_file_ready_at in Hresult. by rewrite Hexists in Hresult. }
  destruct (is_file_ready_at_verdict env p fs stability_period check_interval
              max_wait_time Hinterval Hperiod Hexists)
    as (ready & t' & Hresult' & k & -> & _ & Hat).
  rewrite Hresult in Hresult'. injection Hresult' as <- ->.
  destruct Hat as (_ & [size Hsize] & Hreached).
  destruct (stable_run (stat_poll env p) check_interval k) as (n & Helapsed & Hn & Hrun).
  exists k, size. split; [done|]. split; [done|].
  intros j Hj Hrecent. rewrite Hrun; [done|].
  unfold ReadinessSpec.poll_time in Hrecent. nia.
Qed.

(** X15, instance: the download seen growing until the third poll is
    judged ready on five equal sizes. *)
Lemma is_file_ready_stable_sizes_download :
  ∃ k size,
    3000 = ReadinessSpec.poll_time 500 k
    ∧ stat_poll Scenario.env_download Scenario.photo k = StSize size
    ∧ ∀ j, (j ≤ k)%nat → 3000 - 2000 ≤ ReadinessSpec.poll_time 500 j →
           stat_poll Scenario.env_download Scenario.photo j = StSize size.
Proof.
  exact (is_file_ready_stable_sizes Scenario.env_download Scenario.photo
           Scenario.fs_dl 2000 500 30000 3000 ltac:(lia) ltac:(lia) eq_refl).
Defined.

(** ** Where the moved file is *)

(** X16. A file that was moved is not lost, under every method: the source
    was a regular file, and after the run a file of its size is at the
    target, or inside the target under the name of the source when the
    target was a directory (which can only be under ["overwrite"]). *)
Theorem organize_file_moved_arrives (env : Env) (config : Config) (s : string)
    (fs fs' : gmap Path Node) (source target : Path) (category : string) :
  organize_file env config s fs = Return (Moved source target category) fs' →
  ∃ size,
    node_at fs source = Some (File size)
    ∧ (node_at fs' target = Some (File size)
       ∨ (handle_duplicates config = Some "overwrite"
          ∧ node_at fs' target = Some Dir
          ∧ node_at fs' (target ++ [name source]) = Some (File size))).
Proof.
  intros Hrun.
  destruct (organize_file_moved_steps _ _ _ _ _ _ _ _ Hrun)
    as (-> & Hguards & _ & _ & dest & fs1 & _ & Hext & Hwf & Hparent & Hhd & Hmove).
  destruct Hguards as (Hexists & _ & _ & Hdir & _).
  destruct (regular_file fs (of_string s) Hexists Hdir) as [size Hfile].
  pose proof (name_component fs (of_string s) size (wf_of_string s) Hfile) as Hname.
  destruct (handle_duplicate_shape _ _ _ _ _ Hwf Hhd) as [Hshape Hfree].
  assert (wf_path target = true ∧ parent target = parent dest) as [Htarget_wf Htarget].
  { destruct Hshape as [->|(k & _ & ->)]; [done|].
    split; [by apply wf_candidate|by apply parent_candidate]. }
  assert (of_string s ≠ target) as Hne.
  { intros Heq. apply Hparent. by rewrite <- Htarget, <- Heq. }
  destruct (shutil_move_file env (of_string s) target fs1 fs' size
              (wf_of_string s) Htarget_wf (Hext _ _ Hfile) Hne Hmove)
    as (real_dst & Hreal & Hne' & Hdir' & ->).
  exists size. split; [done|].
  destruct (is_dir fs1 target) eqn:Htarget_dir; subst real_dst.
  - right. split.
    { destruct (decide (handle_duplicates config = Some "overwrite")) as [|Hmethod];
        [done|].
      specialize (Hfree Hmethod). unfold is_dir, path_exists in *.
      by destruct (node_at fs1 target) as [[]|]. }
    rewrite (joinpath_component _ _ Hname) in *.
    split; [|by apply (node_at_inserted fs1)].
    rewrite node_at_moved.
    + unfold is_dir in Htarget_dir. by destruct (node_at fs1 target) as [[]|].
    + intros Heq. by rewrite Heq in Hne.
    + intros Heq. apply (f_equal length) in Heq. rewrite length_app in Heq.
      simpl in Heq. lia.
  - left. by apply (node_at_inserted fs1).
Qed.

(** X16, instance: the moved [/dl/photo.jpg] is at [/dl/Images/photo_2.jpg]. *)
Lemma organize_file_moved_arrives_photo :
  ∃ fs',
    organize_file Scenario.env_stable Scenario.config_rename "/dl/photo.jpg"
                  Scenario.fs_dl
    = Return (Moved Scenario.photo (of_string "/dl/Images/photo_2.jpg") "Images") fs'
    ∧ node_at fs' (of_string "/dl/Images/photo_2.jpg") = Some (File 100).
Proof.
  assert (returned_value (organize_file Scenario.env_stable Scenario.config_rename
                                        "/dl/photo.jpg" Scenario.fs_dl)
          = Some (Moved Scenario.photo (of_string "/dl/Images/photo_2.jpg") "Images"))
    as Hmoved by (vm_compute; reflexivity).
  destruct (organize_file Scenario.env_stable Scenario.config_rename
                          "/dl/photo.jpg" Scenario.fs_dl)
    as [outcome fs'|e fs'|] eqn:Hrun; [|discriminate Hmoved..].
  injection Hmoved as ->. exists fs'. split; [reflexivity|].
  destruct (organize_file_moved_arrives Scenario.env_stable Scenario.config_rename
              "/dl/photo.jpg" Scenario.fs_dl fs' _ _ _ Hrun)
    as (size & Hsource & [Harrived|(Hmethod & _)]).
  - rewrite Harrived, <- Hsource. reflexivity.
  - discriminate Hmethod.
Defined.
